(** * pyotp2289: the RFC 2289 one-time-password server, embedded in Rocq

    The development follows the Python sources:
    - [Py]        the fragment of the Python runtime the code relies on
                  (exceptions, [str] methods, [binascii], [int.from_bytes]);
    - [Hashlib]   [hashlib.md5] and [hashlib.sha1];
    - [Generator] the helpers of [otp2289/generator.py] that the server
                  calls, and the generator the tests exercise;
    - [OTPState]  the class [OTPState] of [src/otp2289/server.py]
                  (version 1.2.0);
    - [OTPStore]  the class [OTPStore] of the same file;
    - [Examples]  the objects of the tests.

    A Python [str] is a [string] whose characters are code points below 256,
    a Python [bytes] is a [list byte], a Python [int] is a [Z].  Exceptions
    are values of type [exn]; a call that can raise returns a [result].
    A method that mutates [self] returns the object after the call next to
    its result, and [OTPStore] works on a heap of [OTPState] objects,
    because the store keys its reverse dictionary by object identity. *)

From Stdlib Require Import NArith ZArith List String Ascii Lia.
From Stdlib.Strings Require Import Byte.
From Stdlib Require DecimalString DecimalZ DecimalPos.
From stdpp Require Import gmap strings list fin_maps.
Import ListNotations.

Definition bytes := list byte.

(** ** The Python runtime *)
Module Py.

(** Object identities and references: [None] is Python's [None]. *)
Abbreviation loc := positive (only parsing).
Abbreviation pyval := (option positive) (only parsing).

Inductive pykey :=
  | KeyStr (s : string)
  | KeyObj (v : pyval).

Inductive exn :=
  | OTPGeneratorException (msg : string)
  | OTPStateException (msg : string)
  | OTPStoreException (msg : string)
  | OTPInvalidResponse (msg : string)
  | ValueError (msg : string)
  | BinasciiError (msg : string)
  | KeyError (k : pykey)
  | AttributeError (msg : string).

Inductive result (A : Type) :=
  | Ok (a : A)
  | Raise (e : exn).
Arguments Ok {A} a.
Arguments Raise {A} e.

Definition bind {A B} (r : result A) (k : A -> result B) : result B :=
  match r with
  | Ok a => k a
  | Raise e => Raise e
  end.

Notation "'let*' x := r 'in' k" := (bind r (fun x => k))
  (at level 10, x name, r at level 100, k at level 200).

Definition code (c : ascii) : N := N_of_ascii c.

Definition between (lo hi : N) (c : ascii) : bool :=
  (lo <=? code c)%N && (code c <=? hi)%N.

(** [str.isspace] on code points below 256. *)
Definition isspace (c : ascii) : bool :=
  between 9 13 c || between 28 32 c || (code c =? 133)%N || (code c =? 160)%N.

Definition isascii (c : ascii) : bool := (code c <? 128)%N.

Definition isdigit (c : ascii) : bool := between 48 57 c.
Definition isupper_ascii (c : ascii) : bool := between 65 90 c.
Definition islower_ascii (c : ascii) : bool := between 97 122 c.
Definition isalnum_ascii (c : ascii) : bool :=
  isdigit c || isupper_ascii c || islower_ascii c.

(** [str.lower] on one code point below 256: the ASCII capitals and the
    Latin-1 capitals (all of 192..222 but the multiplication sign 215). *)
Definition lower_char (c : ascii) : ascii :=
  if isupper_ascii c || (between 192 222 c && negb (code c =? 215)%N)
  then ascii_of_N (code c + 32)
  else c.

Definition upper_ascii_char (c : ascii) : ascii :=
  if islower_ascii c then ascii_of_N (code c - 32) else c.

Fixpoint smap (f : ascii -> ascii) (s : string) : string :=
  match s with
  | EmptyString => EmptyString
  | String c r => String (f c) (smap f r)
  end.

Fixpoint sall (p : ascii -> bool) (s : string) : bool :=
  match s with
  | EmptyString => true
  | String c r => p c && sall p r
  end.

Definition lower (s : string) : string := smap lower_char s.
Definition upper (s : string) : string := smap upper_ascii_char s.

Definition len (s : string) : nat := String.length s.

Definition startswith (s p : string) : bool := String.prefix p s.

(** [s[n:]] *)
Fixpoint slice_from (n : nat) (s : string) : string :=
  match n, s with
  | O, _ => s
  | S n', EmptyString => EmptyString
  | S n', String _ r => slice_from n' r
  end.

Fixpoint lstrip (s : string) : string :=
  match s with
  | EmptyString => EmptyString
  | String c r => if isspace c then lstrip r else s
  end.

Fixpoint rstrip (s : string) : string :=
  match s with
  | EmptyString => EmptyString
  | String c r =>
      match rstrip r with
      | EmptyString => if isspace c then EmptyString else String c EmptyString
      | r' => String c r'
      end
  end.

Definition strip (s : string) : string := rstrip (lstrip s).

(** [str.split()] with no argument: the maximal runs of non-space
    characters. *)
Fixpoint split (s : string) : list string :=
  match s with
  | EmptyString => []
  | String c r =>
      if isspace c then split r
      else
        match r with
        | EmptyString => [String c EmptyString]
        | String c' _ =>
            if isspace c' then String c EmptyString :: split r
            else
              match split r with
              | w :: ws => String c w :: ws
              | [] => [String c EmptyString]
              end
        end
  end.

(** [sep.join(ws)] *)
Definition join (sep : string) (ws : list string) : string :=
  String.concat sep ws.

(** [s.encode()] for an ASCII [s]: one byte per character. *)
Definition encode (s : string) : bytes := String.list_byte_of_string s.

Definition nonspace (c : ascii) : bool := negb (isspace c).

(** *** binascii *)
Definition hex_digit (n : N) : ascii :=
  if (n <? 10)%N then ascii_of_N (48 + n) else ascii_of_N (87 + n).

Definition hex_val (c : ascii) : option N :=
  if isdigit c then Some (code c - 48)%N
  else if between 97 102 c then Some (code c - 87)%N
  else if between 65 70 c then Some (code c - 55)%N
  else None.

Definition is_hex (c : ascii) : bool :=
  match hex_val c with Some _ => true | None => false end.

(** A character [hexlify] produces. *)
Definition is_lower_hex (c : ascii) : bool := isdigit c || between 97 102 c.

Definition byte_of_N (n : N) : byte :=
  match Byte.of_N (n mod 256) with
  | Some b => b
  | None => x00
  end.

(** [binascii.hexlify(bs).decode()] *)
Fixpoint hexlify (bs : bytes) : string :=
  match bs with
  | [] => EmptyString
  | b :: r =>
      String (hex_digit (Byte.to_N b / 16))
        (String (hex_digit (Byte.to_N b mod 16)) (hexlify r))
  end.

Fixpoint a2b_hex (s : string) : result bytes :=
  match s with
  | EmptyString => Ok []
  | String _ EmptyString => Raise (BinasciiError "Odd-length string")
  | String c1 (String c2 r) =>
      match hex_val c1, hex_val c2 with
      | Some h, Some l =>
          let* bs := a2b_hex r in Ok (byte_of_N (16 * h + l) :: bs)
      | _, _ => Raise (BinasciiError "Non-hexadecimal digit found")
      end
  end.

(** [binascii.unhexlify] applied to a [str]: a [str] argument has to be
    ASCII-only, which is checked before anything else and reported as a
    plain [ValueError]; the other failures are [binascii.Error]. *)
Definition unhexlify (s : string) : result bytes :=
  if negb (sall isascii s)
  then Raise (ValueError "string argument should contain only ASCII characters")
  else if Nat.odd (len s) then Raise (BinasciiError "Odd-length string")
  else a2b_hex s.

(** *** int.from_bytes and int.to_bytes *)
Definition le_word (bs : bytes) : N :=
  fold_right (fun b acc => (Byte.to_N b + 256 * acc)%N) 0%N bs.

Definition be_word (bs : bytes) : N := le_word (rev bs).

Definition le_bytes (n : nat) (x : N) : bytes :=
  map (fun i => byte_of_N (N.shiftr x (8 * N.of_nat i))) (seq 0 n).

Definition be_bytes (n : nat) (x : N) : bytes := rev (le_bytes n x).

End Py.
Export Py.

(** ** hashlib: MD5 (RFC 1321) and SHA-1 (FIPS 180) on 32-bit words *)
Module Hashlib.
Local Open Scope N_scope.

Definition mask32 : N := 0xFFFFFFFF.
Definition add32 (a b : N) : N := N.land (a + b) mask32.
Definition not32 (a : N) : N := N.lxor a mask32.
Definition rotl32 (x c : N) : N :=
  N.land (N.lor (N.shiftl x c) (N.shiftr x (32 - c))) mask32.

Fixpoint chunks {A} (k : nat) (n : nat) (l : list A) : list (list A) :=
  match n with
  | O => []
  | S n' => firstn k l :: chunks k n' (skipn k l)
  end.

Definition pad_zeros (n : nat) : nat := ((55 + 64 - n mod 64) mod 64)%nat.

(** Merkle-Damgard padding: a one bit, zeros up to 56 modulo 64, then the
    message length in bits on 8 bytes. *)
Definition md_pad (len_bytes : nat -> N -> bytes) (msg : bytes) : bytes :=
  msg ++ x80 :: repeat x00 (pad_zeros (length msg))
      ++ len_bytes 8%nat (8 * N.of_nat (length msg)).

Definition blocks (padded : bytes) : list (list bytes) :=
  map (chunks 4 16) (chunks 64 (length padded / 64) padded).

Module MD5.
Definition K : list N :=
  [0xd76aa478; 0xe8c7b756; 0x242070db; 0xc1bdceee;
   0xf57c0faf; 0x4787c62a; 0xa8304613; 0xfd469501;
   0x698098d8; 0x8b44f7af; 0xffff5bb1; 0x895cd7be;
   0x6b901122; 0xfd987193; 0xa679438e; 0x49b40821;
   0xf61e2562; 0xc040b340; 0x265e5a51; 0xe9b6c7aa;
   0xd62f105d; 0x02441453; 0xd8a1e681; 0xe7d3fbc8;
   0x21e1cde6; 0xc33707d6; 0xf4d50d87; 0x455a14ed;
   0xa9e3e905; 0xfcefa3f8; 0x676f02d9; 0x8d2a4c8a;
   0xfffa3942; 0x8771f681; 0x6d9d6122; 0xfde5380c;
   0xa4beea44; 0x4bdecfa9; 0xf6bb4b60; 0xbebfbc70;
   0x289b7ec6; 0xeaa127fa; 0xd4ef3085; 0x04881d05;
   0xd9d4d039; 0xe6db99e5; 0x1fa27cf8; 0xc4ac5665;
   0xf4292244; 0x432aff97; 0xab9423a7; 0xfc93a039;
   0x655b59c3; 0x8f0ccc92; 0xffeff47d; 0x85845dd1;
   0x6fa87e4f; 0xfe2ce6e0; 0xa3014314; 0x4e0811a1;
   0xf7537e82; 0xbd3af235; 0x2ad7d2bb; 0xeb86d391].

Definition S : list N :=
  [7; 12; 17; 22; 7; 12; 17; 22; 7; 12; 17; 22; 7; 12; 17; 22;
   5; 9; 14; 20; 5; 9; 14; 20; 5; 9; 14; 20; 5; 9; 14; 20;
   4; 11; 16; 23; 4; 11; 16; 23; 4; 11; 16; 23; 4; 11; 16; 23;
   6; 10; 15; 21; 6; 10; 15; 21; 6; 10; 15; 21; 6; 10; 15; 21].

Definition regs : Type := (N * N * N * N)%type.

Definition init : regs :=
  (0x67452301, 0xefcdab89, 0x98badcfe, 0x10325476).

Definition round (M : list N) (r : regs) (i : nat) : regs :=
  let '(A, B, C, D) := r in
  let '(F, g) :=
    if (i <? 16)%nat then (N.lor (N.land B C) (N.land (not32 B) D), i)
    else if (i <? 32)%nat
      then (N.lor (N.land D B) (N.land (not32 D) C), ((5 * i + 1) mod 16)%nat)
    else if (i <? 48)%nat
      then (N.lxor (N.lxor B C) D, ((3 * i + 5) mod 16)%nat)
    else (N.lxor C (N.lor B (not32 D)), ((7 * i) mod 16)%nat) in
  let F' := add32 (add32 (add32 F A) (nth i K 0)) (nth g M 0) in
  (D, add32 B (rotl32 F' (nth i S 0)), B, C).

Definition compress (r : regs) (blk : list bytes) : regs :=
  let M := map le_word blk in
  let '(A, B, C, D) := fold_left (round M) (seq 0 64) r in
  let '(a0, b0, c0, d0) := r in
  (add32 a0 A, add32 b0 B, add32 c0 C, add32 d0 D).

(** [hashlib.md5(msg).digest()] *)
Definition digest (msg : bytes) : bytes :=
  let '(A, B, C, D) :=
    fold_left compress (blocks (md_pad le_bytes msg)) init in
  le_bytes 4 A ++ le_bytes 4 B ++ le_bytes 4 C ++ le_bytes 4 D.
End MD5.

Module SHA1.
Definition regs : Type := (N * N * N * N * N)%type.

Definition init : regs :=
  (0x67452301, 0xEFCDAB89, 0x98BADCFE, 0x10325476, 0xC3D2E1F0).

(** The message schedule, most recent word first. *)
Fixpoint schedule (n : nat) (w : list N) : list N :=
  match n with
  | O => w
  | Datatypes.S n' =>
      let x := N.lxor (N.lxor (nth 2 w 0) (nth 7 w 0))
                      (N.lxor (nth 13 w 0) (nth 15 w 0)) in
      schedule n' (rotl32 x 1 :: w)
  end.

Definition round (r : regs) (iw : nat * N) : regs :=
  let '(i, w) := iw in
  let '(a, b, c, d, e) := r in
  let '(f, k) :=
    if (i <? 20)%nat
      then (N.lor (N.land b c) (N.land (not32 b) d), 0x5A827999)
    else if (i <? 40)%nat then (N.lxor (N.lxor b c) d, 0x6ED9EBA1)
    else if (i <? 60)%nat
      then (N.lor (N.lor (N.land b c) (N.land b d)) (N.land c d), 0x8F1BBCDC)
    else (N.lxor (N.lxor b c) d, 0xCA62C1D6) in
  let temp := add32 (add32 (add32 (add32 (rotl32 a 5) f) e) k) w in
  (temp, a, rotl32 b 30, c, d).

Definition compress (r : regs) (blk : list bytes) : regs :=
  let W := rev (schedule 64 (rev (map be_word blk))) in
  let '(a, b, c, d, e) := fold_left round (combine (seq 0 80) W) r in
  let '(h0, h1, h2, h3, h4) := r in
  (add32 h0 a, add32 h1 b, add32 h2 c, add32 h3 d, add32 h4 e).

(** [hashlib.sha1(msg).digest()] *)
Definition digest (msg : bytes) : bytes :=
  let '(h0, h1, h2, h3, h4) :=
    fold_left compress (blocks (md_pad be_bytes msg)) init in
  be_bytes 4 h0 ++ be_bytes 4 h1 ++ be_bytes 4 h2 ++ be_bytes 4 h3
    ++ be_bytes 4 h4.
End SHA1.

End Hashlib.

(** ** otp2289/generator.py

    Modelled from the spec: [generator.py] is not among the sources, only
    its callers ([server.py], [__main__.py]) and its tests are.  The
    validators, the digest folding, the hash chain and the six-word codec
    below follow sections 4.1 to 4.3 of the specification, the messages
    follow [tests/test_generator.py], and the dictionary is the RFC 2289
    one that [tests/test_static.py] exercises. *)
Module Generator.
Import Hashlib.

(** Modelled from the spec: the [hash_algo] argument of the absent
    validators, an [int] id or a [str] name. *)
Inductive hash_algo_arg :=
  | AlgoId (n : Z)
  | AlgoName (s : string).

(** Modelled from the spec: the id [OTP_ALGO_MD5] of the absent
    [generator.py].  The specification does not fix the numeric values of
    the ids and nothing below depends on them. *)
Definition OTP_ALGO_MD5 : hash_algo_arg := AlgoId 1.

(** Modelled from the spec: the id [OTP_ALGO_SHA1] of the absent
    [generator.py]. *)
Definition OTP_ALGO_SHA1 : hash_algo_arg := AlgoId 2.

(** Modelled from the spec: [OTPGenerator.validate_seed], 1 to 16
    alphanumeric characters, returned unchanged. *)
Definition validate_seed (seed : string) : result string :=
  if (len seed =? 0)%nat || (16 <? len seed)%nat
  then Raise (OTPGeneratorException
                "The seed MUST be of 1 to 16 characters in length")
  else if negb (sall isalnum_ascii seed)
  then Raise (OTPGeneratorException
                "The seed MUST consist of purely alphanumeric characters")
  else Ok seed.

(** Modelled from the spec: [OTPGenerator.validate_hash_algo], one of the
    two supported names or ids, returned as the name. *)
Definition validate_hash_algo (hash_algo : hash_algo_arg) : result string :=
  match hash_algo with
  | AlgoId n =>
      if (n =? 1)%Z then Ok "md5"
      else if (n =? 2)%Z then Ok "sha1"
      else Raise (OTPGeneratorException
                    "hash_algo is not among the known algorithms")
  | AlgoName s =>
      if String.eqb s "md5" || String.eqb s "sha1" then Ok s
      else Raise (OTPGeneratorException
             (s +:+ " is not supported by this version of the hashlib module"))
  end.

(** Modelled from the spec: [OTPGenerator.validate_step], an integer that
    is not negative. *)
Definition validate_step (step : Z) : result Z :=
  if (step <? 0)%Z
  then Raise (OTPGeneratorException "Step value MUST be >= 0")
  else Ok step.

(** Modelled from the spec: the password is a byte string of more than 10
    bytes. *)
Definition validate_password (password : bytes) : result bytes :=
  if (length password <=? 10)%nat
  then Raise (OTPGeneratorException "Password must be longer than 10 bytes")
  else Ok password.

(** Modelled from the spec: [OTPGenerator.strxor], the byte-wise XOR of two
    byte strings. *)
Definition strxor (a b : bytes) : bytes :=
  map (fun xy => byte_of_N (N.lxor (Byte.to_N (fst xy)) (Byte.to_N (snd xy))))
      (combine a b).

(** Modelled from the spec: [OTPGenerator.sha1_digest_folding], the folding
    of RFC 2289 for SHA-1.  The 20 bytes are five big-endian words; the
    third and the fifth are XORed into the first, the fourth into the
    second, and the two words are written least significant byte first. *)
Definition sha1_digest_folding (digest : bytes) : bytes :=
  let w := map be_word (chunks 4 5 digest) in
  let w0 := N.lxor (N.lxor (nth 0 w 0%N) (nth 2 w 0%N)) (nth 4 w 0%N) in
  let w1 := N.lxor (nth 1 w 0%N) (nth 3 w 0%N) in
  le_bytes 4 w0 ++ le_bytes 4 w1.

(** Modelled from the spec: [Fold(Hash(msg))] of the absent generator for
    the algorithm named [algo]: MD5 folded by the XOR of its two halves,
    SHA-1 folded by [sha1_digest_folding]. *)
Definition hash_fold (algo : string) (msg : bytes) : bytes :=
  if String.eqb algo "md5"
  then let digest := MD5.digest msg in
       strxor (firstn 8 digest) (skipn 8 digest)
  else sha1_digest_folding (SHA1.digest msg).

(** Modelled from the spec: the attributes of an [OTPGenerator] object of
    the absent [generator.py]. *)
Record OTPGenerator := {
  g_password : bytes;
  g_seed : string;
  g_hash_algo : string
}.

(** Modelled from the spec: the constructor of [OTPGenerator]. *)
Definition new (password : bytes) (seed : string) (hash_algo : hash_algo_arg)
  : result OTPGenerator :=
  let* p := validate_password password in
  let* s := validate_seed seed in
  let* a := validate_hash_algo hash_algo in
  Ok {| g_password := p; g_seed := s; g_hash_algo := a |}.

(** Modelled from the spec: the loop of the absent [compute_digest], [n]
    more applications of [Fold(Hash(_))] to the running digest. *)
Fixpoint iterate (algo : string) (n : nat) (digest : bytes) : bytes :=
  match n with
  | O => digest
  | S n' => iterate algo n' (hash_fold algo digest)
  end.

(** Modelled from the spec: [compute_digest(step)], the chain value at
    [step]: the folded hash of the lowercased seed followed by the password,
    rehashed [step] times. *)
Definition compute_digest (g : OTPGenerator) (step : Z) : result bytes :=
  let* n := validate_step step in
  Ok (iterate (g_hash_algo g) (Z.to_nat n)
        (hash_fold (g_hash_algo g) (encode (lower (g_seed g)) ++ g_password g))).

(** Modelled from the spec: the fixed, ordered, 2048-entry dictionary of
    the absent [generator.py], which is the dictionary of RFC 2289. *)
Definition WORDS : string :=
  "A ABE ACE ACT AD ADA ADD AGO AID AIM AIR ALL ALP AM AMY AN ANA AND
   ANN ANT ANY APE APS APT ARC ARE ARK ARM ART AS ASH ASK AT ATE AUG
   AUK AVE AWE AWK AWL AWN AX AYE BAD BAG BAH BAM BAN BAR BAT BAY BE
   BED BEE BEG BEN BET BEY BIB BID BIG BIN BIT BOB BOG BON BOO BOP
   BOW BOY BUB BUD BUG BUM BUN BUS BUT BUY BY BYE CAB CAL CAM CAN CAP
   CAR CAT CAW COD COG COL CON COO COP COT COW COY CRY CUB CUE CUP
   CUR CUT DAB DAD DAM DAN DAR DAY DEE DEL DEN DES DEW DID DIE DIG
   DIN DIP DO DOE DOG DON DOT DOW DRY DUB DUD DUE DUG DUN EAR EAT ED
   EEL EGG EGO ELI ELK ELM ELY EM END EST ETC EVA EVE EWE EYE FAD FAN
   FAR FAT FAY FED FEE FEW FIB FIG FIN FIR FIT FLO FLY FOE FOG FOR
   FRY FUM FUN FUR GAB GAD GAG GAL GAM GAP GAS GAY GEE GEL GEM GET
   GIG GIL GIN GO GOT GUM GUN GUS GUT GUY GYM GYP HA HAD HAL HAM HAN
   HAP HAS HAT HAW HAY HE HEM HEN HER HEW HEY HI HID HIM HIP HIS HIT
   HO HOB HOC HOE HOG HOP HOT HOW HUB HUE HUG HUH HUM HUT I ICY IDA
   IF IKE ILL INK INN IO ION IQ IRA IRE IRK IS IT ITS IVY JAB JAG JAM
   JAN JAR JAW JAY JET JIG JIM JO JOB JOE JOG JOT JOY JUG JUT KAY KEG
   KEN KEY KID KIM KIN KIT LA LAB LAC LAD LAG LAM LAP LAW LAY LEA LED
   LEE LEG LEN LEO LET LEW LID LIE LIN LIP LIT LO LOB LOG LOP LOS LOT
   LOU LOW LOY LUG LYE MA MAC MAD MAE MAN MAO MAP MAT MAW MAY ME MEG
   MEL MEN MET MEW MID MIN MIT MOB MOD MOE MOO MOP MOS MOT MOW MUD
   MUG MUM MY NAB NAG NAN NAP NAT NAY NE NED NEE NET NEW NIB NIL NIP
   NIT NO NOB NOD NON NOR NOT NOV NOW NU NUN NUT O OAF OAK OAR OAT
   ODD ODE OF OFF OFT OH OIL OK OLD ON ONE OR ORB ORE ORR OS OTT OUR
   OUT OVA OW OWE OWL OWN OX PA PAD PAL PAM PAN PAP PAR PAT PAW PAY
   PEA PEG PEN PEP PER PET PEW PHI PI PIE PIN PIT PLY PO POD POE POP
   POT POW PRO PRY PUB PUG PUN PUP PUT QUO RAG RAM RAN RAP RAT RAW
   RAY REB RED REP RET RIB RID RIG RIM RIO RIP ROB ROD ROE RON ROT
   ROW ROY RUB RUE RUG RUM RUN RYE SAC SAD SAG SAL SAM SAN SAP SAT
   SAW SAY SEA SEC SEE SEN SET SEW SHE SHY SIN SIP SIR SIS SIT SKI
   SKY SLY SO SOB SOD SON SOP SOW SOY SPA SPY SUB SUD SUE SUM SUN SUP
   TAB TAD TAG TAN TAP TAR TEA TED TEE TEN THE THY TIC TIE TIM TIN
   TIP TO TOE TOG TOM TON TOO TOP TOW TOY TRY TUB TUG TUM TUN TWO UN
   UP US USE VAN VAT VET VIE WAD WAG WAR WAS WAY WE WEB WED WEE WET
   WHO WHY WIN WIT WOK WON WOO WOW WRY WU YAM YAP YAW YE YEA YES YET
   YOU ABED ABEL ABET ABLE ABUT ACHE ACID ACME ACRE ACTA ACTS ADAM
   ADDS ADEN AFAR AFRO AGEE AHEM AHOY AIDA AIDE AIDS AIRY AJAR AKIN
   ALAN ALEC ALGA ALIA ALLY ALMA ALOE ALSO ALTO ALUM ALVA AMEN AMES
   AMID AMMO AMOK AMOS AMRA ANDY ANEW ANNA ANNE ANTE ANTI AQUA ARAB
   ARCH AREA ARGO ARID ARMY ARTS ARTY ASIA ASKS ATOM AUNT AURA AUTO
   AVER AVID AVIS AVON AVOW AWAY AWRY BABE BABY BACH BACK BADE BAIL
   BAIT BAKE BALD BALE BALI BALK BALL BALM BAND BANE BANG BANK BARB
   BARD BARE BARK BARN BARR BASE BASH BASK BASS BATE BATH BAWD BAWL
   BEAD BEAK BEAM BEAN BEAR BEAT BEAU BECK BEEF BEEN BEER BEET BELA
   BELL BELT BEND BENT BERG BERN BERT BESS BEST BETA BETH BHOY BIAS
   BIDE BIEN BILE BILK BILL BIND BING BIRD BITE BITS BLAB BLAT BLED
   BLEW BLOB BLOC BLOT BLOW BLUE BLUM BLUR BOAR BOAT BOCA BOCK BODE
   BODY BOGY BOHR BOIL BOLD BOLO BOLT BOMB BONA BOND BONE BONG BONN
   BONY BOOK BOOM BOON BOOT BORE BORG BORN BOSE BOSS BOTH BOUT BOWL
   BOYD BRAD BRAE BRAG BRAN BRAY BRED BREW BRIG BRIM BROW BUCK BUDD
   BUFF BULB BULK BULL BUNK BUNT BUOY BURG BURL BURN BURR BURT BURY
   BUSH BUSS BUST BUSY BYTE CADY CAFE CAGE CAIN CAKE CALF CALL CALM
   CAME CANE CANT CARD CARE CARL CARR CART CASE CASH CASK CAST CAVE
   CEIL CELL CENT CERN CHAD CHAR CHAT CHAW CHEF CHEN CHEW CHIC CHIN
   CHOU CHOW CHUB CHUG CHUM CITE CITY CLAD CLAM CLAN CLAW CLAY CLOD
   CLOG CLOT CLUB CLUE COAL COAT COCA COCK COCO CODA CODE CODY COED
   COIL COIN COKE COLA COLD COLT COMA COMB COME COOK COOL COON COOT
   CORD CORE CORK CORN COST COVE COWL CRAB CRAG CRAM CRAY CREW CRIB
   CROW CRUD CUBA CUBE CUFF CULL CULT CUNY CURB CURD CURE CURL CURT
   CUTS DADE DALE DAME DANA DANE DANG DANK DARE DARK DARN DART DASH
   DATA DATE DAVE DAVY DAWN DAYS DEAD DEAF DEAL DEAN DEAR DEBT DECK
   DEED DEEM DEER DEFT DEFY DELL DENT DENY DESK DIAL DICE DIED DIET
   DIME DINE DING DINT DIRE DIRT DISC DISH DISK DIVE DOCK DOES DOLE
   DOLL DOLT DOME DONE DOOM DOOR DORA DOSE DOTE DOUG DOUR DOVE DOWN
   DRAB DRAG DRAM DRAW DREW DRUB DRUG DRUM DUAL DUCK DUCT DUEL DUET
   DUKE DULL DUMB DUNE DUNK DUSK DUST DUTY EACH EARL EARN EASE EAST
   EASY EBEN ECHO EDDY EDEN EDGE EDGY EDIT EDNA EGAN ELAN ELBA ELLA
   ELSE EMIL EMIT EMMA ENDS ERIC EROS EVEN EVER EVIL EYED FACE FACT
   FADE FAIL FAIN FAIR FAKE FALL FAME FANG FARM FAST FATE FAWN FEAR
   FEAT FEED FEEL FEET FELL FELT FEND FERN FEST FEUD FIEF FIGS FILE
   FILL FILM FIND FINE FINK FIRE FIRM FISH FISK FIST FITS FIVE FLAG
   FLAK FLAM FLAT FLAW FLEA FLED FLEW FLIT FLOC FLOG FLOW FLUB FLUE
   FOAL FOAM FOGY FOIL FOLD FOLK FOND FONT FOOD FOOL FOOT FORD FORE
   FORK FORM FORT FOSS FOUL FOUR FOWL FRAU FRAY FRED FREE FRET FREY
   FROG FROM FUEL FULL FUME FUND FUNK FURY FUSE FUSS GAFF GAGE GAIL
   GAIN GAIT GALA GALE GALL GALT GAME GANG GARB GARY GASH GATE GAUL
   GAUR GAVE GAWK GEAR GELD GENE GENT GERM GETS GIBE GIFT GILD GILL
   GILT GINA GIRD GIRL GIST GIVE GLAD GLEE GLEN GLIB GLOB GLOM GLOW
   GLUE GLUM GLUT GOAD GOAL GOAT GOER GOES GOLD GOLF GONE GONG GOOD
   GOOF GORE GORY GOSH GOUT GOWN GRAB GRAD GRAY GREG GREW GREY GRID
   GRIM GRIN GRIT GROW GRUB GULF GULL GUNK GURU GUSH GUST GWEN GWYN
   HAAG HAAS HACK HAIL HAIR HALE HALF HALL HALO HALT HAND HANG HANK
   HANS HARD HARK HARM HART HASH HAST HATE HATH HAUL HAVE HAWK HAYS
   HEAD HEAL HEAR HEAT HEBE HECK HEED HEEL HEFT HELD HELL HELM HERB
   HERD HERE HERO HERS HESS HEWN HICK HIDE HIGH HIKE HILL HILT HIND
   HINT HIRE HISS HIVE HOBO HOCK HOFF HOLD HOLE HOLM HOLT HOME HONE
   HONK HOOD HOOF HOOK HOOT HORN HOSE HOST HOUR HOVE HOWE HOWL HOYT
   HUCK HUED HUFF HUGE HUGH HUGO HULK HULL HUNK HUNT HURD HURL HURT
   HUSH HYDE HYMN IBIS ICON IDEA IDLE IFFY INCA INCH INTO IONS IOTA
   IOWA IRIS IRMA IRON ISLE ITCH ITEM IVAN JACK JADE JAIL JAKE JANE
   JAVA JEAN JEFF JERK JESS JEST JIBE JILL JILT JIVE JOAN JOBS JOCK
   JOEL JOEY JOHN JOIN JOKE JOLT JOVE JUDD JUDE JUDO JUDY JUJU JUKE
   JULY JUNE JUNK JUNO JURY JUST JUTE KAHN KALE KANE KANT KARL KATE
   KEEL KEEN KENO KENT KERN KERR KEYS KICK KILL KIND KING KIRK KISS
   KITE KLAN KNEE KNEW KNIT KNOB KNOT KNOW KOCH KONG KUDO KURD KURT
   KYLE LACE LACK LACY LADY LAID LAIN LAIR LAKE LAMB LAME LAND LANE
   LANG LARD LARK LASS LAST LATE LAUD LAVA LAWN LAWS LAYS LEAD LEAF
   LEAK LEAN LEAR LEEK LEER LEFT LEND LENS LENT LEON LESK LESS LEST
   LETS LIAR LICE LICK LIED LIEN LIES LIEU LIFE LIFT LIKE LILA LILT
   LILY LIMA LIMB LIME LIND LINE LINK LINT LION LISA LIST LIVE LOAD
   LOAF LOAM LOAN LOCK LOFT LOGE LOIS LOLA LONE LONG LOOK LOON LOOT
   LORD LORE LOSE LOSS LOST LOUD LOVE LOWE LUCK LUCY LUGE LUKE LULU
   LUND LUNG LURA LURE LURK LUSH LUST LYLE LYNN LYON LYRA MACE MADE
   MAGI MAID MAIL MAIN MAKE MALE MALI MALL MALT MANA MANN MANY MARC
   MARE MARK MARS MART MARY MASH MASK MASS MAST MATE MATH MAUL MAYO
   MEAD MEAL MEAN MEAT MEEK MEET MELD MELT MEMO MEND MENU MERT MESH
   MESS MICE MIKE MILD MILE MILK MILL MILT MIMI MIND MINE MINI MINK
   MINT MIRE MISS MIST MITE MITT MOAN MOAT MOCK MODE MOLD MOLE MOLL
   MOLT MONA MONK MONT MOOD MOON MOOR MOOT MORE MORN MORT MOSS MOST
   MOTH MOVE MUCH MUCK MUDD MUFF MULE MULL MURK MUSH MUST MUTE MUTT
   MYRA MYTH NAGY NAIL NAIR NAME NARY NASH NAVE NAVY NEAL NEAR NEAT
   NECK NEED NEIL NELL NEON NERO NESS NEST NEWS NEWT NIBS NICE NICK
   NILE NINA NINE NOAH NODE NOEL NOLL NONE NOOK NOON NORM NOSE NOTE
   NOUN NOVA NUDE NULL NUMB OATH OBEY OBOE ODIN OHIO OILY OINT OKAY
   OLAF OLDY OLGA OLIN OMAN OMEN OMIT ONCE ONES ONLY ONTO ONUS ORAL
   ORGY OSLO OTIS OTTO OUCH OUST OUTS OVAL OVEN OVER OWLY OWNS QUAD
   QUIT QUOD RACE RACK RACY RAFT RAGE RAID RAIL RAIN RAKE RANK RANT
   RARE RASH RATE RAVE RAYS READ REAL REAM REAR RECK REED REEF REEK
   REEL REID REIN RENA REND RENT REST RICE RICH RICK RIDE RIFT RILL
   RIME RING RINK RISE RISK RITE ROAD ROAM ROAR ROBE ROCK RODE ROIL
   ROLL ROME ROOD ROOF ROOK ROOM ROOT ROSA ROSE ROSS ROSY ROTH ROUT
   ROVE ROWE ROWS RUBE RUBY RUDE RUDY RUIN RULE RUNG RUNS RUNT RUSE
   RUSH RUSK RUSS RUST RUTH SACK SAFE SAGE SAID SAIL SALE SALK SALT
   SAME SAND SANE SANG SANK SARA SAUL SAVE SAYS SCAN SCAR SCAT SCOT
   SEAL SEAM SEAR SEAT SEED SEEK SEEM SEEN SEES SELF SELL SEND SENT
   SETS SEWN SHAG SHAM SHAW SHAY SHED SHIM SHIN SHOD SHOE SHOT SHOW
   SHUN SHUT SICK SIDE SIFT SIGH SIGN SILK SILL SILO SILT SINE SING
   SINK SIRE SITE SITS SITU SKAT SKEW SKID SKIM SKIN SKIT SLAB SLAM
   SLAT SLAY SLED SLEW SLID SLIM SLIT SLOB SLOG SLOT SLOW SLUG SLUM
   SLUR SMOG SMUG SNAG SNOB SNOW SNUB SNUG SOAK SOAR SOCK SODA SOFA
   SOFT SOIL SOLD SOME SONG SOON SOOT SORE SORT SOUL SOUR SOWN STAB
   STAG STAN STAR STAY STEM STEW STIR STOW STUB STUN SUCH SUDS SUIT
   SULK SUMS SUNG SUNK SURE SURF SWAB SWAG SWAM SWAN SWAT SWAY SWIM
   SWUM TACK TACT TAIL TAKE TALE TALK TALL TANK TASK TATE TAUT TEAL
   TEAM TEAR TECH TEEM TEEN TEET TELL TEND TENT TERM TERN TESS TEST
   THAN THAT THEE THEM THEN THEY THIN THIS THUD THUG TICK TIDE TIDY
   TIED TIER TILE TILL TILT TIME TINA TINE TINT TINY TIRE TOAD TOGO
   TOIL TOLD TOLL TONE TONG TONY TOOK TOOL TOOT TORE TORN TOTE TOUR
   TOUT TOWN TRAG TRAM TRAY TREE TREK TRIG TRIM TRIO TROD TROT TROY
   TRUE TUBA TUBE TUCK TUFT TUNA TUNE TUNG TURF TURN TUSK TWIG TWIN
   TWIT ULAN UNIT URGE USED USER USES UTAH VAIL VAIN VALE VARY VASE
   VAST VEAL VEDA VEIL VEIN VEND VENT VERB VERY VETO VICE VIEW VINE
   VISE VOID VOLT VOTE WACK WADE WAGE WAIL WAIT WAKE WALE WALK WALL
   WALT WAND WANE WANG WANT WARD WARM WARN WART WASH WAST WATS WATT
   WAVE WAVY WAYS WEAK WEAL WEAN WEAR WEED WEEK WEIR WELD WELL WELT
   WENT WERE WERT WEST WHAM WHAT WHEE WHEN WHET WHOA WHOM WICK WIFE
   WILD WILL WIND WINE WING WINK WINO WIRE WISE WISH WITH WOLF WONT
   WOOD WOOL WORD WORE WORK WORM WORN WOVE WRIT WYNN YALE YANG YANK
   YARD YARN YAWL YAWN YEAH YEAR YELL YOGA YOKE".

(** Modelled from the spec: the dictionary as the list of its words. *)
Definition DICTIONARY : list string := Eval vm_compute in split WORDS.

(** Modelled from the spec: the two checksum bits of the absent codec, the
    sum of the 32 pairs of bits modulo 4. *)
Definition checksum (n : N) : N :=
  (fold_left (fun acc i => acc + N.land (N.shiftr n (2 * N.of_nat i)) 3)%N
     (seq 0 32) 0%N mod 4)%N.

(** Modelled from the spec: the six 11-bit groups of a 66-bit value in the
    absent codec, most significant first. *)
Definition groups (v : N) : list N :=
  map (fun k => (v / 2048 ^ k) mod 2048)%N [5; 4; 3; 2; 1; 0]%N.

(** Modelled from the spec: the 66-bit value of six groups in the absent
    codec. *)
Definition ungroups (idx : list N) : N :=
  fold_left (fun acc i => acc * 2048 + i)%N idx 0%N.

(** Modelled from the spec: the word of the absent dictionary at an
    index. *)
Definition word_at (i : N) : string :=
  nth (N.to_nat i) DICTIONARY EmptyString.

(** Modelled from the spec: the search of a word in the absent
    dictionary, counting from [k]. *)
Fixpoint index_from (k : N) (w : string) (l : list string) : option N :=
  match l with
  | [] => None
  | x :: r => if String.eqb x w then Some k else index_from (N.succ k) w r
  end.

(** Modelled from the spec: the index of a word of the absent codec, in
    any case; an unknown word is an error. *)
Definition word_index (w : string) : result N :=
  match index_from 0 (upper w) DICTIONARY with
  | Some i => Ok i
  | None => Raise (OTPGeneratorException "Unknown word in the token")
  end.

(** A word is a single token: it is not empty and has no white space. *)
Definition word_ok (w : string) : bool :=
  negb (String.eqb w EmptyString) && sall nonspace w.

(** The entry [i] of the dictionary is a word, and looking it up gives
    [i] back. *)
Definition entry_ok (i : N) : bool :=
  word_ok (word_at i) &&
  match word_index (word_at i) with
  | Ok j => (i =? j)%N
  | Raise _ => false
  end.

(** Modelled from the spec: the indices of the words of a token in the
    absent codec. *)
Fixpoint word_indices (ws : list string) : result (list N) :=
  match ws with
  | [] => Ok []
  | w :: r =>
      let* i := word_index w in
      let* idx := word_indices r in
      Ok (i :: idx)
  end.

(** Modelled from the spec: [OTPGenerator.bytes_to_tokens], 8 bytes to six
    words: the 64 bits followed by their checksum are cut into six groups
    of 11 bits and each group is looked up in the dictionary. *)
Definition bytes_to_tokens (b : bytes) : result string :=
  if negb (length b =? 8)%nat
  then Raise (OTPGeneratorException "The digest must be 8 bytes long")
  else
    let n := be_word b in
    Ok (join " " (map word_at (groups (4 * n + checksum n)%N))).

(** Modelled from the spec: [OTPGenerator.tokens_to_bytes], six words in
    any case to 8 bytes; an unknown word and a wrong checksum are
    errors. *)
Definition tokens_to_bytes (tokens : string) : result bytes :=
  let ws := split tokens in
  if negb (length ws =? 6)%nat
  then Raise (OTPGeneratorException "The token must consist of six words")
  else
    let* idx := word_indices ws in
    let v := ungroups idx in
    if (checksum (v / 4) =? v mod 4)%N
    then Ok (be_bytes 8 (v / 4))
    else Raise (OTPGeneratorException "The checksum of the token is wrong").

(** Modelled from the spec: [generate_otp_hexdigest] of the absent
    generator, the chain value as [0x] and 16 lower-case hexadecimal
    digits. *)
Definition generate_otp_hexdigest (g : OTPGenerator) (step : Z)
  : result string :=
  let* d := compute_digest g step in Ok ("0x" +:+ hexlify d).

(** Modelled from the spec: [generate_otp_words] of the absent generator,
    the chain value as six words. *)

Definition generate_otp_words (g : OTPGenerator) (step : Z) : result string :=
  let* d := compute_digest g step in bytes_to_tokens d.

End Generator.

Global Instance byte_eq_dec : EqDecision byte := Byte.byte_eq_dec.

(** ** src/otp2289/server.py *)
Module OTPState.
Import Hashlib Generator.

(** An [OTPState] object: the attributes set by [__init__]. *)
Record t := {
  _seed : string;
  _hash_algo : string;
  _step : Z;
  _current_digest : option bytes;
  _new_digest_hex : option string
}.

(** [except OTPGeneratorException as exp: raise OTPStateException(exp.args[0])] *)
Definition reraise {A} (r : result A) : result A :=
  match r with
  | Raise (OTPGeneratorException msg) => Raise (OTPStateException msg)
  | _ => r
  end.

Definition validate_hex (ot_hex : string) : result bytes :=
  let ot_hex :=
    if startswith ot_hex "0x"
    then lower (strip (slice_from 2 ot_hex))
    else ot_hex in
  if negb (len ot_hex =? 16)%nat
  then Raise (OTPStateException
         "The length of the hex should be 16 (representing 64 bits digest)")
  else
    match unhexlify ot_hex with
    | Raise (BinasciiError _) => Raise (OTPStateException "Invalid OT-hex")
    | r => r
    end.

Definition __init__ (ot_hex : option string) (current_step : Z)
    (seed : string) (hash_algo : hash_algo_arg) : result t :=
  let* seed' := reraise (validate_seed seed) in
  let* algo := reraise (validate_hash_algo hash_algo) in
  let* step := reraise (validate_step current_step) in
  let* digest :=
    match ot_hex with
    | None => Ok None
    | Some h => let* d := validate_hex h in Ok (Some d)
    end in
  Ok {| _seed := seed'; _hash_algo := algo; _step := step;
        _current_digest := digest; _new_digest_hex := None |}.

(** The [validated] property. *)
Definition validated (self : t) : bool :=
  match _new_digest_hex self with
  | Some h => negb (len h =? 0)%nat
  | None => false
  end.

Definition response_to_bytes (response : string) : result bytes :=
  match tokens_to_bytes response with
  | Raise (OTPGeneratorException _) =>
      (* now assume hex... *)
      match validate_hex response with
      | Raise (OTPStateException _) =>
          Raise (OTPInvalidResponse
                   "The response is neither a valid token or hex")
      | r => r
      end
  | r => r
  end.

Definition get_next_state (self : t) : result (option t) :=
  match _new_digest_hex self with
  | None => Ok None
  | Some h =>
      let* next :=
        __init__ (Some h) (_step self - 1) (_seed self)
          (AlgoName (_hash_algo self)) in
      Ok (Some next)
  end.

Definition set_new_digest_hex (self : t) (h : string) : t :=
  {| _seed := _seed self; _hash_algo := _hash_algo self;
     _step := _step self; _current_digest := _current_digest self;
     _new_digest_hex := Some h |}.

(** [self._current_digest is None or folded == self._current_digest] *)
Definition matches (self : t) (folded : bytes) : bool :=
  match _current_digest self with
  | None => true
  | Some d => bool_decide (folded = d)
  end.

(** The method returns [self] after the call next to its result: a valid
    response is recorded in [_new_digest_hex] when it is to be stored. *)
Definition response_validates (self : t) (response : string)
    (store_valid_response : bool) : t * result bool :=
  match response_to_bytes response with
  | Raise e => (self, Raise e)
  | Ok response_bytes =>
      if String.eqb (_hash_algo self) "md5" then
        let digest := MD5.digest response_bytes in
        if matches self (strxor (firstn 8 digest) (skipn 8 digest)) then
          ((if store_valid_response
            then set_new_digest_hex self (hexlify response_bytes)
            else self), Ok true)
        else (self, Ok false)
      else if String.eqb (_hash_algo self) "sha1" then
        if matches self (sha1_digest_folding (SHA1.digest response_bytes)) then
          ((if store_valid_response
            then set_new_digest_hex self (hexlify response_bytes)
            else self), Ok true)
        else (self, Ok false)
      else
        (* this should not happen since the hash_algo is validated by the
           caller *)
        (self, Raise (OTPInvalidResponse
                        ("Ivalid hash_algo: " +:+ _hash_algo self)))
  end.

(** What [__init__] establishes and [response_validates] keeps. *)
Definition wf (self : t) : Prop :=
  validate_seed (_seed self) = Ok (_seed self) /\
  (_hash_algo self = "md5" \/ _hash_algo self = "sha1") /\
  (0 <= _step self)%Z.

(** The life of an [OTPState] object: it is built by [__init__] from
    [ot_hex], and then [response_validates] is called on it any number of
    times.  [pending] is the bytes of the last response that was accepted
    with [store_valid_response] set, if there was one. *)
Inductive history (ot_hex : option string) : t -> option bytes -> Prop :=
  | history_init step seed algo self :
      __init__ ot_hex step seed algo = Ok self ->
      history ot_hex self None
  | history_kept self pending response store self' r :
      history ot_hex self pending ->
      response_validates self response store = (self', r) ->
      store = false \/ r <> Ok true ->
      history ot_hex self' pending
  | history_stored self pending response b self' :
      history ot_hex self pending ->
      response_to_bytes response = Ok b ->
      response_validates self response true = (self', Ok true) ->
      history ot_hex self' (Some b).

(** The object [get_next_state] builds from [self] once [b] is pending. *)
Definition next_of (self : t) (b : bytes) : t :=
  {| _seed := _seed self; _hash_algo := _hash_algo self;
     _step := _step self - 1; _current_digest := Some b;
     _new_digest_hex := None |}.

End OTPState.

Module OTPStore.
Import Generator.

(** The two dictionaries of an [OTPStore]: [_data] from keys to states and
    [_states] from states to keys.  [OTPState] defines neither [__eq__] nor
    [__hash__], so [_states] is keyed by the identity of the objects. *)
Record t := {
  _data : gmap string pyval;
  _states : gmap pyval string
}.

(** The objects in memory and the store. *)
Record world := {
  heap : gmap loc OTPState.t;
  store : t
}.

Definition empty_store : t := {| _data := ∅; _states := ∅ |}.

Definition set_heap (w : world) (h : gmap loc OTPState.t) : world :=
  {| heap := h; store := store w |}.

(** The object a reference points to, and the heap after a method has
    mutated that object. *)
Definition deref (h : gmap loc OTPState.t) (v : pyval) : option OTPState.t :=
  match v with
  | Some l => h !! l
  | None => None
  end.

Definition update (h : gmap loc OTPState.t) (v : pyval) (self : OTPState.t)
  : gmap loc OTPState.t :=
  match v with
  | Some l => <[l := self]> h
  | None => h
  end.

(** [isinstance(state, OTPState)] *)
Definition is_state (h : gmap loc OTPState.t) (state : pyval) : bool :=
  match deref h state with
  | Some _ => true
  | None => false
  end.

(** [OTPState(ot_hex, current_step, seed, hash_algo)]: the new object gets
    an identity no object has. *)
Definition new_state (ot_hex : option string) (current_step : Z)
    (seed : string) (hash_algo : hash_algo_arg) (w : world)
  : world * result pyval :=
  match OTPState.__init__ ot_hex current_step seed hash_algo with
  | Raise e => (w, Raise e)
  | Ok st =>
      let l := fresh (dom (heap w)) in
      (set_heap w (<[l := st]> (heap w)), Ok (Some l))
  end.

Definition add_state (key : string) (state : pyval) (w : world)
  : world * result unit :=
  if negb (is_state (heap w) state)
  then (w, Raise (OTPStoreException "state must be an OTPState-object"))
  else
    ({| heap := heap w;
        store := {| _data := <[key := state]> (_data (store w));
                    _states := <[state := key]> (_states (store w)) |} |},
     Ok tt).

(** [dict.pop] twice: when the second one raises, the first one has
    already removed the key. *)
Definition pop_state (key : string) (w : world) : world * result pyval :=
  match _data (store w) !! key with
  | None => (w, Raise (KeyError (KeyStr key)))
  | Some state =>
      let data := delete key (_data (store w)) in
      match _states (store w) !! state with
      | None =>
          ({| heap := heap w;
              store := {| _data := data; _states := _states (store w) |} |},
           Raise (KeyError (KeyObj state)))
      | Some _ =>
          ({| heap := heap w;
              store := {| _data := data;
                          _states := delete state (_states (store w)) |} |},
           Ok state)
      end
  end.

Definition response_validates (key response : string)
    (store_valid_response : bool) (w : world) : world * result bool :=
  match _data (store w) !! key with
  | None => (w, Raise (KeyError (KeyStr key)))
  | Some state =>
      match deref (heap w) state with
      | None =>
          (w, Raise (AttributeError
                 "'NoneType' object has no attribute 'response_validates'"))
      | Some self =>
          let '(self', r) :=
            OTPState.response_validates self response store_valid_response in
          let h := update (heap w) state self' in
          match r with
          | Raise e => (set_heap w h, Raise e)
          | Ok rvalue =>
              if rvalue && store_valid_response then
                match OTPState.get_next_state self' with
                | Raise e => (set_heap w h, Raise e)
                | Ok next =>
                    let l := fresh (dom h) in
                    let next_state :=
                      match next with Some _ => Some l | None => None end in
                    let h' :=
                      match next with Some n => <[l := n]> h | None => h end in
                    let data := <[key := next_state]> (_data (store w)) in
                    let states := <[next_state := key]> (_states (store w)) in
                    match states !! state with
                    | None =>
                        ({| heap := h';
                            store := {| _data := data; _states := states |} |},
                         Raise (KeyError (KeyObj state)))
                    | Some _ =>
                        ({| heap := h';
                            store := {| _data := data;
                                        _states := delete state states |} |},
                         Ok rvalue)
                    end
                end
              else (set_heap w h, Ok rvalue)
          end
      end
  end.

(** One entry of the dictionary given to [_add_data]. *)
Record state_dict := {
  ot_hex : option string;
  current_step : Z;
  seed : string;
  hash_algo : hash_algo_arg
}.

Fixpoint _add_data (dict_obj : list (string * state_dict)) (w : world)
  : world * result unit :=
  match dict_obj with
  | [] => (w, Ok tt)
  | (key, d) :: rest =>
      match new_state (ot_hex d) (current_step d) (seed d) (hash_algo d) w with
      | (w1, Raise e) => (w1, Raise e)
      | (w1, Ok state) =>
          match add_state key state w1 with
          | (w2, Raise e) => (w2, Raise e)
          | (w2, Ok _) => _add_data rest w2
          end
      end
  end.

(** [OTPStore(data)] in a memory that holds the objects [h]. *)
Definition __init__ (data : list (string * state_dict))
    (h : gmap loc OTPState.t) : world * result unit :=
  _add_data data {| heap := h; store := empty_store |}.

(** The two dictionaries agree: they have the same size, and the state
    bound to a key is registered under that key. *)
Definition bijective (s : t) : Prop :=
  size (_data s) = size (_states s) /\
  forall k v, _data s !! k = Some v -> _states s !! v = Some k.

(** Every registered state is an object of the heap. *)
Definition registered_live (w : world) : Prop :=
  forall v k, _states (store w) !! v = Some k -> is_state (heap w) v = true.

Definition inv (w : world) : Prop := bijective (store w) /\ registered_live w.

(** The worlds a program reaches from an empty store: it creates and
    mutates objects, calls [add_state] when [allowed], calls [pop_state],
    and calls [response_validates] with [store_valid_response] set, of
    which only the calls that return [True] are followed. *)
Inductive reachable (allowed : string -> pyval -> t -> Prop)
  : world -> Prop :=
  | reach_empty h :
      reachable allowed {| heap := h; store := empty_store |}
  | reach_objects w h :
      reachable allowed w -> dom (heap w) ⊆ dom h ->
      reachable allowed (set_heap w h)
  | reach_add w key state :
      reachable allowed w -> allowed key state (store w) ->
      reachable allowed (fst (add_state key state w))
  | reach_pop w key :
      reachable allowed w -> reachable allowed (fst (pop_state key w))
  | reach_validate w key response w' :
      reachable allowed w ->
      response_validates key response true w = (w', Ok true) ->
      reachable allowed w'.

(** [add_state] with any key and any state. *)
Definition any_add (key : string) (state : pyval) (s : t) : Prop := True.

(** [add_state] with a key that is not bound and a state that is not
    registered. *)
Definition new_add (key : string) (state : pyval) (s : t) : Prop :=
  _data s !! key = None /\ _states s !! state = None.

End OTPStore.

(** ** The objects of the examples *)
Module Examples.
Import Generator.

(** The digest of the RFC examples for MD5 at step 0. *)
Definition rfc_md5_0 : bytes := [x9e; x87; x61; x34; xd9; x04; x99; xdd].

Definition rfc_generator (algo : string) : OTPGenerator :=
  {| g_password := encode "This is a test."; g_seed := "TeSt";
     g_hash_algo := algo |}.

(** [OTPState('0x7965e05436f5029f', 1, 'TeSt', OTP_ALGO_MD5)] *)
Definition sgs_state : OTPState.t :=
  {| OTPState._seed := "TeSt"; OTPState._hash_algo := "md5";
     OTPState._step := 1;
     OTPState._current_digest :=
       Some [x79; x65; xe0; x54; x36; xf5; x02; x9f];
     OTPState._new_digest_hex := None |}.

(** [sgs_state] after it has accepted and stored the value at step 0. *)
Definition sgs_validated : OTPState.t :=
  OTPState.set_new_digest_hex sgs_state "9e876134d90499dd".

(** [OTPState(None, 0, 'TeSt', OTP_ALGO_MD5)] after it has accepted and
    stored a response. *)
Definition exhausted : OTPState.t :=
  {| OTPState._seed := "TeSt"; OTPState._hash_algo := "md5";
     OTPState._step := 0; OTPState._current_digest := None;
     OTPState._new_digest_hex := Some "9e876134d90499dd" |}.

(** [OTPState(None, 99, 'TeSt', OTP_ALGO_SHA1)] *)
Definition bootstrap_state : OTPState.t :=
  {| OTPState._seed := "TeSt"; OTPState._hash_algo := "sha1";
     OTPState._step := 99; OTPState._current_digest := None;
     OTPState._new_digest_hex := None |}.

(** Sixteen times the character U+00E9. *)
Definition non_ascii_response : string :=
  string_of_list_ascii (repeat (ascii_of_N 233) 16).

Definition two_objects : OTPStore.world :=
  {| OTPStore.heap := {[ 1%positive := sgs_state; 2%positive := sgs_state ]};
     OTPStore.store := OTPStore.empty_store |}.

(** [add_state('a', s1); add_state('a', s2)] *)
Definition rebound : OTPStore.world :=
  fst (OTPStore.add_state "a" (Some 2%positive)
         (fst (OTPStore.add_state "a" (Some 1%positive) two_objects))).

(** [add_state('a', s1); add_state('b', s1)] *)
Definition shared : OTPStore.world :=
  fst (OTPStore.add_state "b" (Some 1%positive)
         (fst (OTPStore.add_state "a" (Some 1%positive) two_objects))).

Definition shared_validated : OTPStore.world :=
  fst (OTPStore.response_validates "a" "0x9e876134d90499dd" true shared).

(** The store of [test_store], and what [response_validates] makes of
    it. *)
Definition store_data : list (string * OTPStore.state_dict) :=
  [("sgs", {| OTPStore.ot_hex := Some "0x7965e05436f5029f";
              OTPStore.current_step := 1; OTPStore.seed := "TeSt";
              OTPStore.hash_algo := AlgoName "md5" |});
   ("blackmore", {| OTPStore.ot_hex := Some "0x63d936639734385b";
                    OTPStore.current_step := 1; OTPStore.seed := "TeSt";
                    OTPStore.hash_algo := AlgoName "sha1" |})].

Definition test_store : OTPStore.world := fst (OTPStore.__init__ store_data ∅).

Definition sgs_world : OTPStore.world :=
  fst (OTPStore.add_state "sgs" (Some 1%positive)
         {| OTPStore.heap := {[ 1%positive := sgs_state ]};
            OTPStore.store := OTPStore.empty_store |}).

Definition sgs_advanced : OTPStore.world :=
  fst (OTPStore.response_validates "sgs" "0x9e876134d90499dd" true sgs_world).

(** The vectors of [test_bytes_and_tokens] in [tests/test_static.py]. *)
Definition static_vectors : list (string * string) :=
  [("9e876134d90499dd", "INCH SEA ANNE LONG AHEM TOUR");
   ("7965e05436f5029f", "EASE OIL FUM CURE AWRY AVIS");
   ("50fe1962c4965880", "BAIL TUFT BITS GANG CHEF THY");
   ("87066dd9644bf206", "FULL PEW DOWN ONCE MORT ARC");
   ("7cd34c1040add14b", "FACT HOOF AT FIST SITE KENT");
   ("5aa37a81f212146c", "BODE HOP JAKE STOW JUT RAP");
   ("f205753943de4cf9", "ULAN NEW ARMY FUSE SUIT EYED");
   ("ddcdac956f234937", "SKIM CULT LOB SLAM POE HOWL");
   ("b203e28fa525be47", "LONG IVY JULY AJAR BOND LEE");
   ("bb9e6ae1979d8ff4", "MILT VARY MAST OK SEES WENT");
   ("63d936639734385b", "CART OTTO HIVE ODE VAT NUT");
   ("87fec7768b73ccf9", "GAFF WAIT SKID GIG SKY EYED");
   ("ad85f658ebe383c9", "LEST OR HEEL SCOT ROB SUIT");
   ("d07ce229b5cf119b", "RITE TAKE GELD COST TUNE RECK");
   ("27bc71035aaf3dc6", "MAY STAR TIN LYON VEDA STAN");
   ("d51f3e99bf8e6f0b", "RUST WELT KICK FELL TAIL FRAU");
   ("82aeb52d943774e4", "FLIT DOSE ALSO MEW DRUM DEFY");
   ("4f296a74fe1567ec", "AURA ALOE HURL WING BERG WAIT")].

Definition static_vector_ok (v : string * string) : bool :=
  match unhexlify (fst v), tokens_to_bytes (snd v) with
  | Ok a, Ok b => bool_decide (a = b)
  | _, _ => false
  end.

(** The vectors of [test_md5] and [test_sha1] in
    [tests/test_generator.py]: password, seed, algorithm, step, digest and
    words. *)
Definition generator_vectors
  : list (string * string * hash_algo_arg * Z * string * string) :=
  [("This is a test.", "TeSt", OTP_ALGO_MD5, 0%Z,
    "0x9e876134d90499dd", "INCH SEA ANNE LONG AHEM TOUR");
   ("This is a test.", "TeSt", OTP_ALGO_MD5, 1%Z,
    "0x7965e05436f5029f", "EASE OIL FUM CURE AWRY AVIS");
   ("This is a test.", "TeSt", OTP_ALGO_MD5, 99%Z,
    "0x50fe1962c4965880", "BAIL TUFT BITS GANG CHEF THY");
   ("AbCdEfGhIjK", "alpha1", OTP_ALGO_MD5, 0%Z,
    "0x87066dd9644bf206", "FULL PEW DOWN ONCE MORT ARC");
   ("AbCdEfGhIjK", "alpha1", OTP_ALGO_MD5, 1%Z,
    "0x7cd34c1040add14b", "FACT HOOF AT FIST SITE KENT");
   ("AbCdEfGhIjK", "alpha1", OTP_ALGO_MD5, 99%Z,
    "0x5aa37a81f212146c", "BODE HOP JAKE STOW JUT RAP");
   ("OTP's are good", "correct", OTP_ALGO_MD5, 0%Z,
    "0xf205753943de4cf9", "ULAN NEW ARMY FUSE SUIT EYED");
   ("OTP's are good", "correct", OTP_ALGO_MD5, 1%Z,
    "0xddcdac956f234937", "SKIM CULT LOB SLAM POE HOWL");
   ("OTP's are good", "correct", OTP_ALGO_MD5, 99%Z,
    "0xb203e28fa525be47", "LONG IVY JULY AJAR BOND LEE");
   ("This is a test.", "TeSt", OTP_ALGO_SHA1, 0%Z,
    "0xbb9e6ae1979d8ff4", "MILT VARY MAST OK SEES WENT");
   ("This is a test.", "TeSt", OTP_ALGO_SHA1, 1%Z,
    "0x63d936639734385b", "CART OTTO HIVE ODE VAT NUT");
   ("This is a test.", "TeSt", OTP_ALGO_SHA1, 99%Z,
    "0x87fec7768b73ccf9", "GAFF WAIT SKID GIG SKY EYED");
   ("AbCdEfGhIjK", "alpha1", OTP_ALGO_SHA1, 0%Z,
    "0xad85f658ebe383c9", "LEST OR HEEL SCOT ROB SUIT");
   ("AbCdEfGhIjK", "alpha1", OTP_ALGO_SHA1, 1%Z,
    "0xd07ce229b5cf119b", "RITE TAKE GELD COST TUNE RECK");
   ("AbCdEfGhIjK", "alpha1", OTP_ALGO_SHA1, 99%Z,
    "0x27bc71035aaf3dc6", "MAY STAR TIN LYON VEDA STAN");
   ("OTP's are good", "correct", OTP_ALGO_SHA1, 0%Z,
    "0xd51f3e99bf8e6f0b", "RUST WELT KICK FELL TAIL FRAU");
   ("OTP's are good", "correct", OTP_ALGO_SHA1, 1%Z,
    "0x82aeb52d943774e4", "FLIT DOSE ALSO MEW DRUM DEFY");
   ("OTP's are good", "correct", OTP_ALGO_SHA1, 99%Z,
    "0x4f296a74fe1567ec", "AURA ALOE HURL WING BERG WAIT")].

Definition generator_vector_ok
    (v : string * string * hash_algo_arg * Z * string * string) : bool :=
  let '(password, seed, algo, step, digest, words) := v in
  match new (encode password) seed algo with
  | Ok g =>
      match generate_otp_hexdigest g step, generate_otp_words g step with
      | Ok d, Ok w => String.eqb d digest && String.eqb w words
      | _, _ => false
      end
  | Raise _ => false
  end.

(** The shape of the text a response may have when it is read without
    regard to case: an optional prefix that reads [0x], then 16
    hexadecimal digits. *)
Definition hex_text_any_case (s : string) : Prop :=
  exists p h, s = p +:+ h /\ (p = EmptyString \/ lower p = "0x") /\
              len h = 16%nat /\ sall is_hex h = true.

End Examples.

(** ** The remaining methods of [src/otp2289/server.py] *)

(** [str(n)] for an [int], as in [f'{n}']. *)
Definition str_of_int (n : Z) : string :=
  DecimalString.NilEmpty.string_of_int (Z.to_int n).

Module StateViews.
Import Generator OTPState.

(** The text [validate_hex] measures and converts: after the prefix [0x]
    the rest is stripped and lower-cased, without it the text is taken as
    it is. *)
Definition hex_body (ot_hex : string) : string :=
  if startswith ot_hex "0x" then lower (strip (slice_from 2 ot_hex))
  else ot_hex.

(** The [challenge_string] property. *)
Definition challenge_string (self : t) : string :=
  "otp-" +:+ _hash_algo self +:+ " " +:+ str_of_int (_step self) +:+ " "
    +:+ _seed self +:+ " ".

(** The [ot_hex] property. *)
Definition ot_hex (self : t) : string :=
  match _current_digest self with
  | None => EmptyString
  | Some d => hexlify d
  end.

(** [to_dict]: the dictionary has the four keys of
    [OTPStore.state_dict]. *)
Definition to_dict (self : t) : OTPStore.state_dict :=
  {| OTPStore.ot_hex :=
       match _current_digest self with
       | None => None
       | Some d => Some (hexlify d)
       end;
     OTPStore.current_step := _step self;
     OTPStore.seed := _seed self;
     OTPStore.hash_algo := AlgoName (_hash_algo self) |}.

(** [from_dict]: the constructor called with the entries of [dict_obj]
    as keyword arguments. *)
Definition from_dict (dict_obj : OTPStore.state_dict) : result t :=
  __init__ (OTPStore.ot_hex dict_obj) (OTPStore.current_step dict_obj)
    (OTPStore.seed dict_obj) (OTPStore.hash_algo dict_obj).

(** [self] with nothing pending. *)
Definition clear_pending (self : t) : t :=
  {| _seed := _seed self; _hash_algo := _hash_algo self;
     _step := _step self; _current_digest := _current_digest self;
     _new_digest_hex := None |}.

End StateViews.

Module StoreViews.
Import Generator OTPStore.

(** [state in store] *)
Definition __contains__ (w : world) (state : pyval) : bool :=
  bool_decide (is_Some (_states (store w) !! state)).

(** [len(store)] *)
Definition __len__ (w : world) : nat := size (_data (store w)).

(** [store.get(key, default)] *)
Definition get (w : world) (key : string) (default : pyval) : pyval :=
  match _data (store w) !! key with
  | Some state => state
  | None => default
  end.

(** [to_dict]: [{key: state.to_dict() for key, state in
    self._data.items()}]. *)
Definition to_dict (w : world) : result (gmap string state_dict) :=
  if bool_decide (map_Forall (fun _ state => is_state (heap w) state = true)
                    (_data (store w)))
  then Ok (omap (fun state => StateViews.to_dict <$> deref (heap w) state)
             (_data (store w)))
  else Raise (AttributeError
                "'NoneType' object has no attribute 'to_dict'").

(** One round of the loop of [_add_data] on an entry the constructor
    accepts: the new object [st] gets an identity no object has, and
    [add_state] binds [key] to it. *)
Definition with_entry (key : string) (st : OTPState.t) (w : world) : world :=
  {| heap := <[fresh (dom (heap w)) := st]> (heap w);
     store := {| _data := <[key := Some (fresh (dom (heap w)))]>
                            (_data (store w));
                 _states := <[Some (fresh (dom (heap w))) := key]>
                              (_states (store w)) |} |}.

(** Every key of the store is bound to a constructed state. *)
Definition constructed (w : world) : Prop :=
  forall k v, _data (store w) !! k = Some v ->
    exists l st ot pending,
      v = Some l /\ heap w !! l = Some st /\ OTPState.history ot st pending.

End StoreViews.

Module StoreExamples.
Import Generator.

(** [OTPState(None, 0, 'TeSt', OTP_ALGO_MD5)] *)
Definition last_state : OTPState.t :=
  {| OTPState._seed := "TeSt"; OTPState._hash_algo := "md5";
     OTPState._step := 0; OTPState._current_digest := None;
     OTPState._new_digest_hex := None |}.

(** A store with the key [sgs] bound to [last_state]. *)
Definition last_world : OTPStore.world :=
  fst (OTPStore.add_state "sgs" (Some 1%positive)
         {| OTPStore.heap := {[ 1%positive := last_state ]};
            OTPStore.store := OTPStore.empty_store |}).

End StoreExamples.

(** * Proofs *)

(** Case analysis on the 256 characters. *)
Ltac ascii_cases c :=
  destruct c as [[] [] [] [] [] [] [] []]; vm_compute; congruence.

(** * Properties of the runtime fragment *)
Section PyFacts.

Lemma byte_to_N_lt (b : byte) : (Byte.to_N b < 256)%N.
Proof. pose proof (Byte.to_N_bounded b). lia. Qed.

Lemma byte_of_to_N (b : byte) (k : N) :
  byte_of_N (Byte.to_N b + 256 * k) = b.
Proof.
  unfold byte_of_N.
  replace ((Byte.to_N b + 256 * k) mod 256)%N with (Byte.to_N b).
  - now rewrite Byte.of_to_N.
  - pose proof (byte_to_N_lt b).
    rewrite (N.mul_comm 256 k), N.Div0.mod_add.
    symmetry. now apply N.mod_small.
Qed.

Lemma to_N_byte_of_N (n : N) : (n < 256)%N -> Byte.to_N (byte_of_N n) = n.
Proof.
  intros Hn. unfold byte_of_N. rewrite N.mod_small by assumption.
  destruct (Byte.of_N n) as [b|] eqn:E.
  - now apply Byte.to_of_N.
  - apply Byte.of_N_None_iff in E. lia.
Qed.

Lemma length_le_bytes (n : nat) (x : N) : length (le_bytes n x) = n.
Proof. unfold le_bytes. now rewrite length_map, length_seq. Qed.

Lemma length_be_bytes (n : nat) (x : N) : length (be_bytes n x) = n.
Proof. unfold be_bytes. now rewrite length_rev, length_le_bytes. Qed.

Lemma le_bytes_S (n : nat) (x : N) :
  le_bytes (S n) x = byte_of_N x :: le_bytes n (N.shiftr x 8).
Proof.
  unfold le_bytes. cbn [seq map]. f_equal.
  rewrite <- seq_shift, map_map. apply map_ext. intros i.
  rewrite N.shiftr_shiftr. do 2 f_equal. lia.
Qed.

Lemma shiftr_byte_cons (b : byte) (w : N) :
  N.shiftr (Byte.to_N b + 256 * w) 8 = w.
Proof.
  rewrite N.shiftr_div_pow2. change (2 ^ 8)%N with 256%N.
  pose proof (byte_to_N_lt b).
  rewrite (N.mul_comm 256), N.div_add by lia.
  rewrite (N.div_small (Byte.to_N b)) by assumption. apply N.add_0_l.
Qed.

Lemma le_bytes_le_word (bs : bytes) : le_bytes (length bs) (le_word bs) = bs.
Proof.
  induction bs as [|b bs IH]; [reflexivity|].
  cbn [length]. rewrite le_bytes_S.
  change (le_word (b :: bs)) with (Byte.to_N b + 256 * le_word bs)%N.
  now rewrite byte_of_to_N, shiftr_byte_cons, IH.
Qed.

Lemma be_bytes_be_word (bs : bytes) : be_bytes (length bs) (be_word bs) = bs.
Proof.
  unfold be_bytes, be_word.
  rewrite <- (length_rev bs), le_bytes_le_word. apply rev_involutive.
Qed.

Lemma le_word_lt (bs : bytes) : (le_word bs < 256 ^ N.of_nat (length bs))%N.
Proof.
  induction bs as [|b bs IH]; [cbn; lia|].
  change (le_word (b :: bs)) with (Byte.to_N b + 256 * le_word bs)%N.
  cbn [length]. rewrite Nat2N.inj_succ, N.pow_succ_r'.
  pose proof (byte_to_N_lt b). lia.
Qed.

Lemma be_word_lt (bs : bytes) : (be_word bs < 256 ^ N.of_nat (length bs))%N.
Proof. unfold be_word. rewrite <- (length_rev bs). apply le_word_lt. Qed.

End PyFacts.

(** * Strings: hexadecimal text, stripping and splitting *)
Section StringFacts.

Lemma string_ind2 (P : string -> Prop) :
  P EmptyString ->
  (forall c, P (String c EmptyString)) ->
  (forall c1 c2 s, P s -> P (String c1 (String c2 s))) ->
  forall s, P s.
Proof.
  intros H0 H1 H2. fix IH 1. intros [|c1 [|c2 s]].
  - exact H0.
  - apply H1.
  - apply H2, IH.
Qed.

Lemma sall_impl (p q : ascii -> bool) (s : string) :
  (forall c, p c = true -> q c = true) -> sall p s = true -> sall q s = true.
Proof.
  intros Hpq. induction s as [|c s IH]; [reflexivity|].
  cbn [sall]. rewrite !andb_true_iff. intros [Hc Hs]. auto.
Qed.

Lemma hex_val_spec (c : ascii) (h : N) :
  hex_val c = Some h ->
  (h < 16)%N /\ hex_digit h = lower_char c /\ hex_val (lower_char c) = Some h.
Proof.
  destruct c as [[] [] [] [] [] [] [] []]; intros H; vm_compute in H;
    try discriminate H; injection H as <-; vm_compute; auto.
Qed.

Lemma is_hex_ascii (c : ascii) : is_hex c = true -> isascii c = true.
Proof. ascii_cases c. Qed.

Lemma is_hex_nonspace (c : ascii) : is_hex c = true -> nonspace c = true.
Proof. ascii_cases c. Qed.

Lemma is_hex_lower (c : ascii) : is_hex c = true -> is_lower_hex (lower_char c) = true.
Proof. ascii_cases c. Qed.

Lemma is_lower_hex_hex (c : ascii) : is_lower_hex c = true -> is_hex c = true.
Proof. ascii_cases c. Qed.

Lemma is_lower_hex_fix (c : ascii) : is_lower_hex c = true -> lower_char c = c.
Proof. ascii_cases c. Qed.

Lemma len_smap (f : ascii -> ascii) (s : string) : len (smap f s) = len s.
Proof. induction s as [|c s IH]; cbn; [reflexivity|]. now f_equal. Qed.

Lemma lower_fix (s : string) : sall is_lower_hex s = true -> lower s = s.
Proof.
  induction s as [|c s IH]; [reflexivity|].
  cbn [sall]. rewrite andb_true_iff. intros [Hc Hs].
  unfold lower in *. cbn [smap]. now rewrite is_lower_hex_fix, IH.
Qed.

Lemma sall_lower_hex (s : string) :
  sall is_hex s = true -> sall is_lower_hex (lower s) = true.
Proof.
  induction s as [|c s IH]; [reflexivity|].
  cbn [sall]. rewrite andb_true_iff. intros [Hc Hs].
  unfold lower in *. cbn [smap sall]. now rewrite is_hex_lower, IH.
Qed.

(** *** hexlify and unhexlify *)
Lemma hexlify_cons_lower_hex (b : byte) :
  is_lower_hex (hex_digit (Byte.to_N b / 16)) = true /\
  is_lower_hex (hex_digit (Byte.to_N b mod 16)) = true.
Proof. destruct b; vm_compute; auto. Qed.

Lemma hexlify_lower_hex (bs : bytes) : sall is_lower_hex (hexlify bs) = true.
Proof.
  induction bs as [|b bs IH]; [reflexivity|].
  destruct (hexlify_cons_lower_hex b) as [H1 H2].
  cbn [hexlify sall]. now rewrite H1, H2, IH.
Qed.

Lemma len_hexlify (bs : bytes) : len (hexlify bs) = (2 * length bs)%nat.
Proof.
  induction bs as [|b bs IH]; [reflexivity|].
  cbn [hexlify length]. unfold len in *. cbn [String.length]. lia.
Qed.

Lemma a2b_hex_cons (b : byte) (s : string) :
  a2b_hex (String (hex_digit (Byte.to_N b / 16))
             (String (hex_digit (Byte.to_N b mod 16)) s))
  = let* bs := a2b_hex s in Ok (b :: bs).
Proof. destruct b; reflexivity. Qed.

Lemma a2b_hex_hexlify (bs : bytes) : a2b_hex (hexlify bs) = Ok bs.
Proof.
  induction bs as [|b bs IH]; [reflexivity|].
  cbn [hexlify]. now rewrite a2b_hex_cons, IH.
Qed.

Lemma odd_double (n : nat) : Nat.odd (2 * n) = false.
Proof.
  rewrite <- Nat.negb_even, Nat.even_mul. reflexivity.
Qed.

Lemma unhexlify_hexlify (bs : bytes) : unhexlify (hexlify bs) = Ok bs.
Proof.
  unfold unhexlify.
  rewrite (sall_impl is_lower_hex isascii).
  - cbn [negb]. rewrite len_hexlify, odd_double. apply a2b_hex_hexlify.
  - intros c Hc. now apply is_hex_ascii, is_lower_hex_hex.
  - apply hexlify_lower_hex.
Qed.

Lemma a2b_hex_length (s : string) (bs : bytes) :
  a2b_hex s = Ok bs -> len s = (2 * length bs)%nat.
Proof.
  revert bs. induction s as [| c | c1 c2 s IH] using string_ind2; intros bs H.
  - now injection H as <-.
  - discriminate H.
  - cbn [a2b_hex] in H.
    destruct (hex_val c1); [|discriminate H].
    destruct (hex_val c2); [|discriminate H].
    destruct (a2b_hex s) as [bs'|] eqn:E; [|discriminate H].
    injection H as <-. specialize (IH _ eq_refl).
    unfold len in *. cbn [String.length length]. lia.
Qed.

Lemma byte_of_hex_pair (h l : N) :
  (h < 16)%N -> (l < 16)%N ->
  (Byte.to_N (byte_of_N (16 * h + l)) / 16 = h)%N /\
  (Byte.to_N (byte_of_N (16 * h + l)) mod 16 = l)%N.
Proof.
  intros Hh Hl. rewrite to_N_byte_of_N by lia.
  rewrite (N.mul_comm 16 h), N.add_comm.
  rewrite N.div_add by lia. rewrite N.Div0.mod_add.
  rewrite N.div_small, N.mod_small by assumption. split; lia.
Qed.

(** An even number of hexadecimal digits, in either case, converts, and
    [hexlify] gives the digits back in lower case. *)
Lemma a2b_hex_all_hex (s : string) :
  Nat.odd (len s) = false -> sall is_hex s = true ->
  exists bs, a2b_hex s = Ok bs /\ hexlify bs = lower s.
Proof.
  induction s as [| c | c1 c2 s IH] using string_ind2; intros Hodd Hhex.
  - now exists [].
  - discriminate Hodd.
  - cbn [sall] in Hhex. rewrite !andb_true_iff in Hhex.
    destruct Hhex as (H1 & H2 & Hs).
    destruct IH as (bs & Hbs & Hlow); [exact Hodd | exact Hs |].
    unfold is_hex in H1, H2.
    destruct (hex_val c1) as [h|] eqn:E1; [|discriminate H1].
    destruct (hex_val c2) as [l|] eqn:E2; [|discriminate H2].
    destruct (hex_val_spec _ _ E1) as (Hh & Hdh & _).
    destruct (hex_val_spec _ _ E2) as (Hl & Hdl & _).
    exists (byte_of_N (16 * h + l) :: bs). split.
    + cbn [a2b_hex]. now rewrite E1, E2, Hbs.
    + destruct (byte_of_hex_pair h l Hh Hl) as [Hq Hr].
      cbn [hexlify]. rewrite Hq, Hr, Hdh, Hdl, Hlow. reflexivity.
Qed.

(** *** strip and split *)
Lemma lstrip_nonspace (s : string) : sall nonspace s = true -> lstrip s = s.
Proof.
  destruct s as [|c s]; [reflexivity|].
  cbn [sall lstrip]. unfold nonspace. rewrite andb_true_iff.
  intros [Hc _]. now destruct (isspace c).
Qed.

Lemma rstrip_nonspace (s : string) : sall nonspace s = true -> rstrip s = s.
Proof.
  induction s as [|c s IH]; [reflexivity|].
  cbn [sall rstrip]. unfold nonspace at 1. rewrite andb_true_iff.
  intros [Hc Hs]. rewrite (IH Hs).
  destruct s; [|reflexivity]. now destruct (isspace c).
Qed.

Lemma strip_nonspace (s : string) : sall nonspace s = true -> strip s = s.
Proof.
  intros H. unfold strip. rewrite lstrip_nonspace by assumption.
  now apply rstrip_nonspace.
Qed.

Lemma split_nonspace (s : string) :
  s <> EmptyString -> sall nonspace s = true -> split s = [s].
Proof.
  induction s as [|c s IH]; [congruence|]. intros _.
  cbn [sall]. unfold nonspace at 1. rewrite andb_true_iff. intros [Hc Hs].
  cbn [split]. destruct (isspace c); [discriminate Hc|].
  destruct s as [|c' s']; [reflexivity|].
  rewrite IH by (congruence || assumption).
  cbn [sall] in Hs. unfold nonspace at 1 in Hs. rewrite andb_true_iff in Hs.
  destruct Hs as [Hc' _]. now destruct (isspace c').
Qed.

End StringFacts.

(** * The six-word codec *)
Section Codec.
Import Generator.

Lemma append_cons (c : ascii) (w r : string) :
  String c w +:+ r = String c (w +:+ r).
Proof. reflexivity. Qed.

Lemma split_app_space (w r : string) :
  word_ok w = true -> split (w +:+ String " " r) = w :: split r.
Proof.
  unfold word_ok. rewrite andb_true_iff, negb_true_iff, String.eqb_neq.
  intros [Hne Hw]. induction w as [|c w IH]; [congruence|].
  cbn [sall] in Hw. unfold nonspace at 1 in Hw. rewrite andb_true_iff in Hw.
  destruct Hw as [Hc Hw]. rewrite append_cons. cbn [split].
  destruct (isspace c); [discriminate Hc|].
  destruct w as [|c' w'].
  - reflexivity.
  - rewrite IH by (congruence || assumption).
    rewrite append_cons. cbn [sall] in Hw. unfold nonspace at 1 in Hw.
    rewrite andb_true_iff in Hw. destruct Hw as [Hc' _].
    now destruct (isspace c').
Qed.

Lemma split_join (ws : list string) :
  forallb word_ok ws = true -> split (join " " ws) = ws.
Proof.
  unfold join. induction ws as [|w ws IH]; [reflexivity|].
  cbn [forallb]. rewrite andb_true_iff. intros [Hw Hws].
  destruct ws as [|w' ws'].
  - cbn [String.concat]. unfold word_ok in Hw.
    rewrite andb_true_iff, negb_true_iff, String.eqb_neq in Hw.
    now apply split_nonspace.
  - change (String.concat " " (w :: w' :: ws'))
      with (w +:+ String " " (String.concat " " (w' :: ws'))).
    rewrite split_app_space by assumption. now rewrite IH.
Qed.

(** Every word of the dictionary is a single token, and looking it up, in
    upper case, gives its index back. *)
Lemma dictionary_ok : forallb entry_ok (map N.of_nat (seq 0 2048)) = true.
Proof. vm_compute. reflexivity. Qed.

Lemma entry_ok_lt (i : N) : (i < 2048)%N -> entry_ok i = true.
Proof.
  intros Hi. pose proof dictionary_ok as H.
  rewrite forallb_forall in H. apply H.
  apply in_map_iff. exists (N.to_nat i). split; [lia|].
  apply in_seq. lia.
Qed.

Lemma word_at_ok (i : N) : (i < 2048)%N -> word_ok (word_at i) = true.
Proof.
  intros Hi. apply entry_ok_lt in Hi. unfold entry_ok in Hi.
  now apply andb_true_iff in Hi.
Qed.

Lemma word_index_word_at (i : N) :
  (i < 2048)%N -> word_index (word_at i) = Ok i.
Proof.
  intros Hi. apply entry_ok_lt in Hi. unfold entry_ok in Hi.
  apply andb_true_iff in Hi. destruct Hi as [_ Hi].
  destruct (word_index (word_at i)) as [j|]; [|discriminate Hi].
  apply N.eqb_eq in Hi. now subst.
Qed.

Lemma word_indices_word_at (idx : list N) :
  Forall (fun i => (i < 2048)%N) idx ->
  word_indices (map word_at idx) = Ok idx.
Proof.
  induction 1 as [|i idx Hi _ IH]; [reflexivity|].
  cbn [map word_indices]. now rewrite word_index_word_at, IH.
Qed.

Lemma words_ok (idx : list N) :
  Forall (fun i => (i < 2048)%N) idx ->
  forallb word_ok (map word_at idx) = true.
Proof.
  induction 1 as [|i idx Hi _ IH]; [reflexivity|].
  cbn [map forallb]. now rewrite word_at_ok, IH.
Qed.

Lemma groups_lt (v : N) : Forall (fun i => (i < 2048)%N) (groups v).
Proof.
  unfold groups. apply Forall_map, Forall_forall. intros i _.
  now apply N.mod_lt.
Qed.

Lemma length_groups (v : N) : length (groups v) = 6%nat.
Proof. reflexivity. Qed.

Lemma group_step (v k : N) :
  (v / 2048 ^ N.succ k * 2048 + (v / 2048 ^ k) mod 2048 = v / 2048 ^ k)%N.
Proof.
  rewrite N.pow_succ_r', (N.mul_comm 2048 (2048 ^ k)), <- N.Div0.div_div.
  rewrite (N.div_mod' (v / 2048 ^ k) 2048) at 3. lia.
Qed.

Lemma ungroups_groups (v : N) : (v < 2 ^ 66)%N -> ungroups (groups v) = v.
Proof.
  intros Hv. unfold groups, ungroups. cbn [map fold_left].
  rewrite N.mul_0_l, N.add_0_l.
  rewrite (N.mod_small (v / 2048 ^ 5)).
  - pose proof (group_step v 4) as H4. pose proof (group_step v 3) as H3.
    pose proof (group_step v 2) as H2. pose proof (group_step v 1) as H1.
    pose proof (group_step v 0) as H0.
    change (N.succ 4) with 5%N in H4. change (N.succ 3) with 4%N in H3.
    change (N.succ 2) with 3%N in H2. change (N.succ 1) with 2%N in H1.
    change (N.succ 0) with 1%N in H0.
    rewrite H4, H3, H2, H1, H0.
    now rewrite N.pow_0_r, N.div_1_r.
  - apply N.Div0.div_lt_upper_bound.
    change (2048 ^ 5 * 2048)%N with (2 ^ 66)%N. exact Hv.
Qed.

Lemma checksum_lt (n : N) : (checksum n < 4)%N.
Proof. unfold checksum. now apply N.mod_lt. Qed.

Lemma unpack_checksum (n c : N) :
  (c < 4)%N -> ((4 * n + c) / 4 = n /\ (4 * n + c) mod 4 = c)%N.
Proof.
  intros Hc. rewrite (N.mul_comm 4 n), N.add_comm.
  rewrite N.div_add, N.Div0.mod_add by lia.
  rewrite N.div_small, N.mod_small by assumption. split; lia.
Qed.

End Codec.

(** * OTPState *)
Section StateFacts.
Import Hashlib Generator OTPState.

Lemma length_strxor (a b : bytes) :
  length (strxor a b) = Nat.min (length a) (length b).
Proof. unfold strxor. now rewrite length_map, length_combine. Qed.

Lemma length_md5_digest (msg : bytes) : length (MD5.digest msg) = 16%nat.
Proof.
  unfold MD5.digest.
  destruct (fold_left MD5.compress _ MD5.init) as [[[A B] C] D].
  now rewrite !length_app, !length_le_bytes.
Qed.

Lemma length_sha1_digest_folding (digest : bytes) :
  length (sha1_digest_folding digest) = 8%nat.
Proof.
  unfold sha1_digest_folding. now rewrite length_app, !length_le_bytes.
Qed.

Lemma length_hash_fold (algo : string) (msg : bytes) :
  length (hash_fold algo msg) = 8%nat.
Proof.
  unfold hash_fold. destruct (String.eqb algo "md5").
  - rewrite length_strxor, length_firstn, length_skipn, length_md5_digest.
    reflexivity.
  - apply length_sha1_digest_folding.
Qed.

Lemma tokens_to_bytes_length (tokens : string) (b : bytes) :
  tokens_to_bytes tokens = Ok b -> length b = 8%nat.
Proof.
  unfold tokens_to_bytes.
  destruct (negb _); [discriminate|].
  destruct (word_indices _) as [idx|]; [|discriminate]. cbn [bind].
  destruct (_ =? _)%N; [|discriminate].
  intros [= <-]. apply length_be_bytes.
Qed.

Lemma unhexlify_length (s : string) (b : bytes) :
  unhexlify s = Ok b -> len s = (2 * length b)%nat.
Proof.
  unfold unhexlify. destruct (negb _); [discriminate|].
  destruct (Nat.odd _); [discriminate|]. apply a2b_hex_length.
Qed.

Lemma validate_hex_length (ot_hex : string) (b : bytes) :
  validate_hex ot_hex = Ok b -> length b = 8%nat.
Proof.
  unfold validate_hex.
  set (h := if startswith ot_hex "0x" then _ else _).
  destruct (len h =? 16)%nat eqn:E; [|discriminate]. cbn [negb].
  apply Nat.eqb_eq in E.
  destruct (unhexlify h) as [bs|e] eqn:U.
  - intros [= <-]. apply unhexlify_length in U. lia.
  - destruct e; discriminate.
Qed.

Lemma response_to_bytes_length (response : string) (b : bytes) :
  response_to_bytes response = Ok b -> length b = 8%nat.
Proof.
  unfold response_to_bytes.
  destruct (tokens_to_bytes response) as [bs|e] eqn:T.
  - intros [= <-]. now apply tokens_to_bytes_length in T.
  - destruct e; try discriminate.
    destruct (validate_hex response) as [bs|e] eqn:V.
    + intros [= <-]. now apply validate_hex_length in V.
    + destruct e; discriminate.
Qed.

Lemma hexlify_not_0x (bs : bytes) : startswith (hexlify bs) "0x" = false.
Proof. destruct bs as [|b bs]; [reflexivity|]. destruct b; reflexivity. Qed.

Lemma validate_hex_hexlify (bs : bytes) :
  length bs = 8%nat -> validate_hex (hexlify bs) = Ok bs.
Proof.
  intros Hlen. unfold validate_hex.
  rewrite hexlify_not_0x, len_hexlify, Hlen. cbn [Nat.eqb negb Nat.mul Nat.add].
  now rewrite unhexlify_hexlify.
Qed.

(** The same text with the prefix the generator prints. *)
Lemma validate_hex_0x_hexlify (bs : bytes) :
  length bs = 8%nat -> validate_hex ("0x" +:+ hexlify bs) = Ok bs.
Proof.
  intros Hlen. unfold validate_hex.
  change (startswith ("0x" +:+ hexlify bs) "0x")
    with (String.prefix EmptyString (hexlify bs)).
  replace (String.prefix EmptyString (hexlify bs)) with true
    by (now destruct (hexlify bs)).
  change (slice_from 2 ("0x" +:+ hexlify bs)) with (hexlify bs).
  rewrite strip_nonspace.
  - rewrite lower_fix by apply hexlify_lower_hex.
    rewrite len_hexlify, Hlen. cbn [Nat.eqb negb Nat.mul Nat.add].
    now rewrite unhexlify_hexlify.
  - apply (sall_impl is_lower_hex); [|apply hexlify_lower_hex].
    intros c Hc. now apply is_hex_nonspace, is_lower_hex_hex.
Qed.

Lemma tokens_to_bytes_one_word (s : string) :
  s <> EmptyString -> sall nonspace s = true ->
  tokens_to_bytes s
  = Raise (OTPGeneratorException "The token must consist of six words").
Proof.
  intros Hne Hs. unfold tokens_to_bytes. now rewrite split_nonspace.
Qed.

Lemma validate_seed_ok (seed s : string) :
  validate_seed seed = Ok s -> s = seed.
Proof.
  unfold validate_seed. destruct (_ || _); [discriminate|].
  destruct (negb _); [discriminate|]. now intros [= <-].
Qed.

Lemma validate_hash_algo_ok (a : hash_algo_arg) (s : string) :
  validate_hash_algo a = Ok s -> s = "md5" \/ s = "sha1".
Proof.
  destruct a as [n|name]; cbn [validate_hash_algo].
  - destruct (n =? 1)%Z; [intros [= <-]; now left|].
    destruct (n =? 2)%Z; [intros [= <-]; now right|discriminate].
  - destruct (String.eqb name "md5") eqn:E1.
    + apply String.eqb_eq in E1. intros [= <-]. now left.
    + destruct (String.eqb name "sha1") eqn:E2; [|discriminate].
      apply String.eqb_eq in E2. intros [= <-]. now right.
Qed.

Lemma validate_hash_algo_name (s : string) :
  s = "md5" \/ s = "sha1" -> validate_hash_algo (AlgoName s) = Ok s.
Proof. now intros [-> | ->]. Qed.

Lemma validate_step_ok (step s : Z) :
  validate_step step = Ok s -> s = step /\ (0 <= step)%Z.
Proof.
  unfold validate_step. destruct (step <? 0)%Z eqn:E; [discriminate|].
  intros [= <-]. split; [reflexivity|]. now apply Z.ltb_ge.
Qed.

Lemma reraise_ok {A} (r : result A) (a : A) : reraise r = Ok a -> r = Ok a.
Proof. destruct r as [x|e]; [trivial|]. destruct e; discriminate. Qed.

Lemma init_inv (ot_hex : option string) (step : Z) (seed : string)
    (algo : hash_algo_arg) (self : t) :
  __init__ ot_hex step seed algo = Ok self ->
  wf self /\ _new_digest_hex self = None /\ _step self = step /\
  _seed self = seed /\ validate_hash_algo algo = Ok (_hash_algo self) /\
  match ot_hex with
  | None => _current_digest self = None
  | Some h => exists d, validate_hex h = Ok d /\ _current_digest self = Some d
  end.
Proof.
  unfold __init__.
  destruct (reraise (validate_seed seed)) as [s|] eqn:Es; [|discriminate].
  destruct (reraise (validate_hash_algo algo)) as [a|] eqn:Ea; [|discriminate].
  destruct (reraise (validate_step step)) as [n|] eqn:En; [|discriminate].
  cbn [bind].
  apply reraise_ok in Es, Ea, En.
  pose proof (validate_seed_ok _ _ Es) as ->.
  pose proof (validate_hash_algo_ok _ _ Ea) as Ha.
  destruct (validate_step_ok _ _ En) as [-> Hn].
  assert (forall d, wf {| _seed := seed; _hash_algo := a; _step := step;
                          _current_digest := d; _new_digest_hex := None |})
    as Hwf by (intros d; repeat split; assumption).
  destruct ot_hex as [h|]; cbn [bind].
  - destruct (validate_hex h) as [d|] eqn:Eh; [|discriminate]. cbn [bind].
    intros [= <-]. cbn. repeat split; try apply Hwf; eauto.
  - intros [= <-]. cbn. repeat split; try apply Hwf; eauto.
Qed.

(** With a validated algorithm, the two branches of [response_validates]
    compute [Fold(Hash(response))] for that algorithm. *)
Lemma response_validates_eq (self : t) (response : string) (store : bool) :
  _hash_algo self = "md5" \/ _hash_algo self = "sha1" ->
  response_validates self response store =
  match response_to_bytes response with
  | Raise e => (self, Raise e)
  | Ok b =>
      if matches self (hash_fold (_hash_algo self) b)
      then ((if store then set_new_digest_hex self (hexlify b) else self),
            Ok true)
      else (self, Ok false)
  end.
Proof.
  intros Ha. unfold response_validates, hash_fold.
  destruct (response_to_bytes response) as [b|e]; [|reflexivity].
  destruct Ha as [-> | ->]; reflexivity.
Qed.

Lemma response_validates_wf (self : t) (response : string) (store : bool) :
  wf self -> wf (fst (response_validates self response store)).
Proof.
  intros Hwf. pose proof Hwf as (_ & Ha & _).
  rewrite response_validates_eq by assumption.
  destruct (response_to_bytes response) as [b|e]; [|exact Hwf].
  destruct (matches self _); [|exact Hwf].
  destruct store; exact Hwf.
Qed.

Lemma history_inv (ot_hex : option string) (self : t) (pending : option bytes) :
  history ot_hex self pending ->
  wf self /\
  _new_digest_hex self = hexlify <$> pending /\
  (forall b, pending = Some b -> length b = 8%nat) /\
  (ot_hex = None -> _current_digest self = None).
Proof.
  induction 1 as [step seed algo self Hinit
                 | self pending response store self' r _ IH Hcall Hkept
                 | self pending response b self' _ IH Hb Hcall].
  - destruct (init_inv _ _ _ _ _ Hinit) as (Hwf & Hnew & _ & _ & _ & Hot).
    repeat split; try apply Hwf; [assumption | discriminate |].
    intros ->. exact Hot.
  - destruct IH as (Hwf & Hnew & Hlen & Hot).
    pose proof Hwf as (_ & Ha & _).
    rewrite response_validates_eq in Hcall by assumption.
    destruct (response_to_bytes response) as [b|e].
    + destruct (matches self _).
      * destruct store.
        -- injection Hcall as <- <-. destruct Hkept; congruence.
        -- injection Hcall as <- <-. auto.
      * injection Hcall as <- <-. auto.
    + injection Hcall as <- <-. auto.
  - destruct IH as (Hwf & Hnew & Hlen & Hot).
    pose proof Hwf as (_ & Ha & _).
    rewrite response_validates_eq in Hcall by assumption.
    rewrite Hb in Hcall. destruct (matches self _); [|discriminate].
    injection Hcall as <-. repeat split; try apply Hwf.
    + intros b' [= <-]. now apply response_to_bytes_length in Hb.
    + exact Hot.
Qed.

End StateFacts.

(** * The claims about OTPState and the generator *)
Section StateClaims.
Import Hashlib Generator OTPState Examples.

Lemma history_exhausted : history None exhausted (Some rfc_md5_0).
Proof.
  eapply (history_stored None _ None "0x9e876134d90499dd").
  - eapply (history_init None 0 "TeSt" OTP_ALGO_MD5). reflexivity.
  - vm_compute. reflexivity.
  - vm_compute. reflexivity.
Qed.

(** C2, as stated, fails at step 0: a stored validation is pending on
    [exhausted], and [get_next_state] raises instead of returning a state
    with step -1. *)
Lemma get_next_state_step0_counterexample :
  history None exhausted (Some rfc_md5_0) /\
  get_next_state exhausted
    = Raise (OTPStateException "Step value MUST be >= 0") /\
  ~ (exists next, get_next_state exhausted = Ok (Some next)).
Proof.
  split; [exact history_exhausted|]. split; [reflexivity|].
  intros [next H]. discriminate H.
Qed.

Lemma get_next_state_pending (self : t) (b : bytes) :
  wf self -> length b = 8%nat -> _new_digest_hex self = Some (hexlify b) ->
  get_next_state self =
  if (_step self - 1 <? 0)%Z
  then Raise (OTPStateException "Step value MUST be >= 0")
  else Ok (Some (next_of self b)).
Proof.
  intros (Hseed & Ha & _) Hlen Hnew.
  unfold get_next_state, __init__. rewrite Hnew, Hseed. cbn [reraise bind].
  rewrite validate_hash_algo_name by assumption. cbn [reraise bind].
  unfold validate_step. destruct (_ <? 0)%Z; [reflexivity|].
  cbn [reraise bind]. now rewrite validate_hex_hexlify.
Qed.

(** C2 (amended): once a response with bytes [b] has been accepted and
    stored on a state whose step is at least 1, [get_next_state] returns a
    new state with the step one less, the same seed and algorithm, [b] as
    its digest and nothing pending; with no stored validation it returns
    [None]. *)
Theorem get_next_state_spec (ot_hex : option string) (self : t)
    (pending : option bytes) :
  history ot_hex self pending ->
  match pending with
  | Some b => (1 <= _step self)%Z ->
              get_next_state self = Ok (Some (next_of self b))
  | None => get_next_state self = Ok None
  end.
Proof.
  intros H. destruct (history_inv _ _ _ H) as (Hwf & Hnew & Hlen & _).
  destruct pending as [b|]; cbn [fmap option_fmap option_map] in Hnew.
  - intros Hstep. rewrite (get_next_state_pending self b); auto.
    destruct (_ <? 0)%Z eqn:E; [|reflexivity].
    apply Z.ltb_lt in E. lia.
  - unfold get_next_state. now rewrite Hnew.
Qed.

Lemma get_next_state_spec_witness :
  history (Some "0x7965e05436f5029f") sgs_validated (Some rfc_md5_0) /\
  (1 <= _step sgs_validated)%Z /\
  get_next_state sgs_validated = Ok (Some (next_of sgs_validated rfc_md5_0)).
Proof.
  assert (history (Some "0x7965e05436f5029f") sgs_validated (Some rfc_md5_0))
    as H.
  { apply (history_stored _ sgs_state None "INCH SEA ANNE LONG AHEM TOUR").
    - apply (history_init _ 1%Z "TeSt" OTP_ALGO_MD5). vm_compute. reflexivity.
    - vm_compute. reflexivity.
    - vm_compute. reflexivity. }
  split; [exact H|]. split; [vm_compute; discriminate|].
  apply (get_next_state_spec _ _ _ H). vm_compute. discriminate.
Defined.

(** C3: at step 0, with a stored validation pending, [get_next_state]
    raises the error of the constructor: the step of the next state would
    be negative. *)
Theorem get_next_state_step0 (ot_hex : option string) (self : t) (b : bytes) :
  history ot_hex self (Some b) ->
  _step self = 0%Z ->
  get_next_state self = Raise (OTPStateException "Step value MUST be >= 0").
Proof.
  intros H Hstep. destruct (history_inv _ _ _ H) as (Hwf & Hnew & Hlen & _).
  rewrite (get_next_state_pending self b); auto. now rewrite Hstep.
Qed.

Lemma get_next_state_step0_witness :
  history None exhausted (Some rfc_md5_0) /\
  get_next_state exhausted
  = Raise (OTPStateException "Step value MUST be >= 0").
Proof.
  assert (history None exhausted (Some rfc_md5_0)) as H.
  { apply (history_stored None
             {| _seed := "TeSt"; _hash_algo := "md5"; _step := 0;
                _current_digest := None; _new_digest_hex := None |}
             None "0x9e876134d90499dd").
    - apply (history_init None 0%Z "TeSt" OTP_ALGO_MD5). vm_compute.
      reflexivity.
    - vm_compute. reflexivity.
    - vm_compute. reflexivity. }
  split; [exact H|].
  apply (get_next_state_step0 None exhausted rfc_md5_0 H). reflexivity.
Defined.

(** C4: the response [non_ascii_response] is neither a token nor
    hexadecimal text, and [response_to_bytes] lets the [ValueError] of
    [binascii.unhexlify] through where it documents [OTPInvalidResponse]. *)
Theorem response_to_bytes_non_ascii :
  (exists msg, tokens_to_bytes non_ascii_response
               = Raise (OTPGeneratorException msg)) /\
  response_to_bytes non_ascii_response
  = Raise (ValueError "string argument should contain only ASCII characters") /\
  forall self store,
    snd (response_validates self non_ascii_response store)
    = Raise (ValueError "string argument should contain only ASCII characters").
Proof.
  split; [eexists; vm_compute; reflexivity|].
  split; [vm_compute; reflexivity|].
  intros self store. unfold response_validates.
  replace (response_to_bytes non_ascii_response)
    with (@Raise bytes (ValueError
            "string argument should contain only ASCII characters"))
    by (vm_compute; reflexivity).
  reflexivity.
Qed.

(** The parts of C4 that hold: tokens first, then hexadecimal text; an
    ASCII response that is neither raises [OTPInvalidResponse]; a response
    that converts and does not match gives [False]. *)
Lemma response_to_bytes_token (response : string) (b : bytes) :
  tokens_to_bytes response = Ok b -> response_to_bytes response = Ok b.
Proof. intros H. unfold response_to_bytes. now rewrite H. Qed.

Lemma response_to_bytes_hex (response msg : string) (b : bytes) :
  tokens_to_bytes response = Raise (OTPGeneratorException msg) ->
  validate_hex response = Ok b -> response_to_bytes response = Ok b.
Proof. intros H1 H2. unfold response_to_bytes. now rewrite H1, H2. Qed.

Lemma unhexlify_ascii (s : string) :
  sall isascii s = true ->
  (exists b, unhexlify s = Ok b) \/ (exists m, unhexlify s = Raise (BinasciiError m)).
Proof.
  intros Hs. unfold unhexlify. rewrite Hs. cbn [negb].
  destruct (Nat.odd (len s)); [right; eauto|].
  clear Hs. induction s as [| c | c1 c2 s IH] using string_ind2.
  - left. now exists [].
  - right. eauto.
  - cbn [a2b_hex]. destruct (hex_val c1); [|right; eauto].
    destruct (hex_val c2); [|right; eauto].
    destruct IH as [[b ->] | [m ->]]; [left | right]; cbn [bind]; eauto.
Qed.

Lemma lower_char_ascii (c : ascii) :
  isascii c = true -> isascii (lower_char c) = true.
Proof. ascii_cases c. Qed.

Lemma sall_smap (p : ascii -> bool) (f : ascii -> ascii) (s : string) :
  (forall c, p c = true -> p (f c) = true) ->
  sall p s = true -> sall p (smap f s) = true.
Proof.
  intros Hf. induction s as [|c s IH]; [reflexivity|].
  cbn [sall smap]. rewrite !andb_true_iff. intros [Hc Hs]. auto.
Qed.

Lemma sall_lstrip (p : ascii -> bool) (s : string) :
  sall p s = true -> sall p (lstrip s) = true.
Proof.
  induction s as [|c s IH]; [reflexivity|].
  intros H. cbn [lstrip]. destruct (isspace c); [|exact H].
  cbn [sall] in H. apply andb_true_iff in H. now apply IH.
Qed.

Lemma sall_rstrip (p : ascii -> bool) (s : string) :
  sall p s = true -> sall p (rstrip s) = true.
Proof.
  induction s as [|c s IH]; [reflexivity|].
  cbn [sall rstrip]. rewrite andb_true_iff. intros [Hc Hs].
  specialize (IH Hs). destruct (rstrip s) as [|c' r'].
  - destruct (isspace c); [reflexivity|]. cbn [sall]. now rewrite Hc.
  - cbn [sall] in *. now rewrite Hc, IH.
Qed.

Lemma sall_slice_from (p : ascii -> bool) (n : nat) (s : string) :
  sall p s = true -> sall p (slice_from n s) = true.
Proof.
  revert s. induction n as [|n IH]; intros s H; [exact H|].
  destruct s as [|c s]; [reflexivity|].
  cbn [sall] in H. apply andb_true_iff in H. cbn [slice_from]. now apply IH.
Qed.

Lemma validate_hex_ascii (s : string) :
  sall isascii s = true ->
  (exists b, validate_hex s = Ok b) \/
  (exists m, validate_hex s = Raise (OTPStateException m)).
Proof.
  intros Hs. unfold validate_hex.
  set (h := if startswith s "0x" then _ else _).
  assert (sall isascii h = true) as Hh.
  { subst h. destruct (startswith s "0x"); [|exact Hs].
    apply sall_smap; [apply lower_char_ascii|].
    unfold strip. now apply sall_rstrip, sall_lstrip, sall_slice_from. }
  destruct (negb _); [right; eauto|].
  destruct (unhexlify_ascii h Hh) as [[b ->] | [m ->]]; eauto.
Qed.

Lemma tokens_to_bytes_raises (tokens : string) :
  (exists b, tokens_to_bytes tokens = Ok b) \/
  (exists m, tokens_to_bytes tokens = Raise (OTPGeneratorException m)).
Proof.
  unfold tokens_to_bytes. destruct (negb _); [right; eauto|].
  assert (forall ws, (exists idx, word_indices ws = Ok idx) \/
            (exists m, word_indices ws = Raise (OTPGeneratorException m)))
    as Hws.
  { induction ws as [|w ws IH]; [left; now exists []|].
    cbn [word_indices]. unfold word_index.
    destruct (index_from _ _ _); cbn [bind]; [|right; eauto].
    destruct IH as [[idx ->] | [m ->]]; cbn [bind]; eauto. }
  destruct (Hws (split tokens)) as [[idx ->] | [m ->]]; cbn [bind];
    [|right; eauto].
  destruct (_ =? _)%N; eauto.
Qed.

Lemma response_to_bytes_ascii (response : string) :
  sall isascii response = true ->
  (forall b, tokens_to_bytes response <> Ok b) ->
  (forall b, validate_hex response <> Ok b) ->
  response_to_bytes response
  = Raise (OTPInvalidResponse "The response is neither a valid token or hex").
Proof.
  intros Hs Ht Hv. unfold response_to_bytes.
  destruct (tokens_to_bytes_raises response) as [[b Hb] | [m ->]];
    [now apply Ht in Hb|].
  destruct (validate_hex_ascii response Hs) as [[b Hb] | [m' ->]];
    [now apply Hv in Hb | reflexivity].
Qed.

Lemma response_validates_mismatch (ot_hex : option string) (self : t)
    (pending : option bytes) (response : string) (b d : bytes) (store : bool) :
  history ot_hex self pending ->
  response_to_bytes response = Ok b ->
  _current_digest self = Some d ->
  hash_fold (_hash_algo self) b <> d ->
  response_validates self response store = (self, Ok false).
Proof.
  intros H Hb Hd Hne. destruct (history_inv _ _ _ H) as ((_ & Ha & _) & _).
  rewrite response_validates_eq, Hb by assumption.
  unfold matches. rewrite Hd. now rewrite bool_decide_eq_false_2.
Qed.

(** C5: a state built with [ot_hex = None] accepts every response that
    [response_to_bytes] converts. *)
Theorem bootstrap_accepts (self : t) (pending : option bytes)
    (response : string) (b : bytes) (store : bool) :
  history None self pending ->
  response_to_bytes response = Ok b ->
  snd (response_validates self response store) = Ok true.
Proof.
  intros H Hb. destruct (history_inv _ _ _ H) as ((_ & Ha & _) & _ & _ & Hd).
  rewrite response_validates_eq, Hb by assumption.
  unfold matches. now rewrite (Hd eq_refl).
Qed.

Lemma bootstrap_accepts_witness :
  snd (response_validates bootstrap_state "AURA ALOE HURL WING BERG WAIT" true)
  = Ok true.
Proof.
  apply (bootstrap_accepts bootstrap_state None _
           [x4f; x29; x6a; x74; xfe; x15; x67; xec]).
  - apply (history_init None 99 "TeSt" OTP_ALGO_SHA1). reflexivity.
  - vm_compute. reflexivity.
Defined.

End StateClaims.

(** * The generator and the codec against the server *)
Section GeneratorClaims.
Import Hashlib Generator OTPState Examples.

Lemma codec_roundtrip (b : bytes) :
  length b = 8%nat ->
  (let* tokens := bytes_to_tokens b in tokens_to_bytes tokens) = Ok b.
Proof.
  intros Hlen. unfold bytes_to_tokens. rewrite Hlen. cbn [Nat.eqb negb bind].
  set (n := be_word b). set (v := (4 * n + checksum n)%N).
  assert (n < 2 ^ 64)%N as Hn.
  { pose proof (be_word_lt b) as H. rewrite Hlen in H. exact H. }
  pose proof (checksum_lt n) as Hc.
  destruct (unpack_checksum n (checksum n) Hc) as [Hdiv Hmod].
  unfold tokens_to_bytes.
  rewrite split_join by apply words_ok, groups_lt.
  rewrite length_map, length_groups. cbn [Nat.eqb negb].
  rewrite word_indices_word_at by apply groups_lt. cbn [bind].
  rewrite ungroups_groups.
  - fold v. subst v. rewrite Hdiv, Hmod, N.eqb_refl.
    subst n. rewrite <- Hlen. now rewrite be_bytes_be_word.
  - subst v. change (2 ^ 66)%N with (4 * 2 ^ 64)%N. lia.
Qed.

(** C8: decoding the six words of an 8-byte value gives the value back. *)
Theorem tokens_to_bytes_bytes_to_tokens (b : bytes) :
  length b = 8%nat ->
  (let* tokens := bytes_to_tokens b in tokens_to_bytes tokens) = Ok b.
Proof. exact (codec_roundtrip b). Qed.

Lemma tokens_to_bytes_bytes_to_tokens_witness :
  (let* tokens := bytes_to_tokens [x9e; x87; x61; x34; xd9; x04; x99; xdd] in
   tokens_to_bytes tokens) = Ok [x9e; x87; x61; x34; xd9; x04; x99; xdd].
Proof.
  apply (tokens_to_bytes_bytes_to_tokens
           [x9e; x87; x61; x34; xd9; x04; x99; xdd]).
  reflexivity.
Defined.

(** *** C9 *)
Lemma is_hex_not_x (c : ascii) : is_hex c = true -> c <> "x"%char.
Proof. intros H ->. discriminate H. Qed.

Lemma all_hex_not_0x (h : string) :
  sall is_hex h = true -> startswith h "0x" = false.
Proof.
  destruct h as [|c1 [|c2 r]]; intros H.
  - reflexivity.
  - unfold startswith. cbn [String.prefix]. now destruct (ascii_dec _ _).
  - cbn [sall] in H. rewrite !andb_true_iff in H. destruct H as (_ & H2 & _).
    apply is_hex_not_x in H2. unfold startswith. cbn [String.prefix].
    destruct (ascii_dec "0" c1); [|reflexivity].
    destruct (ascii_dec "x" c2); [congruence|reflexivity].
Qed.

Lemma len_16_not_empty (h : string) : len h = 16%nat -> h <> EmptyString.
Proof. now intros H ->. Qed.

Lemma validate_hex_plain (h : string) :
  len h = 16%nat -> sall is_hex h = true ->
  exists b, validate_hex h = Ok b /\ hexlify b = lower h.
Proof.
  intros Hlen Hhex. unfold validate_hex.
  rewrite all_hex_not_0x, Hlen by assumption. cbn [Nat.eqb negb].
  unfold unhexlify. rewrite (sall_impl is_hex isascii _ is_hex_ascii Hhex).
  rewrite Hlen. cbn [negb Nat.odd Nat.even].
  destruct (a2b_hex_all_hex h) as (b & -> & Hb); [now rewrite Hlen | assumption |].
  now exists b.
Qed.

Lemma validate_hex_prefixed (h : string) :
  len h = 16%nat -> sall is_hex h = true ->
  exists b, validate_hex ("0x" +:+ h) = Ok b /\ hexlify b = lower h.
Proof.
  intros Hlen Hhex. unfold validate_hex.
  change (startswith ("0x" +:+ h) "0x") with (String.prefix EmptyString h).
  replace (String.prefix EmptyString h) with true by (now destruct h).
  change (slice_from 2 ("0x" +:+ h)) with h.
  rewrite strip_nonspace
    by exact (sall_impl is_hex nonspace _ is_hex_nonspace Hhex).
  pose proof (sall_lower_hex h Hhex) as Hlow.
  assert (sall is_hex (lower h) = true) as Hhex'
    by exact (sall_impl _ _ _ is_lower_hex_hex Hlow).
  unfold lower at 1. rewrite len_smap, Hlen. cbn [Nat.eqb negb].
  unfold unhexlify.
  rewrite (sall_impl is_hex isascii _ is_hex_ascii Hhex').
  unfold lower at 1. rewrite len_smap, Hlen. cbn [negb Nat.odd Nat.even].
  destruct (a2b_hex_all_hex (lower h)) as (b & -> & Hb).
  - unfold lower. now rewrite len_smap, Hlen.
  - assumption.
  - exists b. split; [reflexivity|]. now rewrite Hb, lower_fix.
Qed.

(** C9, as stated, fails for the capital prefix: [startswith('0x')] is
    case-sensitive, so the text is 18 characters of which [X] is not a
    digit. *)
Lemma response_to_bytes_0X_counterexample :
  hex_text_any_case "0X9e876134d90499dd" /\
  response_to_bytes "0X9e876134d90499dd"
  = Raise (OTPInvalidResponse "The response is neither a valid token or hex").
Proof.
  split; [|vm_compute; reflexivity].
  exists "0X", "9e876134d90499dd". repeat split. now right.
Qed.

(** C9 (amended): 16 hexadecimal digits in either case, alone or after the
    lower-case prefix [0x], are accepted, and the 8 bytes returned are the
    ones whose hexadecimal text is these digits in lower case. *)
Theorem response_to_bytes_hex_text (p h : string) :
  p = EmptyString \/ p = "0x" ->
  len h = 16%nat -> sall is_hex h = true ->
  exists b, response_to_bytes (p +:+ h) = Ok b /\
            length b = 8%nat /\ hexlify b = lower h.
Proof.
  intros Hp Hlen Hhex.
  pose proof (sall_impl is_hex nonspace _ is_hex_nonspace Hhex) as Hns.
  assert (exists b, validate_hex (p +:+ h) = Ok b /\ hexlify b = lower h)
    as (b & Hv & Hb).
  { destruct Hp as [-> | ->];
      [now apply validate_hex_plain | now apply validate_hex_prefixed]. }
  exists b. split; [|split; [now apply validate_hex_length in Hv | exact Hb]].
  eapply response_to_bytes_hex; [|exact Hv].
  apply tokens_to_bytes_one_word.
  - destruct Hp as [-> | ->]; [now apply len_16_not_empty | discriminate].
  - destruct Hp as [-> | ->]; [exact Hns|].
    change ("0x" +:+ h) with (String "0" (String "x" h)).
    cbn [sall]. now rewrite Hns.
Qed.

Lemma response_to_bytes_hex_text_witness :
  exists b, response_to_bytes ("0x" +:+ "9E876134D90499dd") = Ok b /\
            length b = 8%nat /\ hexlify b = lower "9E876134D90499dd".
Proof.
  apply (response_to_bytes_hex_text "0x" "9E876134D90499dd").
  - now right.
  - reflexivity.
  - reflexivity.
Defined.

(** *** C6 *)
Lemma iterate_succ (algo : string) (n : nat) (d : bytes) :
  iterate algo (S n) d = hash_fold algo (iterate algo n d).
Proof.
  revert d. induction n as [|n IH]; intros d; [reflexivity|].
  change (iterate algo (S (S n)) d) with (iterate algo (S n) (hash_fold algo d)).
  now rewrite IH.
Qed.

Lemma length_iterate (algo : string) (n : nat) (d : bytes) :
  length d = 8%nat -> length (iterate algo n d) = 8%nat.
Proof.
  revert d. induction n as [|n IH]; intros d Hd; [exact Hd|].
  cbn [iterate]. apply IH, length_hash_fold.
Qed.

Lemma new_inv (password : bytes) (seed : string) (algo : hash_algo_arg)
    (g : OTPGenerator) :
  new password seed algo = Ok g ->
  g_password g = password /\ g_seed g = seed /\
  validate_seed seed = Ok seed /\
  validate_hash_algo algo = Ok (g_hash_algo g).
Proof.
  unfold new, validate_password.
  destruct (_ <=? _)%nat; [discriminate|]. cbn [bind].
  destruct (validate_seed seed) as [s|] eqn:Es; [|discriminate]. cbn [bind].
  destruct (validate_hash_algo algo) as [a|] eqn:Ea; [|discriminate].
  cbn [bind]. intros [= <-]. cbn.
  pose proof (validate_seed_ok _ _ Es) as ->. auto.
Qed.

Lemma compute_digest_eq (g : OTPGenerator) (step : Z) :
  (0 <= step)%Z ->
  compute_digest g step =
  Ok (iterate (g_hash_algo g) (Z.to_nat step)
        (hash_fold (g_hash_algo g) (encode (lower (g_seed g)) ++ g_password g))).
Proof.
  intros Hstep. unfold compute_digest, validate_step.
  destruct (step <? 0)%Z eqn:E; [apply Z.ltb_lt in E; lia|]. reflexivity.
Qed.

Lemma response_to_bytes_hexdigest (d : bytes) :
  length d = 8%nat -> response_to_bytes ("0x" +:+ hexlify d) = Ok d.
Proof.
  intros Hd. eapply response_to_bytes_hex.
  - apply tokens_to_bytes_one_word; [discriminate|].
    change ("0x" +:+ hexlify d) with (String "0" (String "x" (hexlify d))).
    cbn [sall].
    rewrite (sall_impl is_lower_hex nonspace); [reflexivity | | apply hexlify_lower_hex].
    intros c Hc. now apply is_hex_nonspace, is_lower_hex_hex.
  - now apply validate_hex_0x_hexlify.
Qed.

Lemma response_to_bytes_words (d : bytes) (tokens : string) :
  length d = 8%nat -> bytes_to_tokens d = Ok tokens ->
  response_to_bytes tokens = Ok d.
Proof.
  intros Hd Ht. apply response_to_bytes_token.
  pose proof (codec_roundtrip d Hd) as H.
  now rewrite Ht in H.
Qed.

(** C6: the chain starts from the folded hash of the lowercased seed
    followed by the password, each later value is the folded hash of the
    8 bytes before it, and a state that holds the value at [step] accepts a
    response exactly when the folded hash of its bytes is that value, so
    it accepts what the generator prints for [step - 1]. *)
Theorem chain_recurrence (password : bytes) (seed : string)
    (algo : hash_algo_arg) (g : OTPGenerator) :
  new password seed algo = Ok g ->
  compute_digest g 0
  = Ok (hash_fold (g_hash_algo g) (encode (lower seed) ++ password)) /\
  forall step : Z, (1 <= step)%Z ->
    exists prev digest self,
      compute_digest g (step - 1) = Ok prev /\
      length prev = 8%nat /\
      compute_digest g step = Ok digest /\
      digest = hash_fold (g_hash_algo g) prev /\
      __init__ (Some ("0x" +:+ hexlify digest)) step seed algo = Ok self /\
      (forall response b store,
         response_to_bytes response = Ok b ->
         snd (response_validates self response store)
         = Ok (bool_decide (hash_fold (g_hash_algo g) b = digest))) /\
      (forall response store,
         generate_otp_hexdigest g (step - 1) = Ok response \/
         generate_otp_words g (step - 1) = Ok response ->
         snd (response_validates self response store) = Ok true).
Proof.
  intros Hnew. destruct (new_inv _ _ _ _ Hnew) as (Hp & Hs & Hseed & Halgo).
  pose proof (validate_hash_algo_ok _ _ Halgo) as Ha.
  split.
  { rewrite compute_digest_eq by lia. now rewrite Hs, Hp. }
  intros step Hstep.
  set (x0 := hash_fold (g_hash_algo g) (encode (lower (g_seed g)) ++ g_password g)).
  set (prev := iterate (g_hash_algo g) (Z.to_nat (step - 1)) x0).
  set (digest := hash_fold (g_hash_algo g) prev).
  assert (length prev = 8%nat) as Hprev
    by (apply length_iterate, length_hash_fold).
  assert (length digest = 8%nat) as Hdigest by apply length_hash_fold.
  assert (compute_digest g (step - 1) = Ok prev) as Hcp
    by (rewrite compute_digest_eq by lia; reflexivity).
  assert (compute_digest g step = Ok digest) as Hcd.
  { rewrite compute_digest_eq by lia. fold x0.
    replace (Z.to_nat step) with (S (Z.to_nat (step - 1))) by lia.
    now rewrite iterate_succ. }
  set (self := {| _seed := seed; _hash_algo := g_hash_algo g; _step := step;
                  _current_digest := Some digest; _new_digest_hex := None |}).
  assert (forall response b store,
            response_to_bytes response = Ok b ->
            snd (response_validates self response store)
            = Ok (bool_decide (hash_fold (g_hash_algo g) b = digest)))
    as Hexact.
  { intros response b store Hb.
    rewrite response_validates_eq, Hb by exact Ha.
    unfold matches. cbn [_current_digest self _hash_algo].
    now destruct (bool_decide _). }
  exists prev, digest, self. repeat split; try assumption.
  - unfold __init__. rewrite Hseed, Halgo. cbn [reraise bind].
    unfold validate_step. destruct (step <? 0)%Z eqn:E;
      [apply Z.ltb_lt in E; lia|]. cbn [reraise bind].
    now rewrite validate_hex_0x_hexlify.
  - intros response store [Hr | Hr].
    + unfold generate_otp_hexdigest in Hr. rewrite Hcp in Hr.
      injection Hr as <-.
      rewrite (Hexact _ prev) by now apply response_to_bytes_hexdigest.
      now rewrite bool_decide_eq_true_2.
    + unfold generate_otp_words in Hr. rewrite Hcp in Hr. cbn [bind] in Hr.
      rewrite (Hexact _ prev) by now apply response_to_bytes_words.
      now rewrite bool_decide_eq_true_2.
Qed.

Lemma chain_recurrence_witness :
  compute_digest (rfc_generator "md5") 0
  = Ok (hash_fold "md5" (encode (lower "TeSt") ++ encode "This is a test.")).
Proof.
  apply (chain_recurrence (encode "This is a test.") "TeSt" OTP_ALGO_MD5
           (rfc_generator "md5")).
  reflexivity.
Defined.

(** C7: the verification examples of RFC 2289, Appendix C, for the
    password [This is a test.] and the seed [TeSt]. *)
Theorem rfc2289_appendix_c :
  new (encode "This is a test.") "TeSt" OTP_ALGO_MD5
    = Ok (rfc_generator "md5") /\
  new (encode "This is a test.") "TeSt" OTP_ALGO_SHA1
    = Ok (rfc_generator "sha1") /\
  generate_otp_hexdigest (rfc_generator "md5") 0 = Ok "0x9e876134d90499dd" /\
  generate_otp_words (rfc_generator "md5") 0
    = Ok "INCH SEA ANNE LONG AHEM TOUR" /\
  generate_otp_hexdigest (rfc_generator "md5") 1 = Ok "0x7965e05436f5029f" /\
  generate_otp_hexdigest (rfc_generator "md5") 99 = Ok "0x50fe1962c4965880" /\
  generate_otp_hexdigest (rfc_generator "sha1") 0 = Ok "0xbb9e6ae1979d8ff4".
Proof. repeat split; vm_compute; reflexivity. Qed.

(** The digests of the empty message and of [abc]. *)
Example hashlib_vectors :
  hexlify (MD5.digest []) = "d41d8cd98f00b204e9800998ecf8427e" /\
  hexlify (MD5.digest (encode "abc")) = "900150983cd24fb0d6963f7d28e17f72" /\
  hexlify (SHA1.digest []) = "da39a3ee5e6b4b0d3255bfef95601890afd80709" /\
  hexlify (SHA1.digest (encode "abc"))
    = "a9993e364706816aba3e25717850c26c9cd0d89d".
Proof. repeat split; vm_compute; reflexivity. Qed.

Example test_bytes_and_tokens : forallb static_vector_ok static_vectors = true.
Proof. vm_compute. reflexivity. Qed.

Example test_md5_sha1 : forallb generator_vector_ok generator_vectors = true.
Proof. vm_compute. reflexivity. Qed.

End GeneratorClaims.

(** * OTPStore *)
Section StoreClaims.
Import Generator OTPStore Examples.

Lemma rebound_store :
  store rebound
  = {| _data := {[ "a" := Some 2%positive ]};
       _states := {[ Some 1%positive := "a"; Some 2%positive := "a" ]} |}.
Proof.
vm_compute. reflexivity. Qed.

Lemma shared_store :
  store shared
  = {| _data := {[ "a" := Some 1%positive; "b" := Some 1%positive ]};
       _states := {[ Some 1%positive := "b" ]} |}.
Proof.
vm_compute. reflexivity. Qed.

(** C1, as stated, fails: binding a bound key again leaves the old state
    registered, and binding one state to two keys registers it once. *)
Lemma store_bijection_counterexample :
  reachable any_add rebound /\
  size (_data (store rebound)) = 1%nat /\
  size (_states (store rebound)) = 2%nat /\
  reachable any_add shared /\
  _data (store shared) !! "a" = Some (Some 1%positive) /\
  _states (store shared) !! Some 1%positive = Some "b" /\
  ~ bijective (store rebound) /\ ~ bijective (store shared).
Proof.
  assert (size (_data (store rebound)) = 1%nat) as H1.
  { rewrite rebound_store. cbn. apply map_size_singleton. }
  assert (size (_states (store rebound)) = 2%nat) as H2.
  { rewrite rebound_store. cbn.
    rewrite map_size_insert_None, map_size_singleton; [reflexivity|].
    now apply lookup_singleton_ne. }
  assert (_data (store shared) !! "a" = Some (Some 1%positive)) as H3.
  { rewrite shared_store. cbn. apply lookup_insert_eq. }
  assert (_states (store shared) !! Some 1%positive = Some "b") as H4.
  { rewrite shared_store. cbn. apply lookup_singleton_eq. }
  repeat split; try assumption.
  - repeat apply reach_add; try exact I. apply reach_empty.
  - repeat apply reach_add; try exact I. apply reach_empty.
  - intros [Hsize _]. rewrite H1, H2 in Hsize. discriminate.
  - intros [_ Hrev]. pose proof (Hrev _ _ H3) as H5.
    pose proof (eq_trans (eq_sym H4) H5) as H6. discriminate H6.
Qed.

Lemma is_state_dom (h : gmap loc OTPState.t) (v : pyval) :
  is_state h v = true <-> exists l, v = Some l /\ l ∈ dom h.
Proof.
  unfold is_state, deref. destruct v as [l|].
  - split.
    + intros H. exists l. split; [reflexivity|]. apply elem_of_dom.
      destruct (h !! l); [eauto | discriminate].
    + intros (l' & [= <-] & [x ->]%elem_of_dom). reflexivity.
  - split; [discriminate|]. now intros (l & H & _).
Qed.

Lemma is_state_mono (h h' : gmap loc OTPState.t) (v : pyval) :
  dom h ⊆ dom h' -> is_state h v = true -> is_state h' v = true.
Proof.
  rewrite !is_state_dom. intros Hsub (l & -> & Hl). exists l. split; auto.
Qed.

Lemma fresh_not_state (h : gmap loc OTPState.t) :
  is_state h (Some (fresh (dom h))) = false.
Proof.
  apply not_true_is_false. rewrite is_state_dom.
  intros (l & [= <-] & Hl). now apply is_fresh in Hl.
Qed.

(** A call that returns [True] with [store_valid_response] set leaves a
    digest pending, so [get_next_state] does not return [None]. *)
Lemma state_validates_pending (self self' : OTPState.t) (response : string) :
  OTPState.response_validates self response true = (self', Ok true) ->
  OTPState.get_next_state self' <> Ok None.
Proof.
  unfold OTPState.response_validates.
  destruct (OTPState.response_to_bytes response) as [b|]; [|discriminate].
  assert (OTPState.get_next_state
            (OTPState.set_new_digest_hex self (hexlify b)) <> Ok None) as H.
  { unfold OTPState.get_next_state. cbn.
    destruct (OTPState.__init__ _ _ _ _); discriminate. }
  destruct (String.eqb _ "md5").
  - destruct (OTPState.matches _ _); [|discriminate]. now intros [= <-].
  - destruct (String.eqb _ "sha1"); [|discriminate].
    destruct (OTPState.matches _ _); [|discriminate]. now intros [= <-].
Qed.

Lemma inv_add (w : world) (key : string) (state : pyval) :
  inv w -> new_add key state (store w) -> inv (fst (add_state key state w)).
Proof.
  intros [[Hsize Hrev] Hlive] [Hkey Hstate]. unfold add_state.
  destruct (is_state (heap w) state) eqn:E; cbn [negb fst];
    [|now repeat split].
  unfold inv, bijective, registered_live.
  repeat split; cbn [store heap _data _states].
  - rewrite !map_size_insert_None by assumption. now f_equal.
  - intros k v. destruct (decide (key = k)) as [<-|Hne].
    + rewrite lookup_insert_eq. intros [= <-]. apply lookup_insert_eq.
    + rewrite lookup_insert_ne by assumption. intros Hk.
      pose proof (Hrev _ _ Hk) as Hv.
      rewrite lookup_insert_ne; [assumption|]. congruence.
  - intros v k. destruct (decide (state = v)) as [<-|Hne].
    + now intros _.
    + rewrite lookup_insert_ne by assumption. apply Hlive.
Qed.

Lemma inv_pop (w : world) (key : string) :
  inv w -> inv (fst (pop_state key w)).
Proof.
  intros [[Hsize Hrev] Hlive]. unfold pop_state.
  destruct (_data (store w) !! key) as [state|] eqn:Hkey; [|now repeat split].
  rewrite (Hrev _ _ Hkey). cbn [fst].
  unfold inv, bijective, registered_live.
  repeat split; cbn [store heap _data _states].
  - rewrite !map_size_delete_Some by eauto using Hrev. now f_equal.
  - intros k v. destruct (decide (key = k)) as [<-|Hne].
    + now rewrite lookup_delete_eq.
    + rewrite lookup_delete_ne by assumption. intros Hk.
      pose proof (Hrev _ _ Hk) as Hv.
      rewrite lookup_delete_ne; [assumption|].
      intros <-. rewrite (Hrev _ _ Hkey) in Hv. congruence.
  - intros v k. destruct (decide (state = v)) as [<-|Hne].
    + now rewrite lookup_delete_eq.
    + rewrite lookup_delete_ne by assumption. apply Hlive.
Qed.

Lemma inv_objects (w : world) (h : gmap loc OTPState.t) :
  inv w -> dom (heap w) ⊆ dom h -> inv (set_heap w h).
Proof.
  intros [Hbij Hlive] Hsub. split; [exact Hbij|].
  intros v k Hv. apply (is_state_mono (heap w)); [assumption|].
  now apply (Hlive v k).
Qed.

(** A successful call with [store_valid_response] set: the state bound to
    [key] is an object [l] of the heap, the next state is a new object [l'],
    and [key] is bound to it in place of [l]. *)
Lemma response_validates_advance (w w' : world) (key response : string) :
  response_validates key response true w = (w', Ok true) ->
  exists l self self' next,
    _data (store w) !! key = Some (Some l) /\
    heap w !! l = Some self /\
    OTPState.response_validates self response true = (self', Ok true) /\
    OTPState.get_next_state self' = Ok (Some next) /\
    let l' := fresh (dom (heap w)) in
    is_Some (_states (store w) !! Some l) /\
    w' = {| heap := <[l' := next]> (<[l := self']> (heap w));
            store :=
              {| _data := <[key := Some l']> (_data (store w));
                 _states := delete (Some l)
                              (<[Some l' := key]> (_states (store w))) |} |}.
Proof.
  unfold response_validates.
  destruct (_data (store w) !! key) as [state|] eqn:Hkey; [|discriminate].
  destruct (deref (heap w) state) as [self|] eqn:Hself; [|discriminate].
  destruct state as [l|]; [|discriminate Hself]. cbn [deref update] in *.
  destruct (OTPState.response_validates self response true)
    as [self' r] eqn:Hcall.
  destruct r as [rvalue|]; [|discriminate].
  destruct rvalue; cbn [andb]; [|discriminate].
  pose proof (state_validates_pending _ _ _ Hcall) as Hpending.
  destruct (OTPState.get_next_state self') as [[next|]|] eqn:Hnext;
    [|congruence|discriminate].
  assert (dom (<[l := self']> (heap w)) = dom (heap w)) as Hdom.
  { apply dom_insert_lookup_L. eauto. }
  rewrite Hdom.
  assert (Some l <> Some (fresh (dom (heap w)))) as Hne.
  { intros [= Heq]. apply elem_of_dom_2 in Hself.
    rewrite Heq in Hself. now apply is_fresh in Hself. }
  rewrite lookup_insert_ne by congruence.
  destruct (_states (store w) !! Some l) as [k|] eqn:Hreg; [|discriminate].
  intros [= <-]. exists l, self, self', next. cbn zeta. repeat split; eauto.
Qed.

Lemma inv_validate (w w' : world) (key response : string) :
  inv w -> response_validates key response true w = (w', Ok true) -> inv w'.
Proof.
  intros [[Hsize Hrev] Hlive] Hcall.
  destruct (response_validates_advance _ _ _ _ Hcall)
    as (l & self & self' & next & Hkey & Hself & _ & _ & _ & ->).
  clear Hcall. set (l' := fresh (dom (heap w))).
  pose proof (Hrev _ _ Hkey) as Hstate.
  assert (forall v k, _states (store w) !! v = Some k -> v <> Some l') as Hfresh.
  { intros v k Hv ->. apply Hlive in Hv.
    subst l'. now rewrite fresh_not_state in Hv. }
  assert (Some l <> Some l') as Hne by eauto.
  unfold inv, bijective, registered_live.
  repeat split; cbn [store heap _data _states].
  - rewrite map_size_insert_Some by eauto.
    rewrite map_size_delete_Some
      by (rewrite lookup_insert_ne by congruence; eauto).
    rewrite map_size_insert_None; [now rewrite Hsize|].
    destruct (_states (store w) !! Some l') eqn:E; [|reflexivity].
    now apply Hfresh in E.
  - intros k v. destruct (decide (key = k)) as [<-|Hk].
    + rewrite lookup_insert_eq. intros [= <-].
      rewrite lookup_delete_ne by congruence. apply lookup_insert_eq.
    + rewrite lookup_insert_ne by assumption. intros Hkv.
      pose proof (Hrev _ _ Hkv) as Hv.
      rewrite lookup_delete_ne by (intros <-; congruence).
      rewrite lookup_insert_ne; [assumption|].
      intros <-. now apply Hfresh in Hv.
  - intros v k. destruct (decide (Some l = v)) as [<-|Hv].
    + now rewrite lookup_delete_eq.
    + rewrite lookup_delete_ne by assumption.
      destruct (decide (Some l' = v)) as [<-|Hv'].
      * intros _. apply is_state_dom. exists l'. split; [reflexivity|].
        rewrite dom_insert. set_solver.
      * rewrite lookup_insert_ne by assumption. intros Hk.
        apply Hlive in Hk. apply (is_state_mono (heap w)); [|assumption].
        rewrite !dom_insert. set_solver.
Qed.

(** C1 (amended): from an empty store, as long as [add_state] is given a
    key that is not bound and a state that is not registered, every
    sequence of [add_state], [pop_state] and successful
    [response_validates] calls leaves two dictionaries of the same size in
    which the state bound to a key is registered under that key. *)
Theorem store_bijection (w : world) :
  reachable new_add w ->
  size (_data (store w)) = size (_states (store w)) /\
  forall k v, _data (store w) !! k = Some v ->
              _states (store w) !! v = Some k.
Proof.
  intros H. enough (inv w) as [Hbij _] by exact Hbij.
  induction H as [h | w h _ IH Hsub | w key state _ IH Hnew | w key _ IH
                 | w key response w' _ IH Hcall].
  - repeat split.
    + intros k v. cbn. now rewrite lookup_empty.
    + intros v k. cbn. now rewrite lookup_empty.
  - now apply inv_objects.
  - now apply inv_add.
  - now apply inv_pop.
  - now apply (inv_validate w w' key response).
Qed.

End StoreClaims.

Section StoreFrame.
Import Generator OTPStore Examples.

Lemma store_bijection_witness :
  reachable new_add sgs_advanced /\
  size (_data (store sgs_advanced)) = size (_states (store sgs_advanced)) /\
  forall k v, _data (store sgs_advanced) !! k = Some v ->
              _states (store sgs_advanced) !! v = Some k.
Proof.
  assert (reachable new_add sgs_advanced) as H.
  { apply (reach_validate new_add sgs_world "sgs" "0x9e876134d90499dd").
    - apply reach_add; [apply reach_empty|]. split; reflexivity.
    - vm_compute. reflexivity. }
  split; [exact H|]. exact (store_bijection sgs_advanced H).
Defined.

(** C10 (amended): a call of [response_validates] that returns [False] or
    raises leaves both dictionaries as they were and creates no object,
    provided that the exception is not the [KeyError] of
    [self._states.pop(state)], or that every state bound to a key is
    registered in [_states], in which case that [KeyError] does not
    arise. *)
Theorem response_validates_frame (key response : string)
    (store_valid_response : bool) (w w' : world) (r : result bool) :
  response_validates key response store_valid_response w = (w', r) ->
  r <> Ok true ->
  (forall v, r <> Raise (KeyError (KeyObj v))) \/
  (forall k v, _data (store w) !! k = Some v ->
               is_Some (_states (store w) !! v)) ->
  store w' = store w /\ dom (heap w') = dom (heap w).
Proof.
  unfold response_validates. intros Hcall Hr Hcase.
  destruct (_data (store w) !! key) as [state|] eqn:Hkey;
    [|injection Hcall as <- <-; now split].
  destruct (deref (heap w) state) as [self|] eqn:Hself;
    [|injection Hcall as <- <-; now split].
  destruct state as [l|]; [|discriminate Hself]. cbn [deref update] in *.
  assert (forall self', dom (<[l := self']> (heap w)) = dom (heap w)) as Hdom.
  { intros self'. apply dom_insert_lookup_L. eauto. }
  destruct (OTPState.response_validates self response store_valid_response)
    as [self' r0].
  destruct r0 as [rvalue|e];
    [|injection Hcall as <- <-; split; [reflexivity | apply Hdom]].
  destruct (rvalue && store_valid_response) eqn:Hboth;
    [|injection Hcall as <- <-; split; [reflexivity | apply Hdom]].
  destruct (OTPState.get_next_state self') as [next|e];
    [|injection Hcall as <- <-; split; [reflexivity | apply Hdom]].
  apply andb_true_iff in Hboth. destruct Hboth as [-> _].
  match type of Hcall with
  | context [?m !! Some l] => destruct (m !! Some l) eqn:Hpop
  end.
  - injection Hcall as <- <-. congruence.
  - injection Hcall as <- <-. exfalso. destruct Hcase as [Hno | Hreg].
    + now apply (Hno (Some l)).
    + destruct (Hreg _ _ Hkey) as [k Hk].
      match type of Hpop with
      | <[?n := _]> _ !! _ = _ => destruct (decide (n = Some l)) as [Heq|Hne]
      end.
      * rewrite Heq, lookup_insert_eq in Hpop. discriminate.
      * rewrite lookup_insert_ne, Hk in Hpop by assumption. discriminate.
Qed.

Lemma response_validates_frame_witness :
  store (fst (response_validates "sgs" "0x9e876134d90499de" true sgs_world))
  = store sgs_world /\
  dom (heap (fst (response_validates "sgs" "0x9e876134d90499de" true
                    sgs_world)))
  = dom (heap sgs_world).
Proof.
  apply (response_validates_frame "sgs" "0x9e876134d90499de" true sgs_world
           _ (Ok false)).
  - vm_compute. reflexivity.
  - discriminate.
  - left. discriminate.
Defined.

(** C10, as stated, fails: with one state bound to two keys, a successful
    call for [a] unregisters the state, and the next call for [b] binds
    [b] to a new state and then raises the [KeyError] of
    [self._states.pop(state)]. *)
Lemma response_validates_shared :
  reachable any_add shared_validated /\
  snd (response_validates "b" "0x9e876134d90499dd" true shared_validated)
  = Raise (KeyError (KeyObj (Some 1%positive))) /\
  _data (store shared_validated) !! "b" = Some (Some 1%positive) /\
  _data (store (fst (response_validates "b" "0x9e876134d90499dd" true
                       shared_validated))) !! "b"
  = Some (Some 4%positive) /\
  store (fst (response_validates "b" "0x9e876134d90499dd" true
                shared_validated))
  <> store shared_validated.
Proof.
  split.
  { apply (reach_validate any_add shared "a" "0x9e876134d90499dd").
    - unfold shared. apply reach_add; [|exact I].
      apply reach_add; [|exact I]. apply reach_empty.
    - vm_compute. reflexivity. }
  split; [vm_compute; reflexivity|]. split; [vm_compute; reflexivity|].
  split; [vm_compute; reflexivity|].
  intros H. apply (f_equal (fun s => _data s !! "b")) in H.
  vm_compute in H. discriminate H.
Qed.

(** The calls of [test_state_validation_md5], [test_state_caller_exceptions]
    and [test_store] in [test/test_server.py]. *)
Example test_server :
  OTPState.__init__ (Some "0x7965e05436f5029f") 1 "TeSt" OTP_ALGO_MD5
    = Ok sgs_state /\
  OTPState.validated sgs_state = false /\
  OTPState.response_validates sgs_state "0x9e876134d90499dd" true
    = (sgs_validated, Ok true) /\
  OTPState.response_validates sgs_validated "INCH SEA ANNE LONG AHEM TOUR" true
    = (sgs_validated, Ok true) /\
  OTPState.validated sgs_validated = true /\
  snd (OTPState.response_validates sgs_state "bla" true)
    = Raise (OTPInvalidResponse
               "The response is neither a valid token or hex") /\
  snd (OTPStore.__init__ store_data ∅) = Ok tt /\
  size (_data (store test_store)) = 2%nat /\
  snd (response_validates "sgs" "0x9e876134d90499dd" true test_store)
    = Ok true /\
  snd (response_validates "sgs" "0x9e876134d90499dd" true
         (fst (response_validates "sgs" "0x9e876134d90499dd" true test_store)))
    = Ok false.
Proof. repeat split; vm_compute; reflexivity. Qed.

End StoreFrame.


(** * The remaining methods of OTPState *)
Section StateViewFacts.
Import Hashlib Generator OTPState StateViews Examples.

Lemma a2b_hex_inv (s : string) (b : bytes) :
  a2b_hex s = Ok b -> sall is_hex s = true /\ hexlify b = lower s.
Proof.
  revert b. induction s as [| c | c1 c2 s IH] using string_ind2; intros b H.
  - injection H as <-. now split.
  - discriminate H.
  - cbn [a2b_hex] in H.
    destruct (hex_val c1) as [h|] eqn:E1; [|discriminate H].
    destruct (hex_val c2) as [l|] eqn:E2; [|discriminate H].
    destruct (a2b_hex s) as [bs|] eqn:E; [|discriminate H].
    injection H as <-. destruct (IH _ eq_refl) as [Hhex Hlow].
    destruct (hex_val_spec _ _ E1) as (Hh & Hdh & _).
    destruct (hex_val_spec _ _ E2) as (Hl & Hdl & _).
    destruct (byte_of_hex_pair h l Hh Hl) as [Hq Hr].
    split.
    + cbn [sall]. unfold is_hex at 1 2. now rewrite E1, E2, Hhex.
    + cbn [hexlify]. now rewrite Hq, Hr, Hdh, Hdl, Hlow.
Qed.

Lemma hexlify_inj (a b : bytes) : hexlify a = hexlify b -> a = b.
Proof.
  intros H. pose proof (unhexlify_hexlify a) as Ha.
  rewrite H, unhexlify_hexlify in Ha. now injection Ha.
Qed.

Lemma validate_hex_eq (ot_hex : string) :
  validate_hex ot_hex =
  if negb (len (hex_body ot_hex) =? 16)%nat
  then Raise (OTPStateException
         "The length of the hex should be 16 (representing 64 bits digest)")
  else match unhexlify (hex_body ot_hex) with
       | Raise (BinasciiError _) => Raise (OTPStateException "Invalid OT-hex")
       | r => r
       end.
Proof. reflexivity. Qed.

Lemma validate_hex_iff (ot_hex : string) (b : bytes) :
  validate_hex ot_hex = Ok b <->
  len (hex_body ot_hex) = 16%nat /\
  sall is_hex (hex_body ot_hex) = true /\
  hexlify b = lower (hex_body ot_hex).
Proof.
  rewrite validate_hex_eq. set (h := hex_body ot_hex). split.
  - destruct (len h =? 16)%nat eqn:E; [|discriminate]. cbn [negb].
    apply Nat.eqb_eq in E. unfold unhexlify.
    destruct (negb (sall isascii h)); [discriminate|].
    destruct (Nat.odd (len h)); [discriminate|].
    destruct (a2b_hex h) as [bs|e] eqn:A; [|destruct e; discriminate].
    intros [= <-]. destruct (a2b_hex_inv _ _ A). auto.
  - intros (Hlen & Hhex & Hb). rewrite Hlen. cbn [Nat.eqb negb].
    unfold unhexlify. rewrite (sall_impl is_hex isascii _ is_hex_ascii Hhex).
    rewrite Hlen. cbn [negb Nat.odd Nat.even].
    destruct (a2b_hex_all_hex h) as (bs & -> & Hbs);
      [now rewrite Hlen | assumption |].
    f_equal. apply hexlify_inj. congruence.
Qed.

(** X1: [validate_hex] accepts a text exactly when what is left of it after
    the prefix is 16 hexadecimal digits, and the bytes it returns are those
    whose hexadecimal text is these digits in lower case. *)
Theorem validate_hex_accepts (ot_hex : string) (b : bytes) :
  validate_hex ot_hex = Ok b <->
  len (hex_body ot_hex) = 16%nat /\
  sall is_hex (hex_body ot_hex) = true /\
  hexlify b = lower (hex_body ot_hex).
Proof. exact (validate_hex_iff ot_hex b). Qed.

Lemma validate_hex_error (ot_hex : string) (e : exn) :
  validate_hex ot_hex = Raise e ->
  e = if negb (len (hex_body ot_hex) =? 16)%nat
      then OTPStateException
             "The length of the hex should be 16 (representing 64 bits digest)"
      else if sall isascii (hex_body ot_hex)
      then OTPStateException "Invalid OT-hex"
      else ValueError "string argument should contain only ASCII characters".
Proof.
  rewrite validate_hex_eq. set (h := hex_body ot_hex).
  destruct (negb (len h =? 16)%nat); [now intros [= <-]|].
  destruct (sall isascii h) eqn:Hascii.
  - destruct (unhexlify_ascii h Hascii) as [[b ->] | [m ->]];
      [discriminate | now intros [= <-]].
  - unfold unhexlify. rewrite Hascii. cbn [negb]. now intros [= <-].
Qed.

(** X2: The error of [validate_hex]: a wrong length is reported first; a text
    of the right length with a character that is not ASCII escapes as the
    [ValueError] of [binascii.unhexlify]; any other text of the right
    length is an invalid hex. *)
Theorem validate_hex_raises (ot_hex : string) (e : exn) :
  validate_hex ot_hex = Raise e ->
  e = if negb (len (hex_body ot_hex) =? 16)%nat
      then OTPStateException
             "The length of the hex should be 16 (representing 64 bits digest)"
      else if sall isascii (hex_body ot_hex)
      then OTPStateException "Invalid OT-hex"
      else ValueError "string argument should contain only ASCII characters".
Proof. exact (validate_hex_error ot_hex e). Qed.

Lemma validate_hex_raises_witness :
  validate_hex "0x7965e05436f5029t" = Raise (OTPStateException "Invalid OT-hex")
  /\ OTPStateException "Invalid OT-hex"
     = if negb (len (hex_body "0x7965e05436f5029t") =? 16)%nat
       then OTPStateException
             "The length of the hex should be 16 (representing 64 bits digest)"
       else if sall isascii (hex_body "0x7965e05436f5029t")
       then OTPStateException "Invalid OT-hex"
       else ValueError "string argument should contain only ASCII characters".
Proof.
  assert (validate_hex "0x7965e05436f5029t"
          = Raise (OTPStateException "Invalid OT-hex")) as H
    by (vm_compute; reflexivity).
  split; [exact H|].
  exact (validate_hex_raises "0x7965e05436f5029t" _ H).
Defined.

(** *** White space after the prefix *)
Lemma lstrip_spaces (ws s : string) :
  sall isspace ws = true -> lstrip (ws +:+ s) = lstrip s.
Proof.
  induction ws as [|c ws IH]; [reflexivity|].
  cbn [sall]. rewrite andb_true_iff. intros [Hc Hws].
  rewrite append_cons. cbn [lstrip]. rewrite Hc. now apply IH.
Qed.

Lemma rstrip_spaces (ws : string) :
  sall isspace ws = true -> rstrip ws = EmptyString.
Proof.
  induction ws as [|c ws IH]; [reflexivity|].
  cbn [sall rstrip]. rewrite andb_true_iff. intros [Hc Hws].
  now rewrite IH, Hc.
Qed.

Lemma rstrip_word_spaces (w ws : string) :
  w <> EmptyString -> sall nonspace w = true -> sall isspace ws = true ->
  rstrip (w +:+ ws) = w.
Proof.
  intros Hne Hw Hws. induction w as [|c w IH]; [congruence|].
  cbn [sall] in Hw. unfold nonspace at 1 in Hw.
  apply andb_true_iff in Hw. destruct Hw as [Hc Hw].
  rewrite append_cons. cbn [rstrip]. destruct w as [|c' w'].
  - change (EmptyString +:+ ws) with ws. rewrite rstrip_spaces by assumption.
    now destruct (isspace c).
  - rewrite IH by (congruence || assumption). reflexivity.
Qed.

Lemma strip_padded (ws1 w ws2 : string) :
  w <> EmptyString -> sall nonspace w = true ->
  sall isspace ws1 = true -> sall isspace ws2 = true ->
  strip (ws1 +:+ w +:+ ws2) = w.
Proof.
  intros Hne Hw H1 H2. unfold strip. rewrite lstrip_spaces by assumption.
  replace (lstrip (w +:+ ws2)) with (w +:+ ws2).
  - now apply rstrip_word_spaces.
  - destruct w as [|c w]; [congruence|]. rewrite append_cons.
    cbn [sall] in Hw. unfold nonspace at 1 in Hw.
    apply andb_true_iff in Hw. destruct Hw as [Hc _].
    cbn [lstrip]. now destruct (isspace c).
Qed.

Lemma len_append (a b : string) : len (a +:+ b) = (len a + len b)%nat.
Proof.
  unfold len. induction a as [|c a IH]; [reflexivity|].
  rewrite append_cons. cbn [String.length]. now rewrite IH.
Qed.

Lemma startswith_0x_padded (ws h : string) :
  sall isspace ws = true -> sall is_hex h = true ->
  startswith (ws +:+ h) "0x" = false.
Proof.
  intros Hws Hh. destruct ws as [|c ws].
  - now apply all_hex_not_0x.
  - cbn [sall] in Hws. apply andb_true_iff in Hws. destruct Hws as [Hc _].
    rewrite append_cons. unfold startswith. cbn [String.prefix].
    destruct (ascii_dec "0" c) as [<-|]; [discriminate Hc | reflexivity].
Qed.

(** X3: White space around the digits is dropped after the prefix [0x], and
    only there: the padded text means the same as the digits alone, and the
    same padding without the prefix gives a text of the wrong length. *)
Theorem validate_hex_padding (ws1 h ws2 : string) :
  len h = 16%nat -> sall is_hex h = true ->
  sall isspace ws1 = true -> sall isspace ws2 = true ->
  validate_hex ("0x" +:+ ws1 +:+ h +:+ ws2) = validate_hex h /\
  (ws1 +:+ ws2 <> EmptyString ->
   validate_hex (ws1 +:+ h +:+ ws2)
   = Raise (OTPStateException
       "The length of the hex should be 16 (representing 64 bits digest)")).
Proof.
  intros Hlen Hhex H1 H2.
  pose proof (sall_impl is_hex nonspace _ is_hex_nonspace Hhex) as Hns.
  pose proof (len_16_not_empty _ Hlen) as Hne.
  split.
  - destruct (validate_hex_plain h Hlen Hhex) as (b & Hb & Hlow).
    rewrite Hb. apply validate_hex_iff.
    assert (hex_body ("0x" +:+ ws1 +:+ h +:+ ws2) = lower h) as ->.
    { unfold hex_body.
      change (startswith ("0x" +:+ ws1 +:+ h +:+ ws2) "0x")
        with (String.prefix EmptyString (ws1 +:+ h +:+ ws2)).
      replace (String.prefix EmptyString (ws1 +:+ h +:+ ws2)) with true
        by (now destruct (ws1 +:+ h +:+ ws2)).
      change (slice_from 2 ("0x" +:+ ws1 +:+ h +:+ ws2))
        with (ws1 +:+ h +:+ ws2).
      now rewrite strip_padded. }
    pose proof (sall_lower_hex h Hhex) as Hl.
    split; [unfold lower; now rewrite len_smap|].
    split; [exact (sall_impl _ _ _ is_lower_hex_hex Hl)|].
    now rewrite (lower_fix (lower h)).
  - intros Hpad. rewrite validate_hex_eq. unfold hex_body.
    destruct ws1 as [|c ws1].
    + change (EmptyString +:+ (h +:+ ws2)) with (h +:+ ws2).
      change (EmptyString +:+ ws2) with ws2 in Hpad.
      replace (startswith (h +:+ ws2) "0x") with false.
      * rewrite len_append, Hlen. destruct ws2; [congruence|].
        unfold len. cbn [String.length]. 
        replace (16 + S (String.length ws2) =? 16)%nat with false;
          [reflexivity|]. symmetry. apply Nat.eqb_neq. lia.
      * symmetry. destruct h as [|c1 [|c2 r]]; try discriminate Hlen.
        cbn [sall] in Hhex. rewrite !andb_true_iff in Hhex.
        destruct Hhex as (_ & Hx & _). apply is_hex_not_x in Hx.
        rewrite !append_cons. unfold startswith. cbn [String.prefix].
        destruct (ascii_dec "0" c1); [|reflexivity].
        destruct (ascii_dec "x" c2); [congruence|reflexivity].
    + cbn [sall] in H1. apply andb_true_iff in H1. destruct H1 as [Hc H1].
      rewrite append_cons.
      replace (startswith (String c (ws1 +:+ (h +:+ ws2))) "0x") with false.
      * unfold len. cbn [String.length]. fold (len (ws1 +:+ (h +:+ ws2))).
        rewrite !len_append, Hlen.
        replace (S (len ws1 + (16 + len ws2)) =? 16)%nat with false;
          [reflexivity|]. symmetry. apply Nat.eqb_neq. lia.
      * symmetry. unfold startswith. cbn [String.prefix].
        destruct (ascii_dec "0" c) as [<-|]; [discriminate Hc | reflexivity].
Qed.

Lemma validate_hex_padding_witness :
  validate_hex ("0x" +:+ "  " +:+ "7965E05436F5029F" +:+ " ")
  = validate_hex "7965E05436F5029F" /\
  ("  " +:+ " " <> EmptyString ->
   validate_hex ("  " +:+ "7965E05436F5029F" +:+ " ")
   = Raise (OTPStateException
       "The length of the hex should be 16 (representing 64 bits digest)")).
Proof.
  apply (validate_hex_padding "  " "7965E05436F5029F" " "); reflexivity.
Defined.

End StateViewFacts.


Section StateDictFacts.
Import Hashlib Generator OTPState StateViews Examples.

Lemma validate_seed_raises (seed : string) (e : exn) :
  validate_seed seed = Raise e -> exists m, e = OTPGeneratorException m.
Proof.
  unfold validate_seed. destruct (_ || _); [intros [= <-]; eauto|].
  destruct (negb _); [intros [= <-]; eauto | discriminate].
Qed.

Lemma validate_hash_algo_raises (algo : hash_algo_arg) (e : exn) :
  validate_hash_algo algo = Raise e -> exists m, e = OTPGeneratorException m.
Proof.
  destruct algo as [n|s]; cbn [validate_hash_algo].
  - destruct (n =? 1)%Z; [discriminate|].
    destruct (n =? 2)%Z; [discriminate|]. intros [= <-]. eauto.
  - destruct (_ || _); [discriminate|]. intros [= <-]. eauto.
Qed.

Lemma validate_step_raises (step : Z) (e : exn) :
  validate_step step = Raise e -> exists m, e = OTPGeneratorException m.
Proof.
  unfold validate_step. destruct (step <? 0)%Z; [|discriminate].
  intros [= <-]. eauto.
Qed.

Lemma reraise_raises {A} (r : result A) (e : exn) :
  (forall e', r = Raise e' -> exists m, e' = OTPGeneratorException m) ->
  reraise r = Raise e -> exists m, e = OTPStateException m.
Proof.
  intros Hr. destruct r as [a|e']; [discriminate|].
  destruct (Hr e' eq_refl) as [m ->]. cbn. intros [= <-]. eauto.
Qed.

(** X4: The constructor lets no [OTPGeneratorException] through: what it
    raises is an [OTPStateException], but for an [ot_hex] of the right
    length with a character that is not ASCII, for which the [ValueError]
    of [binascii.unhexlify] escapes. *)
Theorem init_raises (ot_hex : option string) (step : Z) (seed : string)
    (algo : hash_algo_arg) (e : exn) :
  __init__ ot_hex step seed algo = Raise e ->
  (exists m, e = OTPStateException m) \/
  (e = ValueError "string argument should contain only ASCII characters" /\
   exists h, ot_hex = Some h /\ len (hex_body h) = 16%nat /\
             sall isascii (hex_body h) = false).
Proof.
  unfold __init__.
  destruct (reraise (validate_seed seed)) as [s|e1] eqn:Es.
  2: { cbn [bind]. intros [= <-]. left.
       eapply reraise_raises; [|exact Es]. apply validate_seed_raises. }
  destruct (reraise (validate_hash_algo algo)) as [a|e1] eqn:Ea.
  2: { cbn [bind]. intros [= <-]. left.
       eapply reraise_raises; [|exact Ea]. apply validate_hash_algo_raises. }
  destruct (reraise (validate_step step)) as [n|e1] eqn:En.
  2: { cbn [bind]. intros [= <-]. left.
       eapply reraise_raises; [|exact En]. apply validate_step_raises. }
  cbn [bind]. destruct ot_hex as [h|]; cbn [bind]; [|discriminate].
  destruct (validate_hex h) as [d|e1] eqn:Eh; cbn [bind]; [discriminate|].
  intros [= <-]. pose proof (validate_hex_error _ _ Eh) as He.
  destruct (negb (len (hex_body h) =? 16)%nat) eqn:El; [left; eauto|].
  destruct (sall isascii (hex_body h)) eqn:Hascii; [left; eauto|].
  right. split; [exact He|]. exists h.
  apply negb_false_iff, Nat.eqb_eq in El. auto.
Qed.

Lemma init_raises_witness :
  (exists m, ValueError "string argument should contain only ASCII characters"
             = OTPStateException m) \/
  (ValueError "string argument should contain only ASCII characters"
   = ValueError "string argument should contain only ASCII characters" /\
   exists h, Some non_ascii_response = Some h /\ len (hex_body h) = 16%nat /\
             sall isascii (hex_body h) = false).
Proof.
  apply (init_raises (Some non_ascii_response) 1%Z "TeSt" OTP_ALGO_MD5).
  vm_compute. reflexivity.
Defined.

Lemma response_validates_effect (self self' : t) (response : string)
    (store : bool) (r : result bool) :
  response_validates self response store = (self', r) ->
  clear_pending self' = clear_pending self /\
  (store = false \/ r <> Ok true -> self' = self) /\
  (store = true -> r = Ok true ->
   exists b, response_to_bytes response = Ok b /\
             _new_digest_hex self' = Some (hexlify b)).
Proof.
  unfold response_validates.
  destruct (response_to_bytes response) as [b|e].
  2: { intros [= <- <-]. repeat split; auto; discriminate. }
  assert (forall (c : bool),
            ((if c then ((if store then set_new_digest_hex self (hexlify b)
                          else self), Ok true)
              else (self, Ok false)) = (self', r)) ->
            clear_pending self' = clear_pending self /\
            (store = false \/ r <> Ok true -> self' = self) /\
            (store = true -> r = Ok true ->
             exists b0, Ok b = Ok b0 /\
                        _new_digest_hex self' = Some (hexlify b0))) as Hcase.
  { intros [|]; intros [= <- <-].
    - destruct store; repeat split; eauto.
      + intros [|]; congruence.
      + discriminate.
    - repeat split; auto; discriminate. }
  destruct (String.eqb _ "md5"); [apply Hcase|].
  destruct (String.eqb _ "sha1"); [apply Hcase|].
  intros [= <- <-]. repeat split; auto; discriminate.
Qed.

(** X5: [response_validates] writes nothing but [_new_digest_hex], and that
    only when it returns [True] with [store_valid_response] set; it then
    holds the hexadecimal text of the bytes of the response. *)
Theorem response_validates_writes (self self' : t) (response : string)
    (store : bool) (r : result bool) :
  response_validates self response store = (self', r) ->
  clear_pending self' = clear_pending self /\
  (store = false \/ r <> Ok true -> self' = self) /\
  (store = true -> r = Ok true ->
   exists b, response_to_bytes response = Ok b /\
             _new_digest_hex self' = Some (hexlify b)).
Proof. exact (response_validates_effect self self' response store r). Qed.

Lemma response_validates_writes_witness :
  clear_pending sgs_validated = clear_pending sgs_state /\
  (true = false \/ Ok true <> @Ok bool true -> sgs_validated = sgs_state) /\
  (true = true -> @Ok bool true = Ok true ->
   exists b, response_to_bytes "0x9e876134d90499dd" = Ok b /\
             _new_digest_hex sgs_validated = Some (hexlify b)).
Proof.
  apply (response_validates_writes sgs_state sgs_validated
           "0x9e876134d90499dd" true (Ok true)).
  vm_compute. reflexivity.
Defined.

Lemma response_validates_fields (self : t) (response : string) (store : bool) :
  clear_pending (fst (response_validates self response store))
  = clear_pending self.
Proof.
  destruct (response_validates self response store) as [self' r] eqn:E.
  now destruct (response_validates_effect _ _ _ _ _ E).
Qed.

(** The digest of a constructed state is the 8 bytes of the [ot_hex] it
    was built from. *)
Lemma history_digest (ot_hex : option string) (self : t)
    (pending : option bytes) :
  history ot_hex self pending ->
  match ot_hex with
  | None => _current_digest self = None
  | Some h => exists d, validate_hex h = Ok d /\ length d = 8%nat /\
                        _current_digest self = Some d
  end.
Proof.
  induction 1 as [step seed algo self Hinit
                 | self pending response store self' r _ IH Hcall _
                 | self pending response b self' _ IH _ Hcall].
  - destruct (init_inv _ _ _ _ _ Hinit) as (_ & _ & _ & _ & _ & Hot).
    destruct ot_hex as [h|]; [|exact Hot].
    destruct Hot as (d & Hd & Hcur). exists d. repeat split; auto.
    now apply validate_hex_length in Hd.
  - pose proof (response_validates_fields self response store) as Hf.
    rewrite Hcall in Hf. cbn [fst] in Hf.
    apply (f_equal _current_digest) in Hf. cbn in Hf. now rewrite Hf.
  - pose proof (response_validates_fields self response true) as Hf.
    rewrite Hcall in Hf. cbn [fst] in Hf.
    apply (f_equal _current_digest) in Hf. cbn in Hf. now rewrite Hf.
Qed.

Lemma init_of_wf (self : t) (ot_hex : option string) :
  wf self ->
  match ot_hex, _current_digest self with
  | None, None => True
  | Some h, Some d => validate_hex h = Ok d
  | _, _ => False
  end ->
  __init__ ot_hex (_step self) (_seed self) (AlgoName (_hash_algo self))
  = Ok (clear_pending self).
Proof.
  intros (Hseed & Ha & Hstep) Hd. unfold __init__.
  rewrite Hseed. cbn [reraise bind].
  rewrite validate_hash_algo_name by assumption. cbn [reraise bind].
  unfold validate_step. destruct (_ <? 0)%Z eqn:E;
    [apply Z.ltb_lt in E; lia|]. cbn [reraise bind].
  unfold clear_pending.
  destruct ot_hex as [h|], (_current_digest self) as [d|];
    try contradiction; cbn [bind]; [now rewrite Hd|reflexivity].
Qed.

Lemma state_round_trip (ot_hex : option string) (self : t)
    (pending : option bytes) :
  history ot_hex self pending ->
  from_dict (to_dict self) = Ok (clear_pending self).
Proof.
  intros H. destruct (history_inv _ _ _ H) as (Hwf & _).
  pose proof (history_digest _ _ _ H) as Hd.
  unfold from_dict, to_dict. cbn.
  apply init_of_wf; [exact Hwf|].
  destruct ot_hex as [h|].
  - destruct Hd as (d & _ & Hlen & ->). now apply validate_hex_hexlify.
  - now rewrite Hd.
Qed.

(** X6: A state that is written with [to_dict] and read back with [from_dict]
    is the same state with nothing pending: seed, algorithm, step and
    digest survive, a stored validation does not. *)
Theorem from_dict_to_dict (ot_hex : option string) (self : t)
    (pending : option bytes) :
  history ot_hex self pending ->
  from_dict (to_dict self) = Ok (clear_pending self).
Proof. exact (state_round_trip ot_hex self pending). Qed.

Lemma from_dict_to_dict_witness :
  history (Some "0x7965e05436f5029f") sgs_validated (Some rfc_md5_0) /\
  from_dict (to_dict sgs_validated) = Ok sgs_state.
Proof.
  assert (history (Some "0x7965e05436f5029f") sgs_validated (Some rfc_md5_0))
    as H.
  { apply (history_stored _ sgs_state None "INCH SEA ANNE LONG AHEM TOUR").
    - apply (history_init _ 1%Z "TeSt" OTP_ALGO_MD5). vm_compute. reflexivity.
    - vm_compute. reflexivity.
    - vm_compute. reflexivity. }
  split; [exact H|]. exact (from_dict_to_dict _ _ _ H).
Defined.

(** X7: A dictionary that [from_dict] accepts is written back by [to_dict] in
    a normal form: the digits of [ot_hex] in lower case without prefix (as
    the [ot_hex] property gives them), the algorithm by its name; and
    reading the normal form gives the same state. *)
Theorem to_dict_from_dict (d : OTPStore.state_dict) (self : t) :
  from_dict d = Ok self ->
  to_dict self
  = {| OTPStore.ot_hex :=
         match OTPStore.ot_hex d with
         | Some h => Some (lower (hex_body h))
         | None => None
         end;
       OTPStore.current_step := OTPStore.current_step d;
       OTPStore.seed := OTPStore.seed d;
       OTPStore.hash_algo := AlgoName (_hash_algo self) |} /\
  ot_hex self = match OTPStore.ot_hex d with
                | Some h => lower (hex_body h)
                | None => EmptyString
                end /\
  validate_hash_algo (OTPStore.hash_algo d) = Ok (_hash_algo self) /\
  from_dict (to_dict self) = Ok self.
Proof.
  intros H. unfold from_dict in H.
  pose proof (history_init _ _ _ _ _ H) as Hh.
  destruct (init_inv _ _ _ _ _ H) as (Hwf & Hnew & Hstep & Hseed & Ha & Hot).
  assert (clear_pending self = self) as Hclear.
  { destruct self. cbn in *. now subst. }
  repeat split.
  - unfold to_dict. rewrite Hstep, Hseed. f_equal.
    destruct (OTPStore.ot_hex d) as [h|].
    + destruct Hot as (b & Hb & ->). apply validate_hex_iff in Hb.
      now destruct Hb as (_ & _ & ->).
    + now rewrite Hot.
  - unfold ot_hex. destruct (OTPStore.ot_hex d) as [h|].
    + destruct Hot as (b & Hb & ->). apply validate_hex_iff in Hb.
      now destruct Hb as (_ & _ & ->).
    + now rewrite Hot.
  - exact Ha.
  - rewrite (state_round_trip _ _ _ Hh). now rewrite Hclear.
Qed.

Lemma to_dict_from_dict_witness :
  to_dict sgs_state
  = {| OTPStore.ot_hex := Some (lower (hex_body "0x7965E05436f5029f"));
       OTPStore.current_step := 1;
       OTPStore.seed := "TeSt";
       OTPStore.hash_algo := AlgoName (_hash_algo sgs_state) |} /\
  ot_hex sgs_state = lower (hex_body "0x7965E05436f5029f") /\
  validate_hash_algo OTP_ALGO_MD5 = Ok (_hash_algo sgs_state) /\
  from_dict (to_dict sgs_state) = Ok sgs_state.
Proof.
  apply (to_dict_from_dict
           {| OTPStore.ot_hex := Some "0x7965E05436f5029f";
              OTPStore.current_step := 1; OTPStore.seed := "TeSt";
              OTPStore.hash_algo := OTP_ALGO_MD5 |} sgs_state).
  vm_compute. reflexivity.
Defined.

Lemma hexlify_not_empty (b : bytes) :
  length b = 8%nat -> (len (hexlify b) =? 0)%nat = false.
Proof. intros H. now rewrite len_hexlify, H. Qed.

(** X8: The [validated] property tells whether a stored validation is pending,
    and it is [False] exactly when [get_next_state] returns [None]. *)
Theorem validated_spec (ot_hex : option string) (self : t)
    (pending : option bytes) :
  history ot_hex self pending ->
  (validated self = true <-> pending <> None) /\
  (validated self = false <-> get_next_state self = Ok None).
Proof.
  intros H. destruct (history_inv _ _ _ H) as (Hwf & Hnew & Hlen & _).
  unfold validated, get_next_state. rewrite Hnew.
  destruct pending as [b|]; cbn [fmap option_fmap option_map].
  - rewrite hexlify_not_empty by auto. cbn [negb]. split.
    + split; [discriminate | reflexivity].
    + split; [discriminate|].
      destruct (__init__ _ _ _ _); discriminate.
  - split; split; congruence.
Qed.

Lemma validated_spec_witness :
  (validated sgs_validated = true <-> Some rfc_md5_0 <> None) /\
  (validated sgs_validated = false <-> get_next_state sgs_validated = Ok None).
Proof.
  apply (validated_spec (Some "0x7965e05436f5029f")).
  apply (history_stored _ sgs_state None "INCH SEA ANNE LONG AHEM TOUR").
  - apply (history_init _ 1%Z "TeSt" OTP_ALGO_MD5). vm_compute. reflexivity.
  - vm_compute. reflexivity.
  - vm_compute. reflexivity.
Defined.

End StateDictFacts.


Section ChallengeFacts.
Import Generator OTPState StateViews Examples.

Lemma string_of_uint_digits (d : Decimal.uint) :
  sall isdigit (DecimalString.NilEmpty.string_of_uint d) = true.
Proof. induction d as [|d IH|d IH|d IH|d IH|d IH|d IH|d IH|d IH|d IH|d IH];
         cbn; [reflexivity | exact IH ..]. Qed.

Lemma string_of_uint_not_empty (d : Decimal.uint) :
  d <> Decimal.Nil ->
  DecimalString.NilEmpty.string_of_uint d <> EmptyString.
Proof. destruct d; cbn; congruence. Qed.

Lemma isdigit_nonspace (c : ascii) : isdigit c = true -> nonspace c = true.
Proof. ascii_cases c. Qed.

Lemma isalnum_nonspace (c : ascii) :
  isalnum_ascii c = true -> nonspace c = true.
Proof. ascii_cases c. Qed.

Lemma str_of_int_word (n : Z) : (0 <= n)%Z -> word_ok (str_of_int n) = true.
Proof.
  intros Hn. unfold word_ok, str_of_int.
  assert (exists d, Z.to_int n = Decimal.Pos d /\ d <> Decimal.Nil)
    as (d & -> & Hd).
  { destruct n as [|p|p]; [| |lia].
    - exists Decimal.zero. split; [reflexivity | discriminate].
    - exists (Pos.to_uint p). split; [reflexivity|].
      apply DecimalPos.Unsigned.to_uint_nonnil. }
  cbn [DecimalString.NilEmpty.string_of_int].
  apply andb_true_iff. split.
  - apply negb_true_iff, String.eqb_neq. now apply string_of_uint_not_empty.
  - apply (sall_impl isdigit nonspace); [apply isdigit_nonspace|].
    apply string_of_uint_digits.
Qed.

Lemma seed_word (seed : string) :
  validate_seed seed = Ok seed -> word_ok seed = true.
Proof.
  unfold validate_seed, word_ok.
  destruct (len seed =? 0)%nat eqn:E; [discriminate|]. cbn [orb].
  destruct (16 <? len seed)%nat; [discriminate|].
  destruct (sall isalnum_ascii seed) eqn:Ha; [|discriminate]. intros _.
  apply andb_true_iff. split.
  - apply negb_true_iff, String.eqb_neq. intros ->. discriminate E.
  - exact (sall_impl _ _ _ isalnum_nonspace Ha).
Qed.

Lemma append_assoc (a b c : string) : (a +:+ b) +:+ c = a +:+ (b +:+ c).
Proof.
  induction a as [|x a IH]; [reflexivity|].
  rewrite !append_cons. now rewrite IH.
Qed.

Lemma word_ok_append (a b : string) :
  word_ok a = true -> sall nonspace b = true -> word_ok (a +:+ b) = true.
Proof.
  unfold word_ok. rewrite !andb_true_iff, !negb_true_iff, !String.eqb_neq.
  intros [Hne Ha] Hb. split.
  - destruct a; [congruence|]. rewrite append_cons. discriminate.
  - clear Hne. induction a as [|x a IH]; [exact Hb|].
    rewrite append_cons. cbn [sall] in *.
    apply andb_true_iff in Ha. destruct Ha as [Hx Ha].
    now rewrite Hx, IH.
Qed.

(** X9: The challenge of a constructed state has three fields separated by
    white space, the tag of the algorithm, the step in decimal and the
    seed, and it ends with a space; the decimal text reads back as the
    step. *)
Theorem challenge_string_fields (ot_hex : option string) (self : t)
    (pending : option bytes) :
  history ot_hex self pending ->
  split (challenge_string self)
  = ["otp-" +:+ _hash_algo self; str_of_int (_step self); _seed self] /\
  (exists body, challenge_string self = body +:+ " ") /\
  option_map Z.of_int
    (DecimalString.NilEmpty.int_of_string (str_of_int (_step self)))
  = Some (_step self).
Proof.
  intros H. destruct (history_inv _ _ _ H) as ((Hseed & Ha & Hstep) & _).
  assert (challenge_string self
          = ("otp-" +:+ _hash_algo self)
              +:+ String " " (str_of_int (_step self)
              +:+ String " " (_seed self +:+ String " " EmptyString))) as Heq.
  { unfold challenge_string. now rewrite append_assoc. }
  split; [|split].
  - rewrite Heq.
    rewrite split_app_space.
    + rewrite split_app_space by now apply str_of_int_word.
      rewrite split_app_space by now apply seed_word. reflexivity.
    + apply word_ok_append; [reflexivity|].
      destruct Ha as [-> | ->]; reflexivity.
  - exists ("otp-" +:+ _hash_algo self +:+ " " +:+ str_of_int (_step self)
            +:+ " " +:+ _seed self).
    unfold challenge_string. now rewrite !append_assoc.
  - unfold str_of_int. rewrite DecimalString.NilEmpty.isi. cbn [option_map].
    now rewrite DecimalZ.of_to.
Qed.

Lemma challenge_string_fields_witness :
  split (challenge_string sgs_state)
  = ["otp-" +:+ _hash_algo sgs_state; str_of_int (_step sgs_state);
     _seed sgs_state] /\
  (exists body, challenge_string sgs_state = body +:+ " ") /\
  option_map Z.of_int
    (DecimalString.NilEmpty.int_of_string (str_of_int (_step sgs_state)))
  = Some (_step sgs_state).
Proof.
  apply (challenge_string_fields (Some "0x7965e05436f5029f") sgs_state None).
  apply (history_init _ 1%Z "TeSt" OTP_ALGO_MD5). vm_compute. reflexivity.
Defined.

Example challenge_string_sgs : challenge_string sgs_state = "otp-md5 1 TeSt ".
Proof. vm_compute. reflexivity. Qed.

End ChallengeFacts.


(** * The remaining methods of OTPStore *)
Section StoreViewFacts.
Import Generator OTPStore StoreViews Examples.

Lemma world_eta (w : world) :
  {| heap := heap w;
     store := {| _data := _data (store w); _states := _states (store w) |} |}
  = w.
Proof. now destruct w as [h [d s]]. Qed.

(** X10: [pop_state] undoes [add_state] when the key was not bound and the state
    was not registered: it returns the state and the store is as before. *)
Theorem pop_state_add_state (key : string) (state : pyval) (w : world) :
  is_state (heap w) state = true ->
  _data (store w) !! key = None ->
  _states (store w) !! state = None ->
  pop_state key (fst (add_state key state w)) = (w, Ok state).
Proof.
  intros Hobj Hkey Hstate. unfold add_state. rewrite Hobj. cbn [negb fst].
  unfold pop_state. cbn [store heap _data _states].
  rewrite !lookup_insert_eq.
  rewrite !delete_insert_id by assumption. now rewrite world_eta.
Qed.

Lemma pop_state_add_state_witness :
  pop_state "a" (fst (add_state "a" (Some 1%positive) two_objects))
  = (two_objects, Ok (Some 1%positive)).
Proof.
  apply (pop_state_add_state "a" (Some 1%positive) two_objects);
    reflexivity.
Defined.

(** X11: In a store whose dictionaries agree, [pop_state] of a bound key
    returns its state and unbinds the key, the state is no longer in the
    store, the length goes down by one, the other keys keep their states
    and the dictionaries still agree; [pop_state] of a key that is not
    bound raises [KeyError] and changes nothing. *)
Theorem pop_state_spec (key : string) (w : world) :
  bijective (store w) ->
  match _data (store w) !! key with
  | Some state =>
      exists w', pop_state key w = (w', Ok state) /\
        heap w' = heap w /\
        _data (store w') !! key = None /\
        __contains__ w' state = false /\
        S (__len__ w') = __len__ w /\
        (forall k, k <> key -> _data (store w') !! k = _data (store w) !! k) /\
        bijective (store w')
  | None => pop_state key w = (w, Raise (KeyError (KeyStr key)))
  end.
Proof.
  intros [Hsize Hrev]. unfold pop_state.
  destruct (_data (store w) !! key) as [state|] eqn:Hkey; [|reflexivity].
  pose proof (Hrev _ _ Hkey) as Hstate. rewrite Hstate.
  eexists. split; [reflexivity|]. cbn [store heap _data _states].
  unfold __contains__, __len__. cbn [store heap _data _states].
  assert (size (delete key (_data (store w))) = pred (size (_data (store w))))
    as Hd by (apply map_size_delete_Some; eauto).
  assert (size (_data (store w)) <> 0%nat) as Hnz.
  { intros Hz. apply map_size_empty_inv in Hz. rewrite Hz in Hkey.
    now rewrite lookup_empty in Hkey. }
  split; [reflexivity|]. split; [apply lookup_delete_eq|].
  split.
  { apply bool_decide_eq_false. rewrite lookup_delete_eq. now intros [x Hx]. }
  split; [rewrite Hd; lia|].
  split; [intros k Hk; now apply lookup_delete_ne|].
  split.
  - cbn [_data _states]. rewrite Hd.
    rewrite map_size_delete_Some by eauto. now rewrite Hsize.
  - cbn [_data _states]. intros k v.
    destruct (decide (key = k)) as [<-|Hne].
    + now rewrite lookup_delete_eq.
    + rewrite lookup_delete_ne by assumption. intros Hk.
      pose proof (Hrev _ _ Hk) as Hv.
      rewrite lookup_delete_ne; [assumption|].
      intros <-. rewrite Hstate in Hv. congruence.
Qed.

Lemma pop_state_spec_witness :
  exists w', pop_state "sgs" sgs_world = (w', Ok (Some 1%positive)) /\
    heap w' = heap sgs_world /\
    _data (store w') !! "sgs" = None /\
    __contains__ w' (Some 1%positive) = false /\
    S (__len__ w') = __len__ sgs_world /\
    (forall k, k <> "sgs" ->
               _data (store w') !! k = _data (store sgs_world) !! k) /\
    bijective (store w').
Proof.
  assert (bijective (store sgs_world)) as H.
  { split.
    - vm_compute. reflexivity.
    - assert (store sgs_world
              = {| _data := <["sgs" := Some 1%positive]> ∅;
                   _states := <[Some 1%positive := "sgs"]> ∅ |}) as ->
        by reflexivity.
      cbn [_data _states]. intros k v.
      destruct (decide ("sgs" = k)) as [<-|Hne].
      + rewrite lookup_insert_eq. intros [= <-]. apply lookup_insert_eq.
      + rewrite lookup_insert_ne by assumption. now rewrite lookup_empty. }
  exact (pop_state_spec "sgs" sgs_world H).
Defined.

Lemma state_query (self : OTPState.t) (response : string) :
  fst (OTPState.response_validates self response false) = self.
Proof.
  unfold OTPState.response_validates.
  destruct (OTPState.response_to_bytes response); [|reflexivity].
  destruct (String.eqb _ "md5");
    [destruct (OTPState.matches _ _); reflexivity|].
  destruct (String.eqb _ "sha1");
    [destruct (OTPState.matches _ _); reflexivity|]. reflexivity.
Qed.

Lemma set_heap_id (w : world) : set_heap w (heap w) = w.
Proof. now destruct w. Qed.

(** X12: With [store_valid_response] unset, [response_validates] is a query:
    whatever it returns or raises, no dictionary and no object changes, and
    for a bound key the outcome is that of the state's own method. *)
Theorem response_validates_query (key response : string) (w : world) :
  fst (response_validates key response false w) = w /\
  forall l self,
    _data (store w) !! key = Some (Some l) -> heap w !! l = Some self ->
    snd (response_validates key response false w)
    = snd (OTPState.response_validates self response false).
Proof.
  unfold response_validates. split.
  - destruct (_data (store w) !! key) as [state|]; [|reflexivity].
    destruct (deref (heap w) state) as [self|] eqn:Hself; [|reflexivity].
    pose proof (state_query self response) as Hq.
    destruct (OTPState.response_validates self response false) as [self' r].
    cbn [fst] in Hq. subst self'.
    assert (update (heap w) state self = heap w) as ->.
    { destruct state as [l|]; [|reflexivity]. now apply insert_id. }
    rewrite set_heap_id.
    destruct r as [rvalue|]; [|reflexivity].
    now rewrite andb_false_r.
  - intros l self Hkey Hself. rewrite Hkey. cbn [deref]. rewrite Hself.
    destruct (OTPState.response_validates self response false) as [self' r].
    destruct r as [rvalue|]; [|reflexivity].
    now rewrite andb_false_r.
Qed.

(** X13: Whatever a call of [response_validates] does, the other keys keep
    their states, the objects other than the one bound to the key are as
    they were, and no object disappears. *)
Theorem response_validates_other_keys (key response : string) (store : bool)
    (w : world) (k : string) :
  k <> key ->
  _data (OTPStore.store (fst (response_validates key response store w))) !! k
  = _data (OTPStore.store w) !! k /\
  (forall l st,
     heap w !! l = Some st ->
     _data (OTPStore.store w) !! key <> Some (Some l) ->
     heap (fst (response_validates key response store w)) !! l = Some st).
Proof.
  intros Hk. unfold response_validates.
  destruct (_data (OTPStore.store w) !! key) as [state|] eqn:Hkey;
    [|split; [reflexivity | auto]].
  destruct (deref (heap w) state) as [self|] eqn:Hself;
    [|split; [reflexivity | auto]].
  destruct state as [l0|]; [|discriminate Hself]. cbn [deref update] in *.
  destruct (OTPState.response_validates self response store) as [self' r].
  assert (forall l st, heap w !! l = Some st -> Some (Some l0) <> Some (Some l) ->
            <[l0 := self']> (heap w) !! l = Some st) as Hh.
  { intros l st Hl Hne. rewrite lookup_insert_ne; [assumption | congruence]. }
  assert (forall l st next, heap w !! l = Some st ->
            Some (Some l0) <> Some (Some l) ->
            <[fresh (dom (<[l0 := self']> (heap w))) := next]>
              (<[l0 := self']> (heap w)) !! l = Some st) as Hh'.
  { intros l st next Hl Hne. rewrite lookup_insert_ne; [now apply Hh|].
    intros Heq. pose proof (Hh _ _ Hl Hne) as Hin.
    apply elem_of_dom_2 in Hin. rewrite <- Heq in Hin.
    now apply is_fresh in Hin. }
  destruct r as [rvalue|]; [|split; [reflexivity | exact Hh]].
  destruct (rvalue && store); [|split; [reflexivity | exact Hh]].
  destruct (OTPState.get_next_state self') as [next|];
    [|split; [reflexivity | exact Hh]].
  match goal with
  | |- context [?m !! Some l0] => destruct (m !! Some l0)
  end; cbn [fst OTPStore.store heap _data].
  - split; [now apply lookup_insert_ne|].
    destruct next as [n|]; [intros; now apply Hh' | exact Hh].
  - split; [now apply lookup_insert_ne|].
    destruct next as [n|]; [intros; now apply Hh' | exact Hh].
Qed.

Lemma response_validates_other_keys_witness :
  _data (store (fst (response_validates "b" "0x9e876134d90499dd" true shared)))
    !! "a"
  = _data (store shared) !! "a" /\
  (forall l st,
     heap shared !! l = Some st ->
     _data (store shared) !! "b" <> Some (Some l) ->
     heap (fst (response_validates "b" "0x9e876134d90499dd" true shared)) !! l
     = Some st).
Proof.
  apply (response_validates_other_keys "b" "0x9e876134d90499dd" true shared
           "a").
  discriminate.
Defined.

End StoreViewFacts.


(** * A validated response at the level of the store *)
Section StoreAdvance.
Import Generator OTPStore StoreViews Examples StoreExamples.

Lemma state_accepts_stored (self self' : OTPState.t) (response : string)
    (b : bytes) :
  OTPState.response_to_bytes response = Ok b ->
  OTPState.response_validates self response true = (self', Ok true) ->
  self' = OTPState.set_new_digest_hex self (hexlify b).
Proof.
  intros Hb. unfold OTPState.response_validates. rewrite Hb.
  destruct (String.eqb _ "md5").
  - destruct (OTPState.matches _ _); [|discriminate]. now intros [= <-].
  - destruct (String.eqb _ "sha1"); [|discriminate].
    destruct (OTPState.matches _ _); [|discriminate]. now intros [= <-].
Qed.

(** The world after a successful call on a key bound to a constructed
    state. *)
Lemma advance_world (ot_hex : option string) (key response : string)
    (w w' : world) (l : loc) (self : OTPState.t) (pending : option bytes)
    (b : bytes) :
  response_validates key response true w = (w', Ok true) ->
  _data (store w) !! key = Some (Some l) ->
  heap w !! l = Some self ->
  OTPState.history ot_hex self pending ->
  OTPState.response_to_bytes response = Ok b ->
  (1 <= OTPState._step self)%Z /\
  is_Some (_states (store w) !! Some l) /\
  w' = {| heap := <[fresh (dom (heap w)) := OTPState.next_of self b]>
                    (<[l := OTPState.set_new_digest_hex self (hexlify b)]>
                       (heap w));
          store :=
            {| _data := <[key := Some (fresh (dom (heap w)))]>
                          (_data (store w));
               _states := delete (Some l)
                            (<[Some (fresh (dom (heap w))) := key]>
                               (_states (store w))) |} |}.
Proof.
  intros Hcall Hkey Hself Hhist Hb.
  destruct (response_validates_advance _ _ _ _ Hcall)
    as (l0 & self0 & self' & next & Hkey0 & Hself0 & Hstate & Hnext & Hw).
  cbn zeta in Hw. destruct Hw as [Hreg ->].
  rewrite Hkey in Hkey0. injection Hkey0 as <-.
  rewrite Hself in Hself0. injection Hself0 as <-.
  pose proof (state_accepts_stored _ _ _ _ Hb Hstate) as ->.
  pose proof (OTPState.history_stored _ _ _ _ _ _ Hhist Hb Hstate) as Hh'.
  destruct (history_inv _ _ _ Hh') as (Hwf & Hnew & Hlen & _).
  rewrite (get_next_state_pending _ b) in Hnext by auto.
  cbn [OTPState._step OTPState.set_new_digest_hex] in Hnext.
  destruct (OTPState._step self - 1 <? 0)%Z eqn:E; [discriminate|].
  injection Hnext as <-. apply Z.ltb_ge in E.
  split; [lia|]. split; [exact Hreg | reflexivity].
Qed.

(** X14: A successful call with [store_valid_response] set, on a key bound to a
    constructed state: the step of that state was at least 1, the key is
    now bound to an object that did not exist, with the step one less and
    the bytes of the response as its digest, the old object is no longer
    in the store but holds the accepted response, and the length of the
    store is as before. *)
Theorem store_advances (ot_hex : option string) (key response : string)
    (w w' : world) (l : loc) (self : OTPState.t) (pending : option bytes)
    (b : bytes) :
  response_validates key response true w = (w', Ok true) ->
  _data (store w) !! key = Some (Some l) ->
  heap w !! l = Some self ->
  OTPState.history ot_hex self pending ->
  OTPState.response_to_bytes response = Ok b ->
  (1 <= OTPState._step self)%Z /\
  exists l', (l' ∉ dom (heap w)) /\
    _data (store w') !! key = Some (Some l') /\
    heap w' !! l' = Some (OTPState.next_of self b) /\
    heap w' !! l = Some (OTPState.set_new_digest_hex self (hexlify b)) /\
    __contains__ w' (Some l) = false /\
    __contains__ w' (Some l') = true /\
    __len__ w' = __len__ w.
Proof.
  intros Hcall Hkey Hself Hhist Hb.
  destruct (advance_world _ _ _ _ _ _ _ _ _ Hcall Hkey Hself Hhist Hb)
    as (Hstep & Hreg & ->).
  split; [exact Hstep|].
  set (l' := fresh (dom (heap w))).
  assert (l' ∉ dom (heap w)) as Hfresh by apply is_fresh.
  assert (l <> l') as Hne.
  { intros ->. apply Hfresh. now apply elem_of_dom_2 in Hself. }
  exists l'. split; [exact Hfresh|].
  cbn [store heap _data _states]. unfold __contains__, __len__.
  cbn [store heap _data _states].
  split; [apply lookup_insert_eq|].
  split; [apply lookup_insert_eq|].
  split; [rewrite lookup_insert_ne by congruence; apply lookup_insert_eq|].
  split.
  { apply bool_decide_eq_false. rewrite lookup_delete_eq. now intros [x Hx]. }
  split.
  { apply bool_decide_eq_true.
    rewrite lookup_delete_ne by congruence. rewrite lookup_insert_eq. eauto. }
  apply map_size_insert_Some. eauto.
Qed.

Lemma store_advances_witness :
  (1 <= OTPState._step sgs_state)%Z /\
  exists l', (l' ∉ dom (heap sgs_world)) /\
    _data (store sgs_advanced) !! "sgs" = Some (Some l') /\
    heap sgs_advanced !! l' = Some (OTPState.next_of sgs_state rfc_md5_0) /\
    heap sgs_advanced !! 1%positive
    = Some (OTPState.set_new_digest_hex sgs_state (hexlify rfc_md5_0)) /\
    __contains__ sgs_advanced (Some 1%positive) = false /\
    __contains__ sgs_advanced (Some l') = true /\
    __len__ sgs_advanced = __len__ sgs_world.
Proof.
  apply (store_advances (Some "0x7965e05436f5029f") "sgs"
           "0x9e876134d90499dd" sgs_world sgs_advanced 1%positive sgs_state
           None rfc_md5_0).
  - vm_compute. reflexivity.
  - vm_compute. reflexivity.
  - vm_compute. reflexivity.
  - apply (OTPState.history_init _ 1%Z "TeSt" OTP_ALGO_MD5).
    vm_compute. reflexivity.
  - vm_compute. reflexivity.
Defined.

(** X15: At step 0 the sequence is used up: a response that the state accepts
    makes [response_validates] raise the error of the constructor instead
    of returning [True]; both dictionaries are as before, and the state
    holds the accepted response. *)
Theorem store_exhausted (ot_hex : option string) (key response : string)
    (w : world) (l : loc) (self : OTPState.t) (pending : option bytes)
    (b : bytes) :
  _data (store w) !! key = Some (Some l) ->
  heap w !! l = Some self ->
  OTPState.history ot_hex self pending ->
  OTPState._step self = 0%Z ->
  OTPState.response_to_bytes response = Ok b ->
  snd (OTPState.response_validates self response true) = Ok true ->
  response_validates key response true w
  = (set_heap w
       (<[l := OTPState.set_new_digest_hex self (hexlify b)]> (heap w)),
     Raise (OTPStateException "Step value MUST be >= 0")).
Proof.
  intros Hkey Hself Hhist Hstep Hb Hacc. unfold response_validates.
  rewrite Hkey. cbn [deref update]. rewrite Hself.
  destruct (OTPState.response_validates self response true)
    as [self' r] eqn:Hcall.
  cbn [snd] in Hacc. subst r.
  pose proof (state_accepts_stored _ _ _ _ Hb Hcall) as ->.
  pose proof (OTPState.history_stored _ _ _ _ _ _ Hhist Hb Hcall) as Hh'.
  destruct (history_inv _ _ _ Hh') as (Hwf & Hnew & Hlen & _).
  cbn [andb]. rewrite (get_next_state_pending _ b) by auto.
  cbn [OTPState._step OTPState.set_new_digest_hex]. now rewrite Hstep.
Qed.

Lemma store_exhausted_witness :
  response_validates "sgs" "0x9e876134d90499dd" true last_world
  = (set_heap last_world
       (<[1%positive :=
            OTPState.set_new_digest_hex last_state (hexlify rfc_md5_0)]>
          (heap last_world)),
     Raise (OTPStateException "Step value MUST be >= 0")).
Proof.
  apply (store_exhausted None "sgs" "0x9e876134d90499dd" last_world
           1%positive last_state None rfc_md5_0).
  - vm_compute. reflexivity.
  - vm_compute. reflexivity.
  - apply (OTPState.history_init _ 0%Z "TeSt" OTP_ALGO_MD5).
    vm_compute. reflexivity.
  - reflexivity.
  - vm_compute. reflexivity.
  - vm_compute. reflexivity.
Defined.

(** X16: A response that has just been accepted and stored is not accepted a
    second time, unless its bytes hash and fold to themselves: the key is
    now bound to the state that expects the value hashing to it, the second
    call returns [False], and it changes nothing. *)
Theorem replay_rejected (ot_hex : option string) (key response : string)
    (w w' : world) (l : loc) (self : OTPState.t) (pending : option bytes)
    (b : bytes) :
  response_validates key response true w = (w', Ok true) ->
  _data (store w) !! key = Some (Some l) ->
  heap w !! l = Some self ->
  OTPState.history ot_hex self pending ->
  OTPState.response_to_bytes response = Ok b ->
  hash_fold (OTPState._hash_algo self) b <> b ->
  response_validates key response true w' = (w', Ok false).
Proof.
  intros Hcall Hkey Hself Hhist Hb Hfix.
  destruct (advance_world _ _ _ _ _ _ _ _ _ Hcall Hkey Hself Hhist Hb)
    as (Hstep & Hreg & ->).
  destruct (history_inv _ _ _ Hhist) as ((_ & Ha & _) & _).
  unfold response_validates. cbn [store heap _data _states].
  rewrite lookup_insert_eq. cbn [deref update]. rewrite lookup_insert_eq.
  rewrite response_validates_eq by exact Ha. rewrite Hb.
  unfold OTPState.matches. cbn [OTPState.next_of OTPState._current_digest
                                OTPState._hash_algo].
  rewrite bool_decide_eq_false_2 by exact Hfix.
  unfold set_heap. cbn [store heap]. now rewrite insert_insert_eq.
Qed.

Lemma replay_rejected_witness :
  response_validates "sgs" "0x9e876134d90499dd" true sgs_advanced
  = (sgs_advanced, Ok false).
Proof.
  apply (replay_rejected (Some "0x7965e05436f5029f") "sgs"
           "0x9e876134d90499dd" sgs_world sgs_advanced 1%positive sgs_state
           None rfc_md5_0).
  - vm_compute. reflexivity.
  - vm_compute. reflexivity.
  - vm_compute. reflexivity.
  - apply (OTPState.history_init _ 1%Z "TeSt" OTP_ALGO_MD5).
    vm_compute. reflexivity.
  - vm_compute. reflexivity.
  - vm_compute. discriminate.
Defined.

End StoreAdvance.


(** * Loading a store from a dictionary *)
Section StoreLoad.
Import Generator OTPStore StoreViews.

Lemma add_data_cons (key : string) (d : state_dict) (st : OTPState.t)
    (rest : list (string * state_dict)) (w : world) :
  StateViews.from_dict d = Ok st ->
  _add_data ((key, d) :: rest) w = _add_data rest (with_entry key st w).
Proof.
  unfold StateViews.from_dict. intros Hd. cbn [_add_data].
  unfold new_state. rewrite Hd. unfold add_state, is_state, set_heap.
  cbn [heap store deref]. now rewrite lookup_insert_eq.
Qed.

Lemma add_data_cons_raise (key : string) (d : state_dict) (e : exn)
    (rest : list (string * state_dict)) (w : world) :
  StateViews.from_dict d = Raise e ->
  _add_data ((key, d) :: rest) w = (w, Raise e).
Proof.
  unfold StateViews.from_dict. intros Hd. cbn [_add_data].
  unfold new_state. now rewrite Hd.
Qed.

Lemma inv_with_entry (key : string) (st : OTPState.t) (w : world) :
  inv w -> _data (store w) !! key = None -> inv (with_entry key st w).
Proof.
  intros Hinv Hkey.
  set (l := fresh (dom (heap w))).
  assert (inv (set_heap w (<[l := st]> (heap w)))) as H1.
  { apply inv_objects; [exact Hinv|]. rewrite dom_insert. set_solver. }
  assert (new_add key (Some l) (store (set_heap w (<[l := st]> (heap w)))))
    as H2.
  { split; [exact Hkey|]. cbn [store set_heap].
    destruct (_states (store w) !! Some l) as [k|] eqn:E; [|reflexivity].
    destruct Hinv as [_ Hlive]. apply Hlive in E.
    unfold l in E. now rewrite fresh_not_state in E. }
  pose proof (inv_add _ _ _ H1 H2) as H3.
  unfold add_state, is_state, set_heap in H3. cbn [heap store deref] in H3.
  rewrite lookup_insert_eq in H3. exact H3.
Qed.

Lemma add_data_ok (data : list (string * state_dict)) : forall w : world,
  NoDup data.*1 ->
  Forall (fun kd => exists st, StateViews.from_dict kd.2 = Ok st) data ->
  inv w ->
  (forall k, k ∈ data.*1 -> _data (store w) !! k = None) ->
  exists w', _add_data data w = (w', Ok tt) /\
    inv w' /\
    heap w ⊆ heap w' /\
    __len__ w' = (__len__ w + length data)%nat /\
    (forall k, k ∉ data.*1 ->
               _data (store w') !! k = _data (store w) !! k) /\
    (forall k d, (k, d) ∈ data ->
       exists l st, _data (store w') !! k = Some (Some l) /\
                    heap w' !! l = Some st /\
                    StateViews.from_dict d = Ok st /\
                    heap w !! l = None).
Proof.
  induction data as [|[key d] rest IH]; intros w Hnd Hvalid Hinv Hnew.
  - exists w. cbn [_add_data length]. split; [reflexivity|].
    split; [exact Hinv|]. split; [reflexivity|].
    split; [now rewrite Nat.add_0_r|]. split; [reflexivity|].
    intros k d Hin. now apply elem_of_nil in Hin.
  - cbn [fmap list_fmap fst] in Hnd, Hnew.
    apply NoDup_cons in Hnd as [Hkey Hnd].
    apply Forall_cons in Hvalid as [[st Hst] Hvalid]. cbn [snd] in Hst.
    rewrite (add_data_cons _ _ st) by exact Hst.
    assert (_data (store w) !! key = None) as Hfree
      by (apply Hnew; left).
    set (l := fresh (dom (heap w))).
    assert (heap w !! l = None) as Hl
      by (apply not_elem_of_dom, is_fresh).
    destruct (IH (with_entry key st w) Hnd Hvalid) as
      (w' & Hrun & Hinv' & Hsub & Hlen & Hother & Hin).
    { now apply inv_with_entry. }
    { intros k Hk. cbn [with_entry store _data].
      rewrite lookup_insert_ne; [apply Hnew; now right|].
      intros <-. contradiction. }
    cbn [with_entry heap store _data] in Hsub, Hother.
    exists w'. split; [exact Hrun|]. split; [exact Hinv'|].
    split.
    { etransitivity; [|exact Hsub]. now apply insert_subseteq. }
    split.
    { rewrite Hlen. unfold __len__. cbn [with_entry store _data length].
      rewrite map_size_insert_None by exact Hfree. lia. }
    split.
    { intros k Hk. apply not_elem_of_cons in Hk as [Hne Hk].
      rewrite (Hother k Hk). now apply lookup_insert_ne. }
    intros k d' Hel. apply elem_of_cons in Hel as [[= -> ->]|Hel].
    + exists l, st. split.
      { rewrite (Hother key Hkey). apply lookup_insert_eq. }
      split.
      { apply (lookup_weaken _ _ _ _ (lookup_insert_eq _ _ _) Hsub). }
      split; [exact Hst | exact Hl].
    + destruct (Hin k d' Hel) as (l' & st' & Hk & Hl' & Hd' & Hnone).
      exists l', st'. split; [exact Hk|]. split; [exact Hl'|].
      split; [exact Hd'|].
      cbn [with_entry heap] in Hnone.
      destruct (decide (l = l')) as [<-|Hne].
      * exact Hl.
      * now rewrite lookup_insert_ne in Hnone.
Qed.

(** X17: [_add_data] with entries the constructor accepts, under keys that are
    pairwise different and not bound yet, in a store whose dictionaries
    agree: it returns, the dictionaries still agree, the length grows by
    the number of entries, the other keys keep their states, and every key
    of the entries is bound to an object that did not exist, built by
    [from_dict] from its entry. *)
Theorem add_data_loads (data : list (string * state_dict)) (w : world) :
  NoDup data.*1 ->
  Forall (fun kd => exists st, StateViews.from_dict kd.2 = Ok st) data ->
  inv w ->
  (forall k, k ∈ data.*1 -> _data (store w) !! k = None) ->
  exists w', _add_data data w = (w', Ok tt) /\
    inv w' /\
    heap w ⊆ heap w' /\
    __len__ w' = (__len__ w + length data)%nat /\
    (forall k, k ∉ data.*1 ->
               _data (store w') !! k = _data (store w) !! k) /\
    (forall k d, (k, d) ∈ data ->
       exists l st, _data (store w') !! k = Some (Some l) /\
                    heap w' !! l = Some st /\
                    StateViews.from_dict d = Ok st /\
                    heap w !! l = None).
Proof. exact (add_data_ok data w). Qed.

Lemma inv_empty (h : gmap loc OTPState.t) :
  inv {| heap := h; store := empty_store |}.
Proof.
  unfold inv, bijective, registered_live.
  cbn [store empty_store _data _states]. split; [split|].
  - reflexivity.
  - intros k v H. now rewrite lookup_empty in H.
  - intros v k H. now rewrite lookup_empty in H.
Qed.

Lemma store_data_valid :
  Forall (fun kd => exists st, StateViews.from_dict kd.2 = Ok st)
    Examples.store_data.
Proof.
  repeat constructor; eexists; vm_compute; reflexivity.
Qed.

Lemma add_data_loads_witness :
  exists w', _add_data Examples.store_data
               {| heap := ∅; store := empty_store |} = (w', Ok tt) /\
    inv w' /\
    heap {| heap := ∅; store := empty_store |} ⊆ heap w' /\
    __len__ w' = (__len__ {| heap := ∅; store := empty_store |}
                  + length Examples.store_data)%nat /\
    (forall k, k ∉ Examples.store_data.*1 ->
               _data (store w') !! k
               = _data (store {| heap := ∅; store := empty_store |}) !! k) /\
    (forall k d, (k, d) ∈ Examples.store_data ->
       exists l st, _data (store w') !! k = Some (Some l) /\
                    heap w' !! l = Some st /\
                    StateViews.from_dict d = Ok st /\
                    heap {| heap := ∅; store := empty_store |} !! l = None).
Proof.
  apply (add_data_loads Examples.store_data
           {| heap := ∅; store := empty_store |}).
  - cbn. repeat constructor; rewrite ?elem_of_cons, ?elem_of_nil; intuition
      discriminate.
  - exact store_data_valid.
  - apply inv_empty.
  - intros k _. reflexivity.
Defined.

Lemma add_data_app (data1 data2 : list (string * state_dict)) :
  forall w : world,
  Forall (fun kd => exists st, StateViews.from_dict kd.2 = Ok st) data1 ->
  _add_data (data1 ++ data2) w = _add_data data2 (fst (_add_data data1 w)).
Proof.
  induction data1 as [|[key d] rest IH]; intros w Hvalid; [reflexivity|].
  apply Forall_cons in Hvalid as [[st Hst] Hvalid]. cbn [snd] in Hst.
  cbn [app]. rewrite !(add_data_cons _ _ st) by exact Hst. now apply IH.
Qed.

(** X18: [_add_data] stops at the first entry the constructor refuses: it
    raises the error of the constructor, the entries before that one are
    in the store, and the entries after it are not looked at. *)
Theorem add_data_stops (data1 data2 : list (string * state_dict))
    (key : string) (d : state_dict) (e : exn) (w : world) :
  Forall (fun kd => exists st, StateViews.from_dict kd.2 = Ok st) data1 ->
  StateViews.from_dict d = Raise e ->
  _add_data (data1 ++ (key, d) :: data2) w
  = (fst (_add_data data1 w), Raise e).
Proof.
  intros Hvalid Hd. rewrite add_data_app by exact Hvalid.
  now apply add_data_cons_raise.
Qed.

Lemma add_data_stops_witness :
  _add_data
    (Examples.store_data
     ++ ("late", {| ot_hex := None; current_step := -1; seed := "TeSt";
                    hash_algo := OTP_ALGO_MD5 |}) :: Examples.store_data)
    {| heap := ∅; store := empty_store |}
  = (fst (_add_data Examples.store_data
            {| heap := ∅; store := empty_store |}),
     Raise (OTPStateException "Step value MUST be >= 0")).
Proof.
  apply (add_data_stops Examples.store_data Examples.store_data "late").
  - exact store_data_valid.
  - vm_compute. reflexivity.
Defined.

Lemma to_dict_constructed (w : world) :
  constructed w ->
  to_dict w
  = Ok (omap (fun state => StateViews.to_dict <$> deref (heap w) state)
          (_data (store w))).
Proof.
  intros Hc. unfold to_dict. rewrite bool_decide_eq_true_2; [reflexivity|].
  intros k v Hk. destruct (Hc k v Hk) as (l & st & _ & _ & -> & Hl & _).
  unfold is_state. cbn [deref]. now rewrite Hl.
Qed.

Lemma state_to_dict_clear (st : OTPState.t) :
  StateViews.to_dict (StateViews.clear_pending st) = StateViews.to_dict st.
Proof. reflexivity. Qed.

End StoreLoad.


(** * Writing a store and loading it again *)
Section StoreRoundTrip.
Import Generator OTPStore StoreViews.

Lemma dump_entry (w : world) (k : string) (d : state_dict) :
  constructed w ->
  omap (fun state => StateViews.to_dict <$> deref (heap w) state)
    (_data (store w)) !! k = Some d ->
  exists st ot pending,
    OTPState.history ot st pending /\ d = StateViews.to_dict st.
Proof.
  intros Hc Hk. apply lookup_omap_Some in Hk as (v & Hv & Hk).
  destruct (Hc k v Hk) as (l & st & ot & pending & -> & Hl & Hh).
  cbn [deref] in Hv. rewrite Hl in Hv. injection Hv as <-.
  now exists st, ot, pending.
Qed.

Lemma dump_size (w : world) :
  constructed w ->
  size (omap (fun state => StateViews.to_dict <$> deref (heap w) state)
          (_data (store w)))
  = size (_data (store w)).
Proof.
  intros Hc. rewrite <- !(size_dom (D := gset string)). f_equal.
  apply set_eq. intros k. rewrite !elem_of_dom, lookup_omap. split.
  - intros [d Hd]. destruct (_data (store w) !! k); [eauto|discriminate Hd].
  - intros [v Hv]. rewrite Hv. cbn.
    destruct (Hc k v Hv) as (l & st & _ & _ & -> & Hl & _).
    cbn [deref]. rewrite Hl. cbn. eauto.
Qed.

(** X19: A store whose keys are bound to constructed states is written by
    [to_dict] as a dictionary from which [OTPStore] builds a store of the
    same length whose dictionaries agree and which [to_dict] writes as the
    same dictionary, in whatever order the entries are read. *)
Theorem store_to_dict_init (w : world) (data : list (string * state_dict))
    (h : gmap loc OTPState.t) :
  constructed w ->
  NoDup data.*1 ->
  to_dict w = Ok (list_to_map data) ->
  exists w', __init__ data h = (w', Ok tt) /\
    inv w' /\
    __len__ w' = __len__ w /\
    to_dict w' = to_dict w.
Proof.
  intros Hc Hnd Hm. rewrite Hm.
  rewrite to_dict_constructed in Hm by exact Hc. injection Hm as Hm.
  assert (forall k d, (k, d) ∈ data ->
            exists st ot pending,
              OTPState.history ot st pending /\ d = StateViews.to_dict st)
    as Hentry.
  { intros k d Hin. apply (dump_entry w k d Hc). rewrite Hm.
    now apply elem_of_list_to_map_1. }
  assert (Forall (fun kd => exists st, StateViews.from_dict kd.2 = Ok st) data)
    as Hvalid.
  { apply Forall_forall. intros [k d] Hin. cbn [snd].
    destruct (Hentry k d Hin) as (st & ot & pending & Hh & ->).
    eexists. exact (state_round_trip _ _ _ Hh). }
  destruct (add_data_ok data {| heap := h; store := empty_store |}
              Hnd Hvalid (inv_empty h))
    as (w' & Hrun & Hinv & Hsub & Hlen & Hother & Hin).
  { intros k _. apply lookup_empty. }
  cbn [store heap empty_store _data] in Hother.
  exists w'. split; [exact Hrun|]. split; [exact Hinv|]. split.
  { rewrite Hlen. unfold __len__ at 1. cbn [store empty_store _data].
    rewrite map_size_empty. cbn [Nat.add].
    rewrite <- (map_size_list_to_map (M := gmap string) data Hnd), <- Hm.
    now apply dump_size. }
  unfold to_dict. rewrite bool_decide_eq_true_2.
  - f_equal. apply map_eq. intros k. rewrite lookup_omap.
    destruct (decide (k ∈ data.*1)) as [Hk|Hk].
    + apply list_elem_of_fmap in Hk as ([k' d] & -> & Hkd). cbn [fst].
      destruct (Hin _ _ Hkd) as (l & st' & -> & Hl & Hd & _).
      cbn [deref mbind option_bind]. rewrite Hl. cbn [fmap option_fmap option_map].
      rewrite (elem_of_list_to_map_1 _ _ _ Hnd Hkd). f_equal.
      destruct (Hentry _ _ Hkd) as (st & ot & pending & Hh & ->).
      rewrite (state_round_trip _ _ _ Hh) in Hd. now injection Hd as <-.
    + rewrite (Hother k Hk), lookup_empty. cbn.
      symmetry. now apply not_elem_of_list_to_map_1.
  - intros k v Hv. destruct (decide (k ∈ data.*1)) as [Hk|Hk].
    + apply list_elem_of_fmap in Hk as ([k' d] & -> & Hkd). cbn [fst] in Hv.
      destruct (Hin _ _ Hkd) as (l & st' & Hkl & Hl & _).
      rewrite Hkl in Hv. injection Hv as <-.
      unfold is_state. cbn [deref]. now rewrite Hl.
    + rewrite (Hother k Hk), lookup_empty in Hv. discriminate Hv.
Qed.

Lemma store_to_dict_init_witness :
  exists w', __init__ [("sgs", StateViews.to_dict Examples.sgs_state)] ∅
             = (w', Ok tt) /\
    inv w' /\
    __len__ w' = __len__ Examples.sgs_world /\
    to_dict w' = to_dict Examples.sgs_world.
Proof.
  apply (store_to_dict_init Examples.sgs_world
           [("sgs", StateViews.to_dict Examples.sgs_state)] ∅).
  - assert (store Examples.sgs_world
            = {| _data := <["sgs" := Some 1%positive]> ∅;
                 _states := <[Some 1%positive := "sgs"]> ∅ |}) as Hs
      by reflexivity.
    intros k v. rewrite Hs. cbn [_data].
    destruct (decide ("sgs" = k)) as [<-|Hne].
    + rewrite lookup_insert_eq. intros [= <-].
      exists 1%positive, Examples.sgs_state,
        (Some "0x7965e05436f5029f"), None.
      split; [reflexivity|]. split; [reflexivity|].
      apply (OTPState.history_init _ 1%Z "TeSt" OTP_ALGO_MD5).
      vm_compute. reflexivity.
    + rewrite lookup_insert_ne by assumption. now rewrite lookup_empty.
  - cbn. repeat constructor. now rewrite elem_of_nil.
  - vm_compute. reflexivity.
Defined.

End StoreRoundTrip.


(** * Adding a state *)
Section StoreAdd.
Import Generator OTPStore StoreViews.

(** X20: [add_state] with an object that is an [OTPState] binds the key to it:
    [get] returns it, it is in the store, the other keys are as before,
    the length grows by one unless the key was bound, and no state leaves
    the store, not even the one the key was bound to; with anything else
    it raises [OTPStoreException] and changes nothing. *)
Theorem add_state_spec (key : string) (state default : pyval) (w : world) :
  if is_state (heap w) state
  then exists w', add_state key state w = (w', Ok tt) /\
         heap w' = heap w /\
         get w' key default = state /\
         __contains__ w' state = true /\
         (forall k, k <> key -> get w' k default = get w k default) /\
         (forall v, __contains__ w v = true -> __contains__ w' v = true) /\
         __len__ w' = (if decide (is_Some (_data (store w) !! key))
                       then __len__ w else S (__len__ w))
  else add_state key state w
       = (w, Raise (OTPStoreException "state must be an OTPState-object")).
Proof.
  unfold add_state. destruct (is_state (heap w) state); [|reflexivity].
  cbn [negb]. eexists. split; [reflexivity|].
  unfold get, __contains__, __len__. cbn [heap store _data _states].
  split; [reflexivity|].
  split; [now rewrite lookup_insert_eq|].
  split; [apply bool_decide_eq_true; rewrite lookup_insert_eq; eauto|].
  split; [intros k Hk; now rewrite lookup_insert_ne by congruence|].
  split.
  - intros v Hv. apply bool_decide_eq_true in Hv.
    apply bool_decide_eq_true.
    destruct (decide (state = v)) as [<-|Hne].
    + rewrite lookup_insert_eq. eauto.
    + now rewrite lookup_insert_ne.
  - destruct (decide (is_Some (_data (store w) !! key))) as [Hk|Hk].
    + now apply map_size_insert_Some.
    + apply map_size_insert_None. now apply eq_None_not_Some.
Qed.

End StoreAdd.
